(** * BlueScript static type checker: a shallow embedding

    This development embeds [server/src/transpiler/type-checker.ts] (the
    classes [TypeChecker] and [ConstructorChecker] and the driver
    [typecheck]) and states properties of the checker as theorems.  It also
    embeds the class [BytecodeBufferBuilder], which packs the commands for
    the device into units.

    Layout of the file:
    - static types and the error log;
    - name tables (nested scopes) and the annotation side table;
    - the interface of the modules the checker imports ([External]);
    - the AST and the checker state, with a small state-and-exception monad;
    - one definition per method of the checker, in open-recursion style
      (every method takes the [visit] callback that stands for [this.visit]);
    - the dispatcher [visit], the driver [typecheck];
    - the definitions that the statements use, and the bytecode buffer
      builder;
    - the theorems: on single methods first, then on the whole traversal
      and on the constructor validator, then on the builder. *)

From Stdlib Require Import String Ascii ZArith List Bool Lia.
From stdpp Require Import base option list gmap strings.

Import ListNotations.
Set Warnings "-register-all".
Local Open Scope string_scope.
Local Open Scope Z_scope.
Local Open Scope list_scope.

Local Notation "s1 ^^ s2" := (String.append s1 s2)
  (at level 35, right associativity).

(* ================================================================= *)
(** ** Static types *)

(** The type names [Integer], [Float], ... are string constants of
    [types.ts]; composite types are objects.  An instance type is a mutable
    object, shared by reference: [InstanceT r] is the reference [r] into the
    store of class objects kept in the checker state. *)
Inductive StaticType : Type :=
| Integer
| Float
| BooleanT
| StringT
| Void
| Null
| Any
| ObjectT
| InstanceT (ref : nat)
| FunctionT (returnType : StaticType) (paramTypes : list StaticType)
| ArrayT (elementType : StaticType)
| OptionalT (elementType : StaticType).

(** [t1 === t2] where at least one side is one of the primitive type names.
    The checker never compares two composite types with [===]. *)
Definition strictEq (t1 t2 : StaticType) : bool :=
  match t1, t2 with
  | Integer, Integer | Float, Float | BooleanT, BooleanT
  | StringT, StringT | Void, Void | Null, Null | Any, Any => true
  | _, _ => false
  end.

Infix "===" := strictEq (at level 70, no associativity).

Definition isFunctionType (t : StaticType) : bool :=
  match t with FunctionT _ _ => true | _ => false end.

Definition isArrayType (t : StaticType) : bool :=
  match t with ArrayT _ => true | _ => false end.

Definition isOptionalType (t : StaticType) : bool :=
  match t with OptionalT _ => true | _ => false end.

(** Modelled from the spec: [isNumeric] of types.ts, which is not part of the
    sources at hand ("true for integer, float"). *)
Definition isNumeric (t : StaticType) : bool :=
  match t with Integer | Float => true | _ => false end.

(** The names under which a type reference denotes the two numeric types
    ([name === Integer], [name === Float] in [tsTypeReference]). *)
Definition IntegerName : string := "integer".
Definition FloatName : string := "float".

(* ================================================================= *)
(** ** Error log *)

(** Modelled from the spec: [ErrorLog] of utils.ts, which is not part of the
    sources at hand.  A log accumulates (message, source location) pairs and
    can absorb another log verbatim, with the source file it came from.  A
    source location is the identity of the AST node. *)
Inductive LogEntry : Type :=
| Message (message : string) (location : nat)
| Absorbed (log : list LogEntry) (sourceFile : string).

(** Modelled from the spec: an [ErrorLog] object of utils.ts, as the list of
    what it has accumulated, oldest first. *)
Definition ErrorLog : Type := list LogEntry.

(** Modelled from the spec: [ErrorLog.push(msg, node)] of utils.ts appends a
    (message, source location) pair. *)
Definition logPush (msg : string) (node : nat) (log : ErrorLog) : ErrorLog :=
  log ++ [Message msg node].

(** Modelled from the spec: [ErrorLog.add(log, file)] of utils.ts absorbs
    another log verbatim, with the source file as context. *)
Definition logAdd (e : ErrorLog) (file : string) (log : ErrorLog) : ErrorLog :=
  log ++ [Absorbed e file].

(** Modelled from the spec: [ErrorLog.hasError()] of utils.ts. *)
Definition hasError (log : ErrorLog) : bool :=
  match log with [] => false | _ :: _ => true end.

(* ================================================================= *)
(** ** Name tables *)

(** Modelled from the spec: [NameInfo], [NameTable], [GlobalNameTable] and
    [BasicNameTableMaker] of names.ts, which is not part of the sources at
    hand.  A table is a scope with a parent; here a table is the list of the
    scopes from the current one out to the root, so that what a method does
    to the table it was given is seen by every holder of that table. *)
Record NameInfo : Type := mkInfo {
  type : StaticType;
  isConst : bool;
  isFunction : bool;
  isTypeName : bool;
  isExported : bool
}.

(** Modelled from the spec: [maker.info(type)] of names.ts makes a name info
    with the bound type and no flag set. *)
Definition makerInfo (t : StaticType) : NameInfo :=
  mkInfo t false false false false.

(** Modelled from the spec: the variants of a symbol table in names.ts:
    global, function, block. *)
Inductive TableKind : Type := GlobalTable | FunctionTable | BlockTable.

(** Modelled from the spec: one table of names.ts without its parent: the
    mapping from names to name infos, the return-type slot of a function
    table and the class table of a global table. *)
Record Scope : Type := mkScope {
  kind : TableKind;
  elements : gmap string NameInfo;
  returnSlot : option StaticType;
  classTable : gmap string nat
}.

Abbreviation NameTable := (list Scope).

(** Modelled from the spec: a table of names.ts as it is made, empty. *)
Definition emptyScope (k : TableKind) : Scope := mkScope k ∅ None ∅.

(** Modelled from the spec: [maker.block(parent)] of names.ts. *)
Definition makerBlock (names : NameTable) : NameTable :=
  emptyScope BlockTable :: names.

(** Modelled from the spec: [maker.function(parent)] of names.ts; the
    return-type slot starts undefined. *)
Definition makerFunction (names : NameTable) : NameTable :=
  emptyScope FunctionTable :: names.

(** Modelled from the spec: [maker.global(parent)] of names.ts. *)
Definition makerGlobal (parent : NameTable) : NameTable :=
  emptyScope GlobalTable :: parent.

(** Modelled from the spec: the parent of a table of names.ts made by
    [makerBlock] or [makerFunction]. *)
Definition parentTable (names : NameTable) : NameTable := tail names.

(** Modelled from the spec: [names.hasParent()] of names.ts. *)
Definition hasParent (names : NameTable) : bool :=
  match names with _ :: _ :: _ => true | _ => false end.

(** Modelled from the spec: [names.isGlobal()] and
    [names instanceof GlobalNameTable] of names.ts. *)
Definition isGlobal (names : NameTable) : bool :=
  match names with
  | s :: _ => match kind s with GlobalTable => true | _ => false end
  | [] => false
  end.

(** Modelled from the spec: [names.lookup(name)] of names.ts searches the
    chain of tables to the root. *)
Fixpoint lookup (name : string) (names : NameTable) : option NameInfo :=
  match names with
  | [] => None
  | s :: parent =>
      match elements s !! name with
      | Some i => Some i
      | None => lookup name parent
      end
  end.

(** Modelled from the spec: [names.lookupInThis(name)] of names.ts queries
    the current table only. *)
Definition lookupInThis (name : string) (names : NameTable) : option NameInfo :=
  match names with
  | [] => None
  | s :: _ => elements s !! name
  end.

(** Modelled from the spec: a table of names.ts after a change of its
    mapping. *)
Definition setElements (e : gmap string NameInfo) (s : Scope) : Scope :=
  mkScope (kind s) e (returnSlot s) (classTable s).

(** Modelled from the spec: [names.record(key, type, maker, init)] of
    names.ts: a name is recorded once per scope; recording it again fails. *)
Definition record (key : string) (t : StaticType) (init : NameInfo -> NameInfo)
    (names : NameTable) : bool * NameTable :=
  match names with
  | [] => (false, [])
  | s :: parent =>
      match elements s !! key with
      | Some _ => (false, names)
      | None => (true, setElements (<[key := init (makerInfo t)]> (elements s)) s :: parent)
      end
  end.

(** Modelled from the spec: the name infos of names.ts are objects held by
    the tables; this is an assignment to a field of the info object that
    [lookup] returned. *)
Fixpoint updateInfo (name : string) (f : NameInfo -> NameInfo)
    (names : NameTable) : NameTable :=
  match names with
  | [] => []
  | s :: parent =>
      match elements s !! name with
      | Some i => setElements (<[name := f i]> (elements s)) s :: parent
      | None => s :: updateInfo name f parent
      end
  end.

(** Modelled from the spec: [env.importInfo(name, info)] of names.ts copies
    a single symbol from an externally-produced table into the global
    scope. *)
Definition importInfo (name : string) (i : NameInfo) (env : NameTable) : NameTable :=
  match env with
  | [] => []
  | s :: parent => setElements (<[name := i]> (elements s)) s :: parent
  end.

(** Modelled from the spec: what [names.returnType()] of names.ts returns:
    null outside a function body, undefined before the inference concludes,
    or the declared or inferred type. *)
Inductive ReturnType : Type :=
| RNull                       (* not in a function body *)
| RUndefined                  (* not yet inferred *)
| RType (t : StaticType).

(** Modelled from the spec: [names.returnType()] of names.ts: only function
    tables hold a return-type slot, and blocks are in the function of their
    parent. *)
Fixpoint returnType (names : NameTable) : ReturnType :=
  match names with
  | [] => RNull
  | s :: parent =>
      match kind s with
      | GlobalTable => RNull
      | FunctionTable =>
          match returnSlot s with Some t => RType t | None => RUndefined end
      | BlockTable => returnType parent
      end
  end.

(** Modelled from the spec: [names.setReturnType(type)] of names.ts. *)
Fixpoint setReturnType (t : option StaticType) (names : NameTable) : NameTable :=
  match names with
  | [] => []
  | s :: parent =>
      match kind s with
      | GlobalTable => names
      | FunctionTable => mkScope (kind s) (elements s) t (classTable s) :: parent
      | BlockTable => s :: setReturnType t parent
      end
  end.

(** Modelled from the spec: [names.classTable().addClass(name, clazz)] of
    names.ts: the class table belongs to the global scope. *)
Fixpoint addClass (name : string) (clazz : nat) (names : NameTable) : NameTable :=
  match names with
  | [] => []
  | s :: parent =>
      match kind s with
      | GlobalTable =>
          mkScope (kind s) (elements s) (returnSlot s) (<[name := clazz]> (classTable s))
            :: parent
      | _ => s :: addClass name clazz parent
      end
  end.

(* ================================================================= *)
(** ** The modules the checker imports *)

(** What [importer(file)] does: it returns a name table, or throws an
    [ErrorLog], a string, or some other value. *)
Inductive Thrown : Type :=
| ThrownLog (log : ErrorLog)
| ThrownString (s : string)
| ThrownError (message : string)      (* [new Error(message)] *)
| ThrownOther (tag : nat).            (* any other value *)

Inductive ImporterOutcome : Type :=
| Imported (table : NameTable)
| ImporterThrows (e : Thrown).

(** The functions of types.ts, classes.ts, names.ts and
    code-generator/c-runtime.ts that the checker calls and whose code is not
    part of the sources at hand.  They are parameters of the embedding: what
    is proved below holds whatever they compute.  Functions on types take the
    store of class objects, since an instance type is a reference into it. *)
Class External : Type := {
  InstanceType : Type;
  (* types.ts *)
  isSubtype : list InstanceType -> StaticType -> StaticType -> bool;
  isConsistent : list InstanceType -> StaticType -> StaticType -> bool;
  commonSuperType : list InstanceType -> StaticType -> StaticType -> option StaticType;
  isPrimitiveType : StaticType -> bool;
  isObjectType : StaticType -> bool;            (* [t instanceof ObjectType] *)
  typeToString : list InstanceType -> StaticType -> string;
  ByteArrayClass : string;
  lengthMethod : string;                        (* [ArrayType.lengthMethod] *)
  (* code-generator/c-runtime.ts *)
  actualElementType : StaticType -> StaticType;
  (* names.ts *)
  isFreeInfo : NameTable -> NameInfo -> bool;
  (* classes.ts *)
  instanceType : string -> StaticType -> InstanceType;
  instName : InstanceType -> string;
  superclass : InstanceType -> StaticType;
  extendsObject : InstanceType -> bool;
  leafType : InstanceType -> bool;
  setLeafType : bool -> InstanceType -> InstanceType;
  addProperty : string -> StaticType -> InstanceType -> bool * InstanceType;
  addMethod : string -> StaticType -> InstanceType -> option string * InstanceType;
  sortProperties : InstanceType -> InstanceType;
  declaredProperties : InstanceType -> Z;
  forEachName : InstanceType -> list string;
  findConstructor : list InstanceType -> InstanceType -> option (StaticType * list StaticType);
  findProperty : list InstanceType -> InstanceType -> string -> option (StaticType * Z);
  findMethod : list InstanceType -> InstanceType -> string -> option (StaticType * Z);
  unboxedProperties : InstanceType -> option Z
}.

(* ================================================================= *)
(** ** The AST *)

(** The node kinds of @babel/types that the checker has a method for.  Every
    node carries its identity [id]: the side table is keyed by it, and it
    stands for the source location in the error log. *)
Inductive ModuleExportName : Type :=
| ExportIdentifier (name : string)
| ExportStringLiteral (value : string).

Inductive ImportSpec : Type :=
| ImportSpecifier (id : nat) (imported : ModuleExportName)
| ImportDefaultSpecifier (id : nat)
| ImportNamespaceSpecifier (id : nat).

Definition specId (s : ImportSpec) : nat :=
  match s with
  | ImportSpecifier i _ | ImportDefaultSpecifier i | ImportNamespaceSpecifier i => i
  end.

Inductive Node : Type :=
| File (id : nat) (program : Node)
| Program (id : nat) (body : list Node)
| ImportDeclaration (id : nat) (importKind : option string) (source : string)
    (specifiers : list ImportSpec)
| ExportNamedDeclaration (id : nat) (declaration : option Node)
| NullLiteral (id : nat)
| StringLiteral (id : nat) (value : string)
| BooleanLiteral (id : nat) (value : bool)
| NumericLiteral (id : nat) (raw : option string)
| Identifier (id : nat) (name : string) (typeAnnotation : option Node)
| WhileStatement (id : nat) (test body : Node)
| IfStatement (id : nat) (test consequent : Node) (alternate : option Node)
| ForStatement (id : nat) (init test update : option Node) (body : Node)
| ExpressionStatement (id : nat) (expression : Node)
| BlockStatement (id : nat) (directives : nat) (body : list Node)
| ReturnStatement (id : nat) (argument : option Node)
| EmptyStatement (id : nat)
| BreakStatement (id : nat) (label : bool)
| ContinueStatement (id : nat) (label : bool)
| ClassDeclaration (id : nat) (ident : option string) (superClass : option Node)
    (implements abstract : bool) (body : Node)
| ClassBody (id : nat) (body : list Node)
| ClassProperty (id : nat) (static abstract accessibility : bool) (key : Node)
    (value : bool) (typeAnnotation : option Node)
| ClassMethod (id : nat) (static abstract : bool) (methodKind : string) (key : Node)
    (params : list Node) (returnType : option Node) (body : Node)
    (generator async : bool)
| VariableDeclaration (id : nat) (declKind : string) (declarations : list Node)
| VariableDeclarator (id : nat) (lvalue : Node) (init : option Node)
| FunctionDeclaration (id : nat) (ident : option Node) (params : list Node)
    (returnType : option Node) (body : Node) (generator async : bool)
| ArrowFunctionExpression (id : nat) (params : list Node)
    (returnType : option Node) (body : Node) (generator async : bool)
| UnaryExpression (id : nat) (operator : string) (prefix : bool) (argument : Node)
| UpdateExpression (id : nat) (operator : string) (prefix : bool) (argument : Node)
| BinaryExpression (id : nat) (operator : string) (left right : Node)
| AssignmentExpression (id : nat) (operator : string) (left right : Node)
| LogicalExpression (id : nat) (operator : string) (left right : Node)
| ConditionalExpression (id : nat) (test consequent alternate : Node)
| CallExpression (id : nat) (callee : Node) (arguments : list Node)
| NewExpression (id : nat) (callee : Node) (typeParameters : option (list Node))
    (arguments : list Node)
| ThisExpression (id : nat)
| Super (id : nat)
| ArrayExpression (id : nat) (elements : list (option Node))
| MemberExpression (id : nat) (object property : Node) (computed : bool)
| TaggedTemplateExpression (id : nat) (tag : Node) (expressions quasis : nat)
| TSAsExpression (id : nat) (expression typeAnnotation : Node)
| TSTypeAnnotation (id : nat) (typeAnnotation : Node)
| TSTypeReference (id : nat) (typeName : Node) (typeParameters : bool)
| TSArrayType (id : nat) (elementType : Node)
| TSFunctionType (id : nat) (parameters : list Node) (typeAnnotation : option Node)
| TSNumberKeyword (id : nat)
| TSVoidKeyword (id : nat)
| TSBooleanKeyword (id : nat)
| TSStringKeyword (id : nat)
| TSObjectKeyword (id : nat)
| TSAnyKeyword (id : nat)
| TSNullKeyword (id : nat)
| TSUndefinedKeyword (id : nat)
| TSTypeAliasDeclaration (id : nat) (name : string)
| TSUnionType (id : nat) (types : list Node).

Definition nodeId (n : Node) : nat :=
  match n with
  | File i _ | Program i _ | ImportDeclaration i _ _ _ | ExportNamedDeclaration i _
  | NullLiteral i | StringLiteral i _ | BooleanLiteral i _ | NumericLiteral i _
  | Identifier i _ _ | WhileStatement i _ _ | IfStatement i _ _ _
  | ForStatement i _ _ _ _ | ExpressionStatement i _ | BlockStatement i _ _
  | ReturnStatement i _ | EmptyStatement i | BreakStatement i _
  | ContinueStatement i _ | ClassDeclaration i _ _ _ _ _ | ClassBody i _
  | ClassProperty i _ _ _ _ _ _ | ClassMethod i _ _ _ _ _ _ _ _ _
  | VariableDeclaration i _ _ | VariableDeclarator i _ _
  | FunctionDeclaration i _ _ _ _ _ _ | ArrowFunctionExpression i _ _ _ _ _
  | UnaryExpression i _ _ _ | UpdateExpression i _ _ _ | BinaryExpression i _ _ _
  | AssignmentExpression i _ _ _ | LogicalExpression i _ _ _
  | ConditionalExpression i _ _ _ | CallExpression i _ _ | NewExpression i _ _ _
  | ThisExpression i | Super i | ArrayExpression i _ | MemberExpression i _ _ _
  | TaggedTemplateExpression i _ _ _ | TSAsExpression i _ _ | TSTypeAnnotation i _
  | TSTypeReference i _ _ | TSArrayType i _ | TSFunctionType i _ _
  | TSNumberKeyword i | TSVoidKeyword i | TSBooleanKeyword i | TSStringKeyword i
  | TSObjectKeyword i | TSAnyKeyword i | TSNullKeyword i | TSUndefinedKeyword i
  | TSTypeAliasDeclaration i _ | TSUnionType i _ => i
  end.

(** [AST.isExpression(node)] on the node kinds above. *)
Definition isExpression (n : Node) : bool :=
  match n with
  | NullLiteral _ | StringLiteral _ _ | BooleanLiteral _ _ | NumericLiteral _ _
  | Identifier _ _ _ | ArrowFunctionExpression _ _ _ _ _ _
  | UnaryExpression _ _ _ _ | UpdateExpression _ _ _ _ | BinaryExpression _ _ _ _
  | AssignmentExpression _ _ _ _ | LogicalExpression _ _ _ _
  | ConditionalExpression _ _ _ _ | CallExpression _ _ _ | NewExpression _ _ _ _
  | ThisExpression _ | Super _ | ArrayExpression _ _ | MemberExpression _ _ _ _
  | TaggedTemplateExpression _ _ _ _ | TSAsExpression _ _ _ => true
  | _ => false
  end.

Definition isIdentifier (n : Node) : bool :=
  match n with Identifier _ _ _ => true | _ => false end.

Definition isMemberExpression (n : Node) : bool :=
  match n with MemberExpression _ _ _ _ => true | _ => false end.

Definition isTSTypeAnnotation (n : Node) : bool :=
  match n with TSTypeAnnotation _ _ => true | _ => false end.

(* ================================================================= *)
(** ** The checker state *)

(** The fields that [ConstructorChecker] adds to [TypeChecker].  [properties]
    is a plain JS object ([{}]) used as a map from property names to flags.
    It is the association list of its own keys here, in the order in which
    [for ... in] enumerates them: the order of their insertion (the keys are
    names of identifiers, so none of them is an array index, which would
    come first). *)
Record ConstructorState : Type := mkConstructorState {
  hasSuperCall : bool;
  toplevel : Z;
  properties : list (string * bool)
}.

(** The assignment to an own key: the key keeps its place if the object has
    it, and is added last otherwise. *)
Fixpoint setOwnProperty (name : string) (flag : bool) (props : list (string * bool))
    : list (string * bool) :=
  match props with
  | [] => [(name, flag)]
  | (k, v) :: rest =>
      if String.eqb k name then (k, flag) :: rest
      else (k, v) :: setOwnProperty name flag rest
  end.

(** [this.properties[name] = flag].  On a plain object the name [__proto__]
    is not an own key but the accessor that the object inherits from
    [Object.prototype]; its setter ignores a value that is neither an object
    nor [null], so the assignment of a boolean adds no key and changes
    nothing. *)
Definition propertiesSet (name : string) (flag : bool) (props : list (string * bool))
    : list (string * bool) :=
  if String.eqb name "__proto__" then props else setOwnProperty name flag props.

Section Checker.

Context `{External}.

(** The fields of a [TypeChecker] object, the side table of names.ts (static
    types, coercion flags and name tables attached to AST nodes) and the store
    of the class objects.  [constructorChecker] is [Some] when the object is a
    [ConstructorChecker]. *)
Record Checker : Type := mkChecker {
  importer : option (string -> ImporterOutcome);
  errorLog : ErrorLog;
  result : StaticType;
  firstPass : bool;
  inExport : bool;
  constructorChecker : option ConstructorState;
  staticTypes : gmap nat StaticType;
  coercionFlags : gmap nat bool;
  nameTables : gmap nat NameTable;
  classes : list InstanceType
}.

Definition withErrorLog (l : ErrorLog) (c : Checker) : Checker :=
  mkChecker (importer c) l (result c) (firstPass c) (inExport c)
    (constructorChecker c) (staticTypes c) (coercionFlags c) (nameTables c) (classes c).

Definition withResult (t : StaticType) (c : Checker) : Checker :=
  mkChecker (importer c) (errorLog c) t (firstPass c) (inExport c)
    (constructorChecker c) (staticTypes c) (coercionFlags c) (nameTables c) (classes c).

Definition withFirstPass (b : bool) (c : Checker) : Checker :=
  mkChecker (importer c) (errorLog c) (result c) b (inExport c)
    (constructorChecker c) (staticTypes c) (coercionFlags c) (nameTables c) (classes c).

Definition withInExport (b : bool) (c : Checker) : Checker :=
  mkChecker (importer c) (errorLog c) (result c) (firstPass c) b
    (constructorChecker c) (staticTypes c) (coercionFlags c) (nameTables c) (classes c).

Definition withConstructorChecker (k : option ConstructorState) (c : Checker) : Checker :=
  mkChecker (importer c) (errorLog c) (result c) (firstPass c) (inExport c)
    k (staticTypes c) (coercionFlags c) (nameTables c) (classes c).

Definition withStaticTypes (m : gmap nat StaticType) (c : Checker) : Checker :=
  mkChecker (importer c) (errorLog c) (result c) (firstPass c) (inExport c)
    (constructorChecker c) m (coercionFlags c) (nameTables c) (classes c).

Definition withCoercionFlags (m : gmap nat bool) (c : Checker) : Checker :=
  mkChecker (importer c) (errorLog c) (result c) (firstPass c) (inExport c)
    (constructorChecker c) (staticTypes c) m (nameTables c) (classes c).

Definition withNameTables (m : gmap nat NameTable) (c : Checker) : Checker :=
  mkChecker (importer c) (errorLog c) (result c) (firstPass c) (inExport c)
    (constructorChecker c) (staticTypes c) (coercionFlags c) m (classes c).

Definition withClasses (l : list InstanceType) (c : Checker) : Checker :=
  mkChecker (importer c) (errorLog c) (result c) (firstPass c) (inExport c)
    (constructorChecker c) (staticTypes c) (coercionFlags c) (nameTables c) l.

(** A method either returns, with the state it leaves, or throws. *)
Inductive Res (A : Type) : Type :=
| Ok (a : A)
| Throw (e : Thrown).

Arguments Ok {A} a.
Arguments Throw {A} e.

Definition M (A : Type) : Type := Checker -> Res (A * Checker).

Definition ret {A} (a : A) : M A := fun st => Ok (a, st).

Definition bind {A B} (m : M A) (k : A -> M B) : M B :=
  fun st =>
    match m st with
    | Ok (a, st') => k a st'
    | Throw e => Throw e
    end.

Definition throw {A} (e : Thrown) : M A := fun _ => Throw e.

Definition get : M Checker := fun st => Ok (st, st).

Definition modify (f : Checker -> Checker) : M unit := fun st => Ok (tt, f st).

Notation "'let*' x ':=' m 'in' k" := (bind m (fun x => k))
  (at level 10, x pattern, m at level 100, k at level 200).
Notation "m ';;' k" := (bind m (fun _ => k))
  (at level 100, k at level 200, right associativity).

Definition getResult : M StaticType := fun st => Ok (result st, st).
Definition setResult (t : StaticType) : M unit := modify (withResult t).
Definition getFirstPass : M bool := fun st => Ok (firstPass st, st).

(** The calls into types.ts, on the class store of the moment. *)
Definition subtype (s t : StaticType) : M bool :=
  fun st => Ok (isSubtype (classes st) s t, st).
Definition consistent (s t : StaticType) : M bool :=
  fun st => Ok (isConsistent (classes st) s t, st).
Definition toString (t : StaticType) : M string :=
  fun st => Ok (typeToString (classes st) t, st).

(** [t instanceof InstanceType]: the class object behind the reference. *)
Definition getInstance (t : StaticType) : M (option (nat * InstanceType)) :=
  fun st =>
    match t with
    | InstanceT r =>
        match classes st !! r with
        | Some c => Ok (Some (r, c), st)
        | None => Ok (None, st)
        end
    | _ => Ok (None, st)
    end.

Definition setInstance (r : nat) (c : InstanceType) : M unit :=
  modify (fun st => withClasses (<[r := c]> (classes st)) st).

(** Modelled from the spec: [maker.instanceType(name, superClass)] of
    names.ts makes a new class object. *)
Definition makerInstanceType (name : string) (superClass : StaticType) : M nat :=
  fun st =>
    Ok (length (classes st),
        withClasses (classes st ++ [instanceType name superClass]) st).

(** *** The functions of names.ts on the side table *)

(** Modelled from the spec: [addStaticType(node, type)] of names.ts attaches
    the static type to the node. *)
Definition addStaticType (node : nat) (t : StaticType) : M unit :=
  modify (fun st => withStaticTypes (<[node := t]> (staticTypes st)) st).

(** Modelled from the spec: [getStaticType(node)] of names.ts. *)
Definition getStaticType (node : nat) : M (option StaticType) :=
  fun st => Ok (staticTypes st !! node, st).

(** Modelled from the spec: [addCoercionFlag(node, flag)] of names.ts. *)
Definition addCoercionFlag (node : nat) (flag : bool) : M unit :=
  modify (fun st => withCoercionFlags (<[node := flag]> (coercionFlags st)) st).

(** Modelled from the spec: [addNameTable(node, table)] of names.ts attaches
    the scope to the node. *)
Definition addNameTable (node : nat) (names : NameTable) : M unit :=
  modify (fun st => withNameTables (<[node := names]> (nameTables st)) st).

(** *** The helper methods of [TypeChecker] *)

Definition assert (test : bool) (msg : string) (node : nat) : M bool :=
  fun st =>
    if test then Ok (test, st)
    else Ok (test, withErrorLog (logPush msg node (errorLog st)) st).

Definition assertSyntax (test : bool) (node : nat) : M bool :=
  assert test "syntax error" node.

Definition assertVariable (node : Node) : M bool :=
  assert (isIdentifier node) "invalid variable name" (nodeId node).

Definition thisAddStaticType (expr : nat) (t : StaticType) : M unit :=
  let* fp := getFirstPass in
  if negb fp then addStaticType expr t else ret tt.

Definition addCoercion (expr : nat) (t : StaticType) : M unit :=
  let* fp := getFirstPass in
  if negb fp then addStaticType expr t ;; addCoercionFlag expr true else ret tt.

Definition addCoercionIfAny (expr : nat) (t : StaticType) : M unit :=
  let* fp := getFirstPass in
  if negb fp && (t === Any) then addCoercion expr t else ret tt.

Definition addCoercionForBoolean (expr : nat) (t : StaticType) : M unit :=
  let* fp := getFirstPass in
  if negb fp && negb (isPrimitiveType t) then addCoercion expr t else ret tt.

Definition isConsistentOnFirstPass (t1 t2 : StaticType) : M bool :=
  let* fp := getFirstPass in
  if fp then ret ((t1 === Any) && isArrayType t2 || isArrayType t1 && (t2 === Any))
  else ret false.

Definition assertLvalue (node : Node) (table : NameTable) : M unit :=
  match node with
  | Identifier id name _ =>
      match lookup name table with
      | Some info =>
          assert (negb (isConst info)) "assignment to constant variable" id ;;
          assert (negb (isFunction info)) "assignment to top-level function" id ;;
          ret tt
      | None => ret tt
      end
  | MemberExpression _ _ _ _ => ret tt
  | _ => assert false "invalid left-hand side in assignment" (nodeId node) ;; ret tt
  end.

Definition invalidOperandMessage (op : string) (t1 : StaticType) : M string :=
  let* t1name := toString t1 in
  ret ("invalid operand to " ^^ op ^^ " (" ^^ t1name ^^ ")").

Definition invalidOperandsMessage (op : string) (t1 t2 : StaticType) : M string :=
  let* t1name := toString t1 in
  let* t2name := toString t2 in
  ret ("invalid operands to " ^^ op ^^ " (" ^^ t1name ^^ " and " ^^ t2name ^^ ")").

(* ----------------------------------------------------------------- *)
(** *** Regular expressions of [numericLiteral] *)

Definition inRange (lo hi c : ascii) : bool :=
  (nat_of_ascii lo <=? nat_of_ascii c)%nat && (nat_of_ascii c <=? nat_of_ascii hi)%nat.

(** The character class [[0-9A-Fa-fXx]]. *)
Definition integerChar (c : ascii) : bool :=
  inRange "0" "9" c || inRange "A" "F" c || inRange "a" "f" c
  || Ascii.eqb c "X" || Ascii.eqb c "x".

(** The character class [[0-9.e+\-]]. *)
Definition floatChar (c : ascii) : bool :=
  inRange "0" "9" c || Ascii.eqb c "." || Ascii.eqb c "e"
  || Ascii.eqb c "+" || Ascii.eqb c "-".

(** [/^[C]+$/.test(s)]: [s] is not empty and all its characters are in the
    class. *)
Definition testAll (class : ascii -> bool) (s : string) : bool :=
  match s with
  | EmptyString => false
  | _ => forallb class (list_ascii_of_string s)
  end.

(** [RegExp.prototype.test] converts its argument to a string. *)
Definition rawText (raw : option string) : string :=
  match raw with Some s => s | None => "undefined" end.

(* ----------------------------------------------------------------- *)
(** *** Methods of [TypeChecker]: literals, identifiers, statements *)

(** The callback that stands for [this.visit]. *)
Definition Visitor : Type := Node -> NameTable -> M NameTable.

Fixpoint visitAll (visit : Visitor) (body : list Node) (names : NameTable)
    : M NameTable :=
  match body with
  | [] => ret names
  | child :: rest =>
      let* names1 := visit child names in
      visitAll visit rest names1
  end.

Definition visitOptional (visit : Visitor) (node : option Node) (names : NameTable)
    : M NameTable :=
  match node with
  | Some n => visit n names
  | None => ret names
  end.

(** [file]; [visitor.file] of visitor.ts, which is not part of the sources at
    hand, visits the program of the file. *)
Definition file (visit : Visitor) (program : Node) (names : NameTable) : M NameTable :=
  visit program names.

(** [program]; [visitor.program] of visitor.ts, which is not part of the
    sources at hand, visits the statements of the body in order.
    [addNameTable] attaches the table object itself; the entry of the side
    table is written here when the traversal of the scope ends, with the
    contents the object has by then. *)
Definition program (visit : Visitor) (id : nat) (body : list Node) (names : NameTable)
    : M NameTable :=
  let* names1 := visitAll visit body names in
  addNameTable id names1 ;;
  ret names1.

Definition callImporter (id : nat) (importKind : option string) (source : string)
    : M (option NameTable) :=
  if match importKind with Some k => String.eqb k "type" | None => false end
  then ret None
  else
    let* ok := assert (match importKind with Some k => String.eqb k "value" | None => false end)
                 "unsupported import declaration" id in
    if negb ok then ret None
    else
      let* st := get in
      match importer st with
      | None =>
          assert false "import declaration is not available" id ;;
          ret None
      | Some importerFn =>
          let sourceFile := source in
          match importerFn sourceFile with
          | Imported table => ret (Some table)
          | ImporterThrows (ThrownLog e) =>
              modify (fun st => withErrorLog (logAdd e sourceFile (errorLog st)) st) ;;
              ret None
          | ImporterThrows (ThrownString e) =>
              modify (fun st => withErrorLog (logPush e id (errorLog st)) st) ;;
              ret None
          | ImporterThrows e => throw e
          end
      end.

Definition importSpecifier (source : string) (imported : NameTable) (spec : ImportSpec)
    (env : NameTable) : M NameTable :=
  match spec with
  | ImportSpecifier sid (ExportIdentifier name) =>
      let info := lookup name imported in
      let sourceFile := source in
      match info with
      | None =>
          assert false ("'" ^^ name ^^ "' is not found in " ^^ sourceFile) sid ;;
          ret env
      | Some info =>
          assert (isExported info)
            ("'" ^^ name ^^ "' is declared but not exported in " ^^ sourceFile) sid ;;
          ret (importInfo name info env)
      end
  | _ =>
      assert false "unsupported import declaration" (specId spec) ;;
      ret env
  end.

Fixpoint importSpecifiers (source : string) (imported : NameTable)
    (specifiers : list ImportSpec) (env : NameTable) : M NameTable :=
  match specifiers with
  | [] => ret env
  | spec :: rest =>
      let* env1 := importSpecifier source imported spec env in
      importSpecifiers source imported rest env1
  end.

Definition importDeclaration (id : nat) (importKind : option string) (source : string)
    (specifiers : list ImportSpec) (env : NameTable) : M NameTable :=
  let* fp := getFirstPass in
  if negb fp then ret env
  else
    let* imported := callImporter id importKind source in
    match imported with
    | None => ret env
    | Some imported =>
        if negb (isGlobal env)
        then assert false "an import declaration must be at the top level" id ;; ret env
        else importSpecifiers source imported specifiers env
    end.

Definition nullLiteral (id : nat) (names : NameTable) : M NameTable :=
  setResult Null ;;
  let* r := getResult in
  thisAddStaticType id r ;;
  ret names.

Definition stringLiteral (id : nat) (names : NameTable) : M NameTable :=
  setResult StringT ;;
  let* r := getResult in
  thisAddStaticType id r ;;
  ret names.

Definition booleanLiteral (id : nat) (names : NameTable) : M NameTable :=
  setResult BooleanT ;;
  let* r := getResult in
  thisAddStaticType id r ;;
  ret names.

Definition numericLiteral (id : nat) (raw : option string) (names : NameTable)
    : M NameTable :=
  let literal := rawText raw in
  (if testAll integerChar literal then setResult Integer
   else if testAll floatChar literal then setResult Float
   else assert false "bad numeric literal" id ;; ret tt) ;;
  let* r := getResult in
  thisAddStaticType id r ;;
  ret names.

Definition identifier (id : nat) (name : string) (names : NameTable) : M NameTable :=
  if String.eqb name "undefined" then
    setResult Null ;;
    let* r := getResult in
    thisAddStaticType id r ;;
    ret names
  else
    let fallback :=
      setResult Any ;;
      let* r := getResult in
      thisAddStaticType id r ;;
      ret names in
    match lookup name names with
    | Some nameInfo =>
        let* ok := assert (negb (isTypeName nameInfo)) ("bad use of type name: " ^^ name) id in
        if ok then
          setResult (type nameInfo) ;;
          let* r := getResult in
          thisAddStaticType id r ;;
          ret names
        else fallback
    | None =>
        let* fp := getFirstPass in
        assert fp ("unknown name: " ^^ name) id ;;
        fallback
    end.

Definition whileStatement (visit : Visitor) (test body : Node) (names : NameTable)
    : M NameTable :=
  let* names1 := visit test names in
  let* r := getResult in
  addCoercionForBoolean (nodeId test) r ;;
  visit body names1.

Definition ifStatement (visit : Visitor) (test consequent : Node)
    (alternate : option Node) (names : NameTable) : M NameTable :=
  let* names1 := visit test names in
  let* r := getResult in
  addCoercionForBoolean (nodeId test) r ;;
  let* names2 := visit consequent names1 in
  match alternate with
  | Some alt => visit alt names2
  | None => ret names2
  end.

Definition forStatement (visit : Visitor) (id : nat) (init test update : option Node)
    (body : Node) (names : NameTable) : M NameTable :=
  let block_names := makerBlock names in
  let* block_names1 := visitOptional visit init block_names in
  let* block_names2 :=
    match test with
    | Some t =>
        let* b := visit t block_names1 in
        let* r := getResult in
        addCoercionForBoolean (nodeId t) r ;;
        ret b
    | None => ret block_names1
    end in
  let* block_names3 := visitOptional visit update block_names2 in
  let* block_names4 := visit body block_names3 in
  let* fp := getFirstPass in
  (if negb fp then addNameTable id block_names4 else ret tt) ;;
  ret (parentTable block_names4).

Definition expressionStatement (visit : Visitor) (expression : Node) (names : NameTable)
    : M NameTable :=
  visit expression names.

Definition blockStatement (visit : Visitor) (id : nat) (directives : nat)
    (body : list Node) (names : NameTable) : M NameTable :=
  assertSyntax (directives =? 0)%nat id ;;
  let block_names := makerBlock names in
  let* block_names1 := visitAll visit body block_names in
  let* fp := getFirstPass in
  (if negb fp then addNameTable id block_names1 else ret tt) ;;
  ret (parentTable block_names1).

Definition returnStatementArg (visit : Visitor) (id : nat) (argument : option Node)
    (names : NameTable) : M NameTable :=
  let rtype := returnType names in
  assert (match rtype with RNull => false | _ => true end)
    "return must be in a function body" id ;;
  match argument with
  | Some arg =>
      let* names1 := visit arg names in
      let* r := getResult in
      match rtype with
      | RNull | RUndefined => ret (setReturnType (Some r) names1)
      | RType rt =>
          let* c := consistent r rt in
          if c then addCoercion (nodeId arg) r ;; ret names1
          else
            let* sub := subtype r rt in
            let* rname := toString r in
            let* rtname := toString rt in
            assert sub ("Type '" ^^ rname ^^ "' does not match type '" ^^ rtname ^^ "'") id ;;
            ret names1
      end
  | None =>
      match rtype with
      | RNull | RUndefined => ret (setReturnType (Some Void) names)
      | RType rt =>
          assert (rt === Void) "a non-void function must return a value" id ;;
          ret names
      end
  end.

Definition returnStatement (visit : Visitor) (id : nat) (argument : option Node)
    (names : NameTable) : M NameTable :=
  returnStatementArg visit id argument names.

Definition emptyStatement (names : NameTable) : M NameTable := ret names.

Definition breakStatement (id : nat) (label : bool) (names : NameTable) : M NameTable :=
  assert (negb label) "labeled break is not supported" id ;;
  ret names.

Definition continueStatement (id : nat) (label : bool) (names : NameTable) : M NameTable :=
  assert (negb label) "labeled continue is not supported" id ;;
  ret names.

(* ----------------------------------------------------------------- *)
(** *** Methods of [TypeChecker]: variables and functions *)

(** A double quote, for the messages that contain one. *)
Definition dquote : string := String (ascii_of_nat 34) EmptyString.

(** [(node as AST.Identifier).name]; the field is undefined on the other
    node kinds, and an undefined key reads as the string below. *)
Definition identifierName (node : Node) : string :=
  match node with
  | Identifier _ name _ => name
  | _ => "undefined"
  end.

(** Runs on the parent of [env] a method that was given the parent table. *)
Definition inParent (f : NameTable -> M NameTable) (env : NameTable) : M NameTable :=
  match env with
  | s :: parent => let* parent1 := f parent in ret (s :: parent1)
  | [] => f []
  end.

Fixpoint functionParameters (visit : Visitor) (id : nat) (params : list Node)
    (names : NameTable) : M (list StaticType * NameTable) :=
  match params with
  | [] => ret ([], names)
  | param :: rest =>
      assert (isIdentifier param) "bad parameter name" id ;;
      let varName := identifierName param in
      let* (varType, names1) :=
        match param with
        | Identifier _ _ (Some typeAnno) =>
            assertSyntax (isTSTypeAnnotation typeAnno) (nodeId typeAnno) ;;
            let* names1 := visit typeAnno names in
            let* r := getResult in
            ret (r, names1)
        | _ => ret (Any, names)
        end in
      let '(success, names2) := record varName varType (fun i => i) names1 in
      assert success ("duplicated parameter name: " ^^ varName) id ;;
      let* (paramTypes, names3) := functionParameters visit id rest names2 in
      ret (varType :: paramTypes, names3)
  end.

Definition recordThis (isClassMethod : bool) (names funcEnv : NameTable) : NameTable :=
  if isClassMethod then
    match lookup "this" names with
    | Some info => snd (record "this" (type info) (fun i => i) funcEnv)
    | None => funcEnv
    end
  else funcEnv.

Definition functionDeclarationPass1 (visit : Visitor) (id : nat) (isClassMethod : bool)
    (generator async : bool) (params : list Node) (returnTypeAnno : option Node)
    (body : Node) (nodeIdent : option string) (names : NameTable) : M NameTable :=
  assert (negb generator) "generator functions are not supported" id ;;
  assert (negb async) "async functions are not supported" id ;;
  let funcEnv := recordThis isClassMethod names (makerFunction names) in
  let* (paramTypes, funcEnv1) := functionParameters visit id params funcEnv in
  let funcEnv2 := setReturnType None funcEnv1 in
  let* funcEnv3 :=
    match returnTypeAnno with
    | Some typeAnno =>
        assertSyntax (isTSTypeAnnotation typeAnno) (nodeId typeAnno) ;;
        let* env := inParent (visit typeAnno) funcEnv2 in
        let* r := getResult in
        ret (setReturnType (Some r) env)
    | None => ret funcEnv2
    end in
  let info :=
    match nodeIdent with
    | Some name => lookup name (parentTable funcEnv3)
    | None => None
    end in
  match nodeIdent with
  | Some name =>
      assert (match info with
              | None => true
              | Some i => isFreeInfo funcEnv3 i && negb (isConst i)
              end)
        ("function '" ^^ name ^^ "' has been already declared") id ;;
      ret tt
  | None => ret tt
  end ;;
  let* funcEnv4 :=
    match body with
    | BlockStatement _ _ _ => visit body funcEnv3
    | _ => returnStatementArg visit id (Some body) funcEnv3
    end in
  let rtype := match returnType funcEnv4 with RType t => t | _ => Void end in
  let ftype := FunctionT rtype paramTypes in
  addStaticType id ftype ;;
  match nodeIdent with
  | Some name =>
      match info with
      | None =>
          let* st := get in
          ret (snd (record name ftype
                      (fun i => mkInfo (type i) (isConst i) true (isTypeName i) (inExport st))
                      (parentTable funcEnv4)))
      | Some i =>
          let* sub := subtype ftype (type i) in
          assert sub ("function '" ^^ name ^^ "' is declared again with a different type") id ;;
          ret (parentTable funcEnv4)
      end
  | None => ret (parentTable funcEnv4)
  end.

Definition functionDeclarationPass2 (visit : Visitor) (id : nat) (isClassMethod : bool)
    (params : list Node) (body : Node) (names : NameTable) : M NameTable :=
  let funcEnv := recordThis isClassMethod names (makerFunction names) in
  let* (_, funcEnv1) := functionParameters visit id params funcEnv in
  let* ftype := getStaticType id in
  match ftype with
  | Some (FunctionT ftypeReturnType _) =>
      let funcEnv2 := setReturnType (Some ftypeReturnType) funcEnv1 in
      let* funcEnv3 := visit body funcEnv2 in
      addNameTable id funcEnv3 ;;
      ret (parentTable funcEnv3)
  | _ => throw (ThrownError "fatal: a function type is not recorded in pass 1")
  end.

Definition functionDeclaration (visit : Visitor) (id : nat) (ident : option Node)
    (params : list Node) (returnTypeAnno : option Node) (body : Node)
    (generator async : bool) (names : NameTable) : M NameTable :=
  assert (isGlobal names) "a nested function is not available" id ;;
  let* fp := getFirstPass in
  if fp then
    functionDeclarationPass1 visit id false generator async params returnTypeAnno body
      (option_map identifierName ident) names
  else functionDeclarationPass2 visit id false params body names.

Definition arrowFunctionExpression (visit : Visitor) (id : nat) (params : list Node)
    (returnTypeAnno : option Node) (body : Node) (generator async : bool)
    (names : NameTable) : M NameTable :=
  let* fp := getFirstPass in
  let* names1 :=
    if fp then
      functionDeclarationPass1 visit id false generator async params returnTypeAnno body
        None names
    else functionDeclarationPass2 visit id false params body names in
  let* ftype := getStaticType id in
  match ftype with
  | Some (FunctionT r ps) => setResult (FunctionT r ps) ;; ret names1
  | _ => throw (ThrownError "fatal: an arrow function type is not recorded")
  end.

Definition checkVariableDeclarator (visit : Visitor) (id : nat) (lvalue : Node)
    (init : option Node) (isConstDecl : bool) (names : NameTable) : M NameTable :=
  assertVariable lvalue ;;
  let varName := identifierName lvalue in
  let* fp := getFirstPass in
  let varType0 :=
    if negb fp then option_map type (lookupInThis varName names) else None in
  let alreadyDeclared := match varType0 with Some _ => true | None => false end in
  let* (varType1, names1) :=
    match varType0, lvalue with
    | None, Identifier _ _ (Some typeAnno) =>
        assertSyntax (isTSTypeAnnotation typeAnno) (nodeId typeAnno) ;;
        let* names1 := visit typeAnno names in
        let* r := getResult in
        ret (Some r, names1)
    | _, _ => ret (varType0, names)
    end in
  let* (varType2, names2) :=
    match init with
    | Some initNode =>
        let* names2 := visit initNode names1 in
        let* r := getResult in
        assert (negb (r === Void)) "void may not be an initial value" (nodeId initNode) ;;
        match varType1 with
        | None => ret (Some r, names2)
        | Some vt =>
            let* c := consistent r vt in
            if c then addCoercion (nodeId initNode) r ;; ret (varType1, names2)
            else
              let* sub := subtype r vt in
              let* rname := toString r in
              let* vtname := toString vt in
              assert sub ("Type '" ^^ rname ^^ "' is not assignable to type '"
                          ^^ vtname ^^ "'") id ;;
              ret (varType1, names2)
        end
    | None => ret (varType1, names1)
    end in
  let varType := match varType2 with Some t => t | None => Any end in
  if negb alreadyDeclared then
    let* st := get in
    let '(success, names3) :=
      record varName varType
        (fun i => mkInfo (type i) isConstDecl (isFunction i) (isTypeName i) (inExport st))
        names2 in
    assert success ("Identifier '" ^^ varName ^^ "' has already been declared") id ;;
    ret names3
  else ret names2.

Definition isConstFunctionDeclaration (visit : Visitor) (declKind : string)
    (declarations : list Node) (names : NameTable) : M (bool * NameTable) :=
  if String.eqb declKind "const" && isGlobal names then
    match declarations with
    | [VariableDeclarator _ declId (Some (ArrowFunctionExpression fid params rt body g a))] =>
        let* fp := getFirstPass in
        if fp then
          let* names1 :=
            functionDeclarationPass1 visit fid false g a params rt body
              (Some (identifierName declId)) names in
          ret (true,
               updateInfo (identifierName declId)
                 (fun i => mkInfo (type i) true (isFunction i) (isTypeName i) (isExported i))
                 names1)
        else
          let* names1 := functionDeclarationPass2 visit fid false params body names in
          ret (true, names1)
    | _ => ret (false, names)
    end
  else ret (false, names).

Fixpoint variableDeclarators (visit : Visitor) (isConstDecl : bool)
    (declarations : list Node) (names : NameTable) : M NameTable :=
  match declarations with
  | [] => ret names
  | decl :: rest =>
      let* names1 :=
        match decl with
        | VariableDeclarator id lvalue init =>
            checkVariableDeclarator visit id lvalue init isConstDecl names
        | _ =>
            (* the message ends with [decl.type] *)
            assert false "unsupported variable declarator" (nodeId decl) ;;
            ret names
        end in
      variableDeclarators visit isConstDecl rest names1
  end.

Definition variableDeclaration (visit : Visitor) (id : nat) (declKind : string)
    (declarations : list Node) (names : NameTable) : M NameTable :=
  let* (isFunc, names1) := isConstFunctionDeclaration visit declKind declarations names in
  if isFunc then ret names1
  else
    assert (String.eqb declKind "const" || String.eqb declKind "let")
      "only const and let are available" id ;;
    variableDeclarators visit (String.eqb declKind "const") declarations names1.

Definition variableDeclarator (names : NameTable) : M NameTable :=
  throw (ThrownError "cannot directly visit AST.VariableDeclarator").

(* ----------------------------------------------------------------- *)
(** *** Methods of [TypeChecker]: expressions *)

Definition opIn (op : string) (ops : list string) : bool :=
  existsb (String.eqb op) ops.

Definition unaryExpression (visit : Visitor) (id : nat) (op : string) (prefix : bool)
    (argument : Node) (names : NameTable) : M NameTable :=
  assert prefix "only prefixed unary operator is supported" id ;;
  let* names1 := visit argument names in
  let* r := getResult in
  addCoercionIfAny (nodeId argument) r ;;
  (if opIn op ["-"; "+"] then
     let* msg := invalidOperandMessage op r in
     assert (isNumeric r || (r === Any)) msg id ;; ret tt
   else if String.eqb op "!" then
     addCoercionForBoolean (nodeId argument) r ;;
     setResult BooleanT
   else if String.eqb op "~" then
     let* msg := invalidOperandMessage op r in
     assert ((r === Integer) || (r === Any)) msg id ;;
     setResult Integer
   else if String.eqb op "typeof" then
     addStaticType (nodeId argument) r ;;
     setResult StringT
   else
     assert false ("not supported operator " ^^ op) id ;; ret tt) ;;
  ret names1.

Definition updateExpression (visit : Visitor) (id : nat) (op : string)
    (argument : Node) (names : NameTable) : M NameTable :=
  assertLvalue argument names ;;
  let* names1 := visit argument names in
  let* r := getResult in
  let* msg := invalidOperandMessage op r in
  assert (isNumeric r || (r === Any)) msg id ;;
  addCoercion (nodeId argument) r ;;
  ret names1.

Definition instanceofExpression (visit : Visitor) (left right : Node)
    (names : NameTable) : M NameTable :=
  let* names1 := visit left names in
  let* leftType := getResult in
  (if isPrimitiveType leftType
   then assert false "primitive types cannot be used in instanceof" (nodeId left) ;; ret tt
   else ret tt) ;;
  match right with
  | Identifier rid typeName _ =>
      let info := lookup typeName names1 in
      let* instance :=
        match info with
        | Some i => if isTypeName i then getInstance (type i) else ret None
        | None => ret None
        end in
      let* t :=
        match instance with
        | Some (r, _) => ret (InstanceT r)
        | None =>
            if String.eqb typeName "string" then ret StringT
            else if String.eqb typeName "Array" then ret (ArrayT Any)
            else assert false ("invalid type name: " ^^ typeName) rid ;; ret Any
        end in
      thisAddStaticType rid t ;;
      setResult BooleanT ;;
      ret names1
  | _ =>
      assertSyntax false (nodeId right) ;;
      ret names1
  end.

Definition binaryExpression (visit : Visitor) (id : nat) (op : string)
    (left right : Node) (names : NameTable) : M NameTable :=
  if String.eqb op "instanceof" then instanceofExpression visit left right names
  else
    let* names1 := visit left names in
    let* left_type := getResult in
    let* names2 := visit right names1 in
    let* right_type := getResult in
    (if opIn op ["=="; "!="; "==="; "!=="] then
       (if (left_type === Any) || (right_type === Any) then
          addCoercion (nodeId left) left_type ;;
          addCoercion (nodeId right) right_type
        else if (left_type === BooleanT) || (right_type === BooleanT)
                || (left_type === StringT) || (right_type === StringT) then
          (if negb (left_type === right_type) then
             let typename :=
               if (left_type === BooleanT) || (right_type === BooleanT)
               then "boolean" else "string" in
             assert false ("a " ^^ typename ^^ " must be compared with a " ^^ typename) id ;;
             ret tt
           else ret tt) ;;
          addCoercion (nodeId left) left_type ;;
          addCoercion (nodeId right) right_type
        else
          let* sub1 := subtype left_type right_type in
          let* sub2 := subtype right_type left_type in
          let* msg := invalidOperandsMessage op left_type right_type in
          assert (sub1 || sub2) msg id ;; ret tt) ;;
       setResult BooleanT
     else if opIn op ["<"; "<="; ">"; ">="] then
       (if ((left_type === Any) || (right_type === Any))
           || ((left_type === StringT) && (right_type === StringT)) then
          addCoercion (nodeId left) left_type ;;
          addCoercion (nodeId right) right_type
        else
          let* msg := invalidOperandsMessage op left_type right_type in
          assert (isNumeric left_type && isNumeric right_type) msg id ;; ret tt) ;;
       setResult BooleanT
     else if opIn op ["+"; "-"; "*"; "/"; "**"] then
       let* msg := invalidOperandsMessage op left_type right_type in
       assert ((isNumeric left_type || (left_type === Any))
               && (isNumeric right_type || (right_type === Any))) msg id ;;
       if (left_type === Any) || (right_type === Any) then
         addCoercion (nodeId left) left_type ;;
         addCoercion (nodeId right) right_type ;;
         setResult Any
       else if (left_type === Float) || (right_type === Float) then
         (if String.eqb op "**" then thisAddStaticType id Float else ret tt) ;;
         setResult Float
       else
         (if String.eqb op "**" then thisAddStaticType id Integer else ret tt) ;;
         setResult Integer
     else if String.eqb op "%" then
       assert (((left_type === Integer) || (left_type === Any))
               && ((right_type === Integer) || (right_type === Any)))
         "invalid operands to %.  They must be integer or any" id ;;
       if (left_type === Any) || (right_type === Any) then
         addCoercion (nodeId left) left_type ;;
         addCoercion (nodeId right) right_type ;;
         setResult Any
       else setResult Integer
     else if opIn op ["|"; "^"; "&"; "<<"; ">>"; ">>>"] then
       let* msg := invalidOperandsMessage op left_type right_type in
       assert ((left_type === Integer) && (right_type === Integer)) msg id ;;
       setResult Integer
     else
       assert false ("not supported operator '" ^^ op ^^ "'") id ;;
       setResult BooleanT) ;;
    ret names2.

(** [checkMemberExpr] returns false when the expression is an array access
    but the array type is unknown, and when it is a property access and the
    property is unboxed. *)
Definition checkMemberExpr (visit : Visitor) (id : nat) (object property : Node)
    (computed : bool) (readonly : bool) (names : NameTable) : M (bool * NameTable) :=
  assert (isExpression object) "not supported object" (nodeId object) ;;
  if computed then
    assert (isExpression property) "a wrong index expression" (nodeId property) ;;
    let* names1 := visit property names in
    let* fp := getFirstPass in
    let* r := getResult in
    assert (fp || (r === Integer) || (r === Any))
      "an array index must be an integer" (nodeId property) ;;
    addCoercionIfAny (nodeId property) r ;;
    let* names2 := visit object names1 in
    let* r := getResult in
    thisAddStaticType (nodeId object) r ;;
    let* instance := getInstance r in
    match r, instance with
    | ArrayT elementType, _ =>
        setResult elementType ;;
        thisAddStaticType id elementType ;;
        ret (true, names2)
    | _, Some (_, clazz) =>
        if String.eqb (instName clazz) ByteArrayClass then
          thisAddStaticType (nodeId object) r ;;
          thisAddStaticType id Integer ;;
          setResult Integer ;;
          ret (true, names2)
        else
          assert (fp || (r === Any)) "an element access to a non-array" (nodeId object) ;;
          setResult Any ;;
          thisAddStaticType id Any ;;
          ret (negb fp, names2)
    | _, None =>
        assert (fp || (r === Any)) "an element access to a non-array" (nodeId object) ;;
        setResult Any ;;
        thisAddStaticType id Any ;;
        ret (negb fp, names2)
    end
  else
    match property with
    | Identifier pid propertyName _ =>
        let* names1 := visit object names in
        let* t := getResult in
        thisAddStaticType (nodeId object) t ;;
        let* fp := getFirstPass in
        let* st := get in
        let* instance := getInstance t in
        let unknown :=
          setResult Any ;;
          assert false ("unknown property name: " ^^ propertyName) pid ;;
          ret (true, names1) in
        match instance with
        | Some (_, clazz) =>
            match findProperty (classes st) clazz propertyName with
            | Some (ptype, index) =>
                setResult ptype ;;
                ret (match unboxedProperties clazz with
                     | None => true
                     | Some unboxed => unboxed <=? index
                     end, names1)
            | None =>
                if String.eqb propertyName lengthMethod
                   && String.eqb (instName clazz) ByteArrayClass then
                  assert readonly "cannot change .length" pid ;;
                  setResult Integer ;;
                  ret (false, names1)
                else if fp then
                  setResult Any ;;
                  ret (true, names1)
                else unknown
            end
        | None =>
            if isArrayType t then
              if String.eqb propertyName lengthMethod then
                assert readonly "cannot change .length" pid ;;
                setResult Integer ;;
                ret (false, names1)
              else unknown
            else if t === Any then
              setResult Any ;;
              ret (true, names1)
            else unknown
        end
    | _ =>
        assert false "a wrong property name" (nodeId property) ;;
        ret (true, names)
    end.

Definition memberExpression (visit : Visitor) (id : nat) (object property : Node)
    (computed : bool) (names : NameTable) : M NameTable :=
  let* (_, names1) := checkMemberExpr visit id object property computed true names in
  ret names1.

(** [checkMethodExpr] returns true if the member expression is a method. *)
Definition checkMethodExpr (visit : Visitor) (object property : Node) (computed : bool)
    (names : NameTable) : M (bool * NameTable) :=
  if computed then ret (false, names)
  else
    match property with
    | Identifier _ propertyName _ =>
        let* names1 := visit object names in
        let* t := getResult in
        thisAddStaticType (nodeId object) t ;;
        let* st := get in
        let* instance := getInstance t in
        let notFound :=
          setResult Any ;;
          let* fp := getFirstPass in
          ret (fp, names1) in
        match instance with
        | Some (_, clazz) =>
            match findMethod (classes st) clazz propertyName with
            | Some (mtype, _) => setResult mtype ;; ret (true, names1)
            | None => notFound
            end
        | None =>
            if isArrayType t then ret (false, names1) else notFound
        end
    | _ => ret (false, names)
    end.

Definition memberAssignmentExpression (visit : Visitor) (id : nat) (op : string)
    (leftId : nat) (object property : Node) (computed : bool) (right : Node)
    (names : NameTable) : M NameTable :=
  assertLvalue (MemberExpression leftId object property computed) names ;;
  let* (checked, names1) :=
    checkMemberExpr visit leftId object property computed false names in
  if negb checked && computed then
    let* names2 := visit right names1 in
    setResult Any ;;
    ret names2
  else
    let* elementType := getResult in
    let* names2 := visit right names1 in
    let* rightType := getResult in
    let actualType :=
      if computed then actualElementType elementType
      else if checked then (if isPrimitiveType elementType then Any else elementType)
      else elementType in
    (if String.eqb op "=" then
       let* c := consistent rightType elementType in
       if c then
         addCoercion leftId actualType ;;
         addCoercion (nodeId right) rightType
       else
         let* sub := subtype rightType elementType in
         let* rname := toString rightType in
         let* ename := toString elementType in
         assert sub ("Type '" ^^ rname ^^ "' is not assignable to element type '"
                     ^^ ename ^^ "'") id ;;
         addCoercion leftId actualType ;;
         addCoercion (nodeId right) rightType
     else if opIn op ["+="; "-="; "*="; "/="] then
       let* msg := invalidOperandsMessage op elementType rightType in
       assert ((isNumeric elementType || (elementType === Any))
               && (isNumeric rightType || (rightType === Any))) msg id ;;
       addCoercion leftId actualType ;;
       addCoercion (nodeId right) rightType
     else
       assert false ("not supported operator '" ^^ op ^^ "'") id ;; ret tt) ;;
    setResult actualType ;;
    ret names2.

(* ----------------------------------------------------------------- *)
(** *** The methods that [ConstructorChecker] overrides *)

Definition modifyConstructorChecker (f : ConstructorState -> ConstructorState) : M unit :=
  modify (fun st => withConstructorChecker (option_map f (constructorChecker st)) st).

(** [this.toplevel++; super.method(node, names); this.toplevel--], the
    override of [whileStatement], [ifStatement], [forStatement],
    [blockStatement], [arrowFunctionExpression] and [conditionalExpression];
    on a plain [TypeChecker] the method itself. *)
Definition ConstructorChecker_nested {A} (method : M A) : M A :=
  let* st := get in
  match constructorChecker st with
  | None => method
  | Some _ =>
      modifyConstructorChecker
        (fun c => mkConstructorState (hasSuperCall c) (toplevel c + 1) (properties c)) ;;
      let* r := method in
      modifyConstructorChecker
        (fun c => mkConstructorState (hasSuperCall c) (toplevel c - 1) (properties c)) ;;
      ret r
  end.

(** [this.memberAssignmentExpression]: on a [ConstructorChecker] the override
    runs the method of [TypeChecker] and then marks the property assigned by
    a top-level [this.p = ...]. *)
Definition ConstructorChecker_memberAssignmentExpression (visit : Visitor) (id : nat)
    (op : string) (leftId : nat) (object property : Node) (computed : bool)
    (right : Node) (names : NameTable) : M NameTable :=
  let* names1 :=
    memberAssignmentExpression visit id op leftId object property computed right names in
  let* st := get in
  match constructorChecker st with
  | None => ret names1
  | Some c =>
      match object, property with
      | ThisExpression _, Identifier _ name _ =>
          if (toplevel c =? 1) && String.eqb op "=" && negb computed then
            modifyConstructorChecker
              (fun c => mkConstructorState (hasSuperCall c) (toplevel c)
                          (propertiesSet name true (properties c))) ;;
            ret names1
          else ret names1
      | _, _ => ret names1
      end
  end.

Definition assignmentExpression (visit : Visitor) (id : nat) (op : string)
    (left right : Node) (names : NameTable) : M NameTable :=
  match left with
  | MemberExpression leftId object property computed =>
      ConstructorChecker_memberAssignmentExpression visit id op leftId object property
        computed right names
  | _ =>
      assertLvalue left names ;;
      let* names1 := visit left names in
      let* left_type := getResult in
      let* names2 := visit right names1 in
      let* right_type := getResult in
      (if String.eqb op "=" then
         let* c := consistent right_type left_type in
         let* c1 := isConsistentOnFirstPass right_type left_type in
         if c || c1 then
           addCoercion (nodeId left) left_type ;;
           addCoercion (nodeId right) right_type
         else
           let* sub := subtype right_type left_type in
           let* rname := toString right_type in
           let* lname := toString left_type in
           assert sub ("Type '" ^^ rname ^^ "' is not assignable to type '"
                       ^^ lname ^^ "'") id ;;
           ret tt
       else if opIn op ["+="; "-="; "*="; "/="] then
         let* msg := invalidOperandsMessage op left_type right_type in
         assert ((isNumeric left_type || (left_type === Any))
                 && (isNumeric right_type || (right_type === Any))) msg id ;;
         if (left_type === Any) || (right_type === Any) then
           addCoercion (nodeId left) left_type ;;
           addCoercion (nodeId right) right_type
         else ret tt
       else if String.eqb op "%=" then
         assert (((left_type === Integer) || (left_type === Any))
                 && ((right_type === Integer) || (right_type === Any)))
           "invalid operands to %=.  They must be integer or any" id ;;
         if (left_type === Any) || (right_type === Any) then
           addCoercion (nodeId left) left_type ;;
           addCoercion (nodeId right) right_type
         else ret tt
       else if opIn op ["|="; "^="; "&="; "%="; "<<="; ">>="] then
         let* msg := invalidOperandsMessage op left_type right_type in
         assert ((left_type === Integer) && (right_type === Integer)) msg id ;;
         ret tt
       else
         assert false ("not supported operator '" ^^ op ^^ "'") id ;;
         ret tt) ;;
      setResult left_type ;;
      ret names2
  end.

Definition logicalExpression (visit : Visitor) (id : nat) (op : string)
    (left right : Node) (names : NameTable) : M NameTable :=
  let* names1 := visit left names in
  let* left_type := getResult in
  let* names2 := visit right names1 in
  let* right_type := getResult in
  (if opIn op ["||"; "&&"] then
     addCoercionForBoolean (nodeId left) left_type ;;
     addCoercionForBoolean (nodeId right) right_type ;;
     setResult BooleanT
   else
     assert false ("not supported operator '" ^^ op ^^ "'") id ;; ret tt) ;;
  ret names2.

Definition conditionalExpression (visit : Visitor) (id : nat)
    (test consequent alternate : Node) (names : NameTable) : M NameTable :=
  let* names1 := visit test names in
  let* r := getResult in
  addCoercionForBoolean (nodeId test) r ;;
  let* names2 := visit consequent names1 in
  let* then_type := getResult in
  let* names3 := visit alternate names2 in
  let* else_type := getResult in
  let* st := get in
  match commonSuperType (classes st) then_type else_type with
  | None =>
      assert false "no common super type" id ;;
      setResult then_type ;;
      ret names3
  | Some result_type =>
      setResult result_type ;;
      ret names3
  end.

Definition callExpressionArg (visit : Visitor) (arg : Node) (paramType : StaticType)
    (names : NameTable) : M NameTable :=
  let* names1 := visit arg names in
  let* argType := getResult in
  let* c := consistent argType paramType in
  let* c1 := isConsistentOnFirstPass argType paramType in
  if c || c1 then addCoercion (nodeId arg) argType ;; ret names1
  else
    let* sub := subtype argType paramType in
    let* aname := toString argType in
    let* pname := toString paramType in
    assert sub ("passing an incompatible argument (" ^^ aname ^^ " to " ^^ pname ^^ ")")
      (nodeId arg) ;;
    ret names1.

(** The loop over the arguments and the parameter types, which have the same
    length when the loop runs. *)
Fixpoint callExpressionArgs (visit : Visitor) (args : list Node)
    (paramTypes : list StaticType) (names : NameTable) : M NameTable :=
  match args, paramTypes with
  | arg :: args1, ptype :: paramTypes1 =>
      let* names1 := callExpressionArg visit arg ptype names in
      callExpressionArgs visit args1 paramTypes1 names1
  | _, _ => ret names
  end.

Definition checkArguments (visit : Visitor) (id : nat) (args : list Node)
    (paramTypes : list StaticType) (names : NameTable) : M NameTable :=
  if negb (length args =? length paramTypes)%nat then
    assert false "wrong number of arguments" id ;; ret names
  else callExpressionArgs visit args paramTypes names.

Definition superConstructorCall (visit : Visitor) (t : StaticType) (id calleeId : nat)
    (args : list Node) (names : NameTable) : M NameTable :=
  let* st := get in
  let* instance := getInstance t in
  match instance with
  | Some (_, clazz) =>
      let consType :=
        match findConstructor (classes st) clazz with
        | Some c => c
        | None => (Void, [])
        end in
      let* names1 := checkArguments visit id args (snd consType) names in
      thisAddStaticType calleeId (FunctionT (fst consType) (snd consType)) ;;
      setResult Void ;;
      ret names1
  | None =>
      assert false "fatal: bad super" id ;;
      ret names
  end.

(** [this.superConstructorCall]: the override of [ConstructorChecker] counts
    the call when it is at the top level of the constructor body. *)
Definition ConstructorChecker_superConstructorCall (visit : Visitor) (t : StaticType)
    (id calleeId : nat) (args : list Node) (names : NameTable) : M NameTable :=
  let* st := get in
  match constructorChecker st with
  | None => ret tt
  | Some c =>
      if toplevel c =? 1 then
        assert (negb (hasSuperCall c)) "cannot call super() here" id ;;
        modifyConstructorChecker
          (fun c => mkConstructorState true (toplevel c) (properties c))
      else ret tt
  end ;;
  superConstructorCall visit t id calleeId args names.

Definition callExpression (visit : Visitor) (id : nat) (callee : Node)
    (args : list Node) (names : NameTable) : M NameTable :=
  let* (isMethod, names1) :=
    match callee with
    | MemberExpression _ object property computed =>
        checkMethodExpr visit object property computed names
    | _ => ret (false, names)
    end in
  let* names2 := if isMethod then ret names1 else visit callee names1 in
  let* r := getResult in
  match callee, r with
  | Super _, _ =>
      ConstructorChecker_superConstructorCall visit r id (nodeId callee) args names2
  | _, FunctionT returnType paramTypes =>
      let* names3 := checkArguments visit id args paramTypes names2 in
      thisAddStaticType (nodeId callee) (FunctionT returnType paramTypes) ;;
      setResult returnType ;;
      ret names3
  | _, _ =>
      let* fp := getFirstPass in
      assert fp "the callee is not a function" (nodeId callee) ;;
      setResult Any ;;
      ret names2
  end.

Fixpoint visitTypes (visit : Visitor) (params : list Node) (names : NameTable)
    : M (list StaticType * NameTable) :=
  match params with
  | [] => ret ([], names)
  | e :: rest =>
      let* names1 := visit e names in
      let* r := getResult in
      let* (ts, names2) := visitTypes visit rest names1 in
      ret (r :: ts, names2)
  end.

Definition newArrayExpression (visit : Visitor) (id : nat)
    (typeParameters : option (list Node)) (args : list Node) (names : NameTable)
    : M NameTable :=
  let* (typeParams, names1) :=
    match typeParameters with
    | Some params =>
        let* (ts, names1) := visitTypes visit params names in
        ret (Some ts, names1)
    | None => ret (None, names)
    end in
  let* etype :=
    match typeParams with
    | Some ts =>
        let* ok := assert (length ts =? 1)%nat "wrong numberr of type parameters" id in
        if ok then ret (match ts with t :: _ => t | [] => Any end) else ret Any
    | None => ret Any
    end in
  let* ok :=
    assert ((length args =? 2)%nat
            || ((length args =? 1)%nat
                && ((etype === Integer) || (etype === Float)
                    || (etype === BooleanT) || (etype === Any))))
      "wrong number of arguments" id in
  let* names2 :=
    if ok then
      match args with
      | [arg0] => callExpressionArg visit arg0 Integer names1
      | [arg0; arg1] =>
          let* names2 := callExpressionArg visit arg0 Integer names1 in
          callExpressionArg visit arg1 etype names2
      | _ => ret names1
      end
    else ret names1 in
  let atype := ArrayT etype in
  thisAddStaticType id atype ;;
  setResult atype ;;
  ret names2.

Definition newObjectExpression (visit : Visitor) (id : nat) (args : list Node)
    (ref : nat) (clazz : InstanceType) (names : NameTable) : M NameTable :=
  let* st := get in
  let consType :=
    match findConstructor (classes st) clazz with
    | Some c => c
    | None => (Void, [])
    end in
  let* names1 := checkArguments visit id args (snd consType) names in
  thisAddStaticType id (InstanceT ref) ;;
  setResult (InstanceT ref) ;;
  ret names1.

Definition newExpression (visit : Visitor) (id : nat) (callee : Node)
    (typeParameters : option (list Node)) (args : list Node) (names : NameTable)
    : M NameTable :=
  let bad (name : string) :=
    assert false ("bad type name '" ^^ name ^^ "' for new") id ;;
    ret names in
  match callee with
  | Identifier _ className _ =>
      if String.eqb className "Array" then
        newArrayExpression visit id typeParameters args names
      else
        let* instance :=
          match lookup className names with
          | Some info => if isTypeName info then getInstance (type info) else ret None
          | None => ret None
          end in
        match instance with
        | Some (ref, clazz) => newObjectExpression visit id args ref clazz names
        | None => bad className
        end
  | _ => bad "?"
  end.

Definition thisExpression (id : nat) (names : NameTable) : M NameTable :=
  match lookup "this" names with
  | Some nameInfo =>
      let* instance := getInstance (type nameInfo) in
      assert (match instance with Some _ => true | None => false end)
        "the type of 'this' is broken" id ;;
      setResult (type nameInfo) ;;
      ret names
  | None =>
      let* fp := getFirstPass in
      assert fp "'this' is not available here" id ;;
      setResult Any ;;
      ret names
  end.

Definition superExpression (id : nat) (names : NameTable) : M NameTable :=
  let* instance :=
    match lookup "this" names with
    | Some nameInfo => getInstance (type nameInfo)
    | None => ret None
    end in
  match instance with
  | Some (_, clazz) =>
      setResult (superclass clazz) ;;
      ret names
  | None =>
      let* fp := getFirstPass in
      assert fp "'super' is not available here" id ;;
      setResult Any ;;
      ret names
  end.

Fixpoint arrayElements (visit : Visitor) (id : nat) (elements : list (option Node))
    (etype : option StaticType) (names : NameTable)
    : M (option StaticType * NameTable) :=
  match elements with
  | [] => ret (etype, names)
  | ele :: rest =>
      let unsupported :=
        assert false "unsupported array element" id ;;
        ret (etype, names) in
      let* (etype1, names1) :=
        match ele with
        | Some e =>
            if isExpression e then
              let* names1 := visit e names in
              let* r := getResult in
              thisAddStaticType (nodeId e) r ;;
              match etype with
              | None => ret (Some r, names1)
              | Some et =>
                  let* st := get in
                  match commonSuperType (classes st) et r with
                  | None => ret (Some Any, names1)
                  | Some t => ret (Some t, names1)
                  end
              end
            else unsupported
        | None => unsupported
        end in
      arrayElements visit id rest etype1 names1
  end.

Definition arrayExpression (visit : Visitor) (id : nat) (elements : list (option Node))
    (names : NameTable) : M NameTable :=
  let* (etype, names1) := arrayElements visit id elements None names in
  let atype := ArrayT (match etype with Some t => t | None => Any end) in
  thisAddStaticType id atype ;;
  setResult atype ;;
  ret names1.

Definition taggedTemplateExpression (id : nat) (tag : Node) (expressions quasis : nat)
    (names : NameTable) : M NameTable :=
  assert (match tag with Identifier _ name _ => String.eqb name "code" | _ => false end)
    "a tagged template is not supported" id ;;
  assert ((expressions =? 0)%nat && (quasis =? 1)%nat)
    "string interpolation is not supported" id ;;
  setResult Void ;;
  ret names.

Definition tsAsExpression (visit : Visitor) (id : nat) (expression typeAnnotation : Node)
    (names : NameTable) : M NameTable :=
  let* names1 := visit expression names in
  let* exprType := getResult in
  let* names2 := visit typeAnnotation names1 in
  let* asType := getResult in
  let* sub := subtype exprType asType in
  let* c := consistent exprType asType in
  let* sub1 := subtype asType exprType in
  (if negb sub && negb (isNumeric exprType && isNumeric asType) && negb c
      && negb (isObjectType asType && sub1)
   then
     let* msg := invalidOperandsMessage "as" exprType asType in
     assert false msg id ;; ret tt
   else ret tt) ;;
  thisAddStaticType (nodeId expression) exprType ;;
  thisAddStaticType id asType ;;
  setResult asType ;;
  ret names2.

(* ----------------------------------------------------------------- *)
(** *** Methods of [TypeChecker]: type annotations *)

Definition tsTypeAnnotation (visit : Visitor) (typeAnnotation : Node) (names : NameTable)
    : M NameTable :=
  visit typeAnnotation names.

Definition tsTypeReference (id : nat) (typeName : Node) (typeParameters : bool)
    (names : NameTable) : M NameTable :=
  assertSyntax (isIdentifier typeName) id ;;
  assertSyntax (negb typeParameters) id ;;
  let name := identifierName typeName in
  if String.eqb name FloatName then setResult Float ;; ret names
  else if String.eqb name IntegerName then setResult Integer ;; ret names
  else
    let nameInfo := lookup name names in
    let* ok := assert (match nameInfo with Some _ => true | None => false end)
                 ("unknown type name: " ^^ name) id in
    match nameInfo with
    | Some info =>
        let isType := isTypeName info in
        let* ok1 := assert isType ("not a type name: " ^^ name) id in
        if ok1 then setResult (type info) ;; ret names
        else setResult Any ;; ret names
    | None => setResult Any ;; ret names
    end.

Definition tsArrayType (visit : Visitor) (elementTypeNode : Node) (names : NameTable)
    : M NameTable :=
  let* names1 := visit elementTypeNode names in
  let* elementType := getResult in
  setResult (ArrayT elementType) ;;
  ret names1.

Fixpoint tsFunctionTypeParameters (visit : Visitor) (parameters : list Node)
    (names : NameTable) : M (list StaticType * NameTable) :=
  match parameters with
  | [] => ret ([], names)
  | e :: rest =>
      let* (t, names1) :=
        match e with
        | Identifier _ _ (Some typeAnnotation) =>
            let* names1 := visit typeAnnotation names in
            let* r := getResult in
            ret (r, names1)
        | _ => ret (Any, names)
        end in
      let* (ts, names2) := tsFunctionTypeParameters visit rest names1 in
      ret (t :: ts, names2)
  end.

Definition tsFunctionType (visit : Visitor) (parameters : list Node)
    (typeAnnotation : option Node) (names : NameTable) : M NameTable :=
  let* (params, names1) := tsFunctionTypeParameters visit parameters names in
  let* (ret_type, names2) :=
    match typeAnnotation with
    | Some anno =>
        let* names2 := visit anno names1 in
        let* r := getResult in
        ret (r, names2)
    | None => ret (Any, names1)
    end in
  setResult (FunctionT ret_type params) ;;
  ret names2.

Definition tsKeyword (t : StaticType) (names : NameTable) : M NameTable :=
  setResult t ;;
  ret names.

Definition tsNumberKeyword := tsKeyword Integer.
Definition tsVoidKeyword := tsKeyword Void.
Definition tsBooleanKeyword := tsKeyword BooleanT.
Definition tsStringKeyword := tsKeyword StringT.
Definition tsObjectKeyword := tsKeyword ObjectT.
Definition tsAnyKeyword := tsKeyword Any.
Definition tsNullKeyword := tsKeyword Null.
(** The null type and the undefined type are not distinguished. *)
Definition tsUndefinedKeyword := tsKeyword Null.

Definition tsTypeAliasDeclaration (id : nat) (name : string) (env : NameTable)
    : M NameTable :=
  assert (String.eqb name "integer" || String.eqb name "float")
    "type alias is not supported" id ;;
  ret env.

(** With fewer than two options [node.types[1]] (or already [node.types[0]])
    is undefined, and visiting it fails with a [TypeError], after the one
    option, if there is one, has been visited. *)
Definition tsUnionType (visit : Visitor) (id : nat) (types : list Node) (env : NameTable)
    : M NameTable :=
  assert (length types =? 2)%nat
    "only optional types are supported -- the number of options must be 2" id ;;
  match types with
  | type0 :: type1 :: _ =>
      let* env1 := visit type0 env in
      let* t1 := getResult in
      let* env2 := visit type1 env1 in
      let* t2 := getResult in
      assert ((t1 === Null) || (t2 === Null))
        "only optional types are supported -- at least one option must be undefined" id ;;
      assert (negb (t1 === Null) || negb (t2 === Null))
        "only optional types are supported -- at least one option must be a non-undefined type"
        id ;;
      let (t1, t2) := if t1 === Null then (t2, t1) else (t1, t2) in
      assert (negb (t1 === Any))
        "fail to construct an optional type -- any is already optional" id ;;
      let* t1name := toString t1 in
      assert (negb (isOptionalType t1))
        ("fail to construct an optional type -- " ^^ dquote ^^ t1name ^^ dquote
         ^^ " is already optional") id ;;
      setResult (OptionalT t1) ;;
      ret env2
  | [type0] =>
      visit type0 env ;;
      throw (ThrownError "TypeError: cannot visit undefined")
  | [] => throw (ThrownError "TypeError: cannot visit undefined")
  end.

Definition exportNamedDeclaration (visit : Visitor) (declaration : option Node)
    (env : NameTable) : M NameTable :=
  modify (withInExport true) ;;
  let* env1 := visitOptional visit declaration env in
  modify (withInExport false) ;;
  ret env1.

(* ----------------------------------------------------------------- *)
(** *** Classes and [ConstructorChecker] *)

(** [new ConstructorChecker(checker, clazz)]: a checker of its own, without
    importer, that shares the error log, the side table and the class store
    with [checker] and starts from its [result] and [firstPass]. *)
Definition newConstructorChecker (clazz : InstanceType) (checker : Checker) : Checker :=
  mkChecker None (errorLog checker) (result checker) (firstPass checker) false
    (Some (mkConstructorState false 0
             (fold_left (fun props name => propertiesSet name false props)
                (forEachName clazz) [])))
    (staticTypes checker) (coercionFlags checker) (nameTables checker) (classes checker).

(** Back in [checker] after the constructor checker [visitor] has run. *)
Definition afterConstructorChecker (checker visitor : Checker) : Checker :=
  mkChecker (importer checker) (errorLog visitor) (result checker) (firstPass checker)
    (inExport checker) (constructorChecker checker)
    (staticTypes visitor) (coercionFlags visitor) (nameTables visitor) (classes visitor).

Definition isValid (c : ConstructorState) (clazz : InstanceType) : option string :=
  let error :=
    if hasSuperCall c || extendsObject clazz then None
    else Some "super() is not called" in
  fold_left
    (fun error (p : string * bool) =>
       if negb (snd p) then Some ("uninitialized property: " ^^ fst p) else error)
    (properties c) error.

(** The constructor branch of [classMethod]: the constructor is visited by a
    new [ConstructorChecker], whose verdict is then asserted. *)
Definition checkConstructor (visit : Visitor) (id : nat) (ref : nat)
    (generator async : bool) (params : list Node) (returnTypeAnno : option Node)
    (body : Node) (names : NameTable) : M NameTable :=
  fun checker =>
    match classes checker !! ref with
    | None => Throw (ThrownError "TypeError: not an instance type")
    | Some clazz =>
        match functionDeclarationPass1 visit id true generator async params returnTypeAnno
                body None names (newConstructorChecker clazz checker) with
        | Throw e => Throw e
        | Ok (names1, visitor) =>
            let error :=
              match constructorChecker visitor, classes visitor !! ref with
              | Some c, Some clazz1 => isValid c clazz1
              | _, _ => None
              end in
            (assert (match error with None => true | Some _ => false end)
               (match error with Some e => e | None => "" end) id ;;
             ret names1) (afterConstructorChecker checker visitor)
        end
    end.

Definition classMethod (visit : Visitor) (id : nat) (static abstract : bool)
    (methodKind : string) (key : Node) (params : list Node) (returnTypeAnno : option Node)
    (body : Node) (generator async : bool) (names : NameTable) : M NameTable :=
  let* clazz := getResult in
  assert (negb static) "static method is not supported" id ;;
  assert (negb abstract) "abstract method is not supported" id ;;
  assert (String.eqb methodKind "constructor" || String.eqb methodKind "method")
    "getter/setter is not supported" id ;;
  let* fp := getFirstPass in
  if fp then
    match key with
    | Identifier _ keyName _ =>
        match clazz with
        | InstanceT ref =>
            let* names1 :=
              if String.eqb methodKind "constructor" then
                checkConstructor visit id ref generator async params returnTypeAnno body names
              else
                functionDeclarationPass1 visit id true generator async params returnTypeAnno
                  body None names in
            let* ftype := getStaticType id in
            match ftype with
            | Some (FunctionT ftypeReturnType ps) =>
                assert (negb (String.eqb methodKind "constructor") || (ftypeReturnType === Void))
                  "a constructor cannot return a value" id ;;
                let* instance := getInstance clazz in
                match instance with
                | Some (_, c) =>
                    let (error, c1) := addMethod keyName (FunctionT ftypeReturnType ps) c in
                    setInstance ref c1 ;;
                    match error with
                    | Some e => assert false e id ;; ret names1
                    | None => ret names1
                    end
                | None => throw (ThrownError "TypeError: not an instance type")
                end
            | _ => throw (ThrownError "fatal: a method type is not recorded")
            end
        | _ => throw (ThrownError "TypeError: not an instance type")
        end
    | _ =>
        assert false "bad method name" (nodeId key) ;;
        ret names
    end
  else functionDeclarationPass2 visit id true params body names.

Definition classProperty (visit : Visitor) (id : nat) (static abstract accessibility : bool)
    (key : Node) (value : bool) (typeAnnotation : option Node) (names : NameTable)
    : M NameTable :=
  let* fp := getFirstPass in
  if negb fp then ret names
  else
    let* clazz := getResult in
    assert (negb static) "static property is not supported" id ;;
    assert (negb abstract) "abstract property is not supported" id ;;
    assert (negb accessibility) "cannot specify accessibility" id ;;
    let* name :=
      match key with
      | Identifier _ keyName _ => ret keyName
      | _ => assert false "bad property name" (nodeId key) ;; ret "??"
      end in
    assert (negb value) "initial value is not supported" id ;;
    let* names1 :=
      match typeAnnotation with
      | Some anno => visit anno names
      | None => setResult Any ;; ret names
      end in
    let* r := getResult in
    let* instance := getInstance clazz in
    match instance with
    | Some (ref, c) =>
        let (success, c1) := addProperty name r c in
        setInstance ref c1 ;;
        assert success ("duplicate property name: " ^^ name) id ;;
        ret names1
    | None => throw (ThrownError "TypeError: not an instance type")
    end.

Fixpoint classBodyMembers (visit : Visitor) (clazz : StaticType) (body : list Node)
    (classBlock : NameTable) : M NameTable :=
  match body with
  | [] => ret classBlock
  | b :: rest =>
      setResult clazz ;;
      let* classBlock1 := visit b classBlock in
      classBodyMembers visit clazz rest classBlock1
  end.

Definition classBody (visit : Visitor) (body : list Node) (names : NameTable)
    : M NameTable :=
  let* clazz := getResult in
  let classBlock := snd (record "this" clazz (fun i => i) (makerBlock names)) in
  let* classBlock1 := classBodyMembers visit clazz body classBlock in
  ret (parentTable classBlock1).

Definition classDeclaration (visit : Visitor) (id : nat) (ident : option string)
    (superClassName : option Node) (implements abstract : bool) (body : Node)
    (names : NameTable) : M NameTable :=
  match ident with
  | None => assert false "class name must be given" id ;; ret names
  | Some className =>
      let* fp := getFirstPass in
      if negb fp then
        let* instance :=
          match lookup className names with
          | Some info => getInstance (type info)
          | None => ret None
          end in
        match instance with
        | Some (ref, _) =>
            let clazz := InstanceT ref in
            setResult clazz ;;
            let* names1 := visit body names in
            setResult clazz ;;
            ret (addClass className ref names1)
        | None => throw (ThrownError "fatal: a class was not recorded in the first phase.")
        end
      else
        assert (isGlobal names) "a class must be declared at top level" id ;;
        assert (negb implements) (dquote ^^ "implements" ^^ dquote ^^ " is not supported") id ;;
        assert (negb abstract) "abstract class is not supported" id ;;
        let* superClass :=
          match superClassName with
          | Some (Identifier _ superName _) =>
              let* instance :=
                match lookup superName names with
                | Some info => if isTypeName info then getInstance (type info) else ret None
                | None => ret None
                end in
              match instance with
              | Some (ref, c) =>
                  if negb (leafType c) then ret (InstanceT ref)
                  else assert false ("invalid super class: " ^^ superName) id ;; ret ObjectT
              | None => assert false ("invalid super class: " ^^ superName) id ;; ret ObjectT
              end
          | Some other => assertSyntax false (nodeId other) ;; ret ObjectT
          | None => ret ObjectT
          end in
        let* ref := makerInstanceType className superClass in
        let clazz := InstanceT ref in
        let* st := get in
        let (success, names1) :=
          record className clazz
            (fun i => mkInfo (type i) (isConst i) (isFunction i) true (inExport st)) names in
        assert success ("'" ^^ className ^^ "' class has already been declared") id ;;
        setResult clazz ;;
        let* names2 := visit body names1 in
        let* instance := getInstance clazz in
        match instance with
        | None => throw (ThrownError "TypeError: not an instance type")
        | Some (_, c) =>
            let c1 := sortProperties c in
            setInstance ref c1 ;;
            let* st := get in
            match findConstructor (classes st) c1 with
            | Some _ => ret tt
            | None =>
                assert (declaredProperties c1 =? 0) "a constructor is missing" id ;;
                let* superInstance := getInstance superClass in
                match superInstance with
                | Some (_, sc) =>
                    assert (match findConstructor (classes st) sc with
                            | None => true
                            | Some consType => (length (snd consType) =? 0)%nat
                            end) "a constructor is missing" id ;;
                    ret tt
                | None => ret tt
                end
            end ;;
            setResult clazz ;;
            ret names2
        end
  end.

Definition addBuiltinTypes (id : nat) (names : NameTable) : M NameTable :=
  let* ref := makerInstanceType ByteArrayClass ObjectT in
  let* instance := getInstance (InstanceT ref) in
  match instance with
  | None => throw (ThrownError "TypeError: not an instance type")
  | Some (_, clazz) =>
      let clazz1 := snd (addMethod "constructor" (FunctionT Void [Integer; Integer]) clazz) in
      setInstance ref (setLeafType true clazz1) ;;
      let (success, names1) :=
        record ByteArrayClass (InstanceT ref)
          (fun i => mkInfo (type i) (isConst i) (isFunction i) true true) names in
      assert success ("internal error: cannot record " ^^ ByteArrayClass ^^ " class") id ;;
      ret (addClass ByteArrayClass ref names1)
  end.

(* ----------------------------------------------------------------- *)
(** *** [visit]: the dispatch on the node kind *)

(** [this.visit(node, names)].  The six methods that [ConstructorChecker]
    overrides to count the nesting depth go through
    [ConstructorChecker_nested]. *)
Fixpoint visit (node : Node) {struct node} : NameTable -> M NameTable :=
  match node with
  | File _ p => file visit p
  | Program id body => program visit id body
  | ImportDeclaration id importKind source specifiers =>
      importDeclaration id importKind source specifiers
  | ExportNamedDeclaration _ declaration => exportNamedDeclaration visit declaration
  | NullLiteral id => nullLiteral id
  | StringLiteral id _ => stringLiteral id
  | BooleanLiteral id _ => booleanLiteral id
  | NumericLiteral id raw => numericLiteral id raw
  | Identifier id name _ => identifier id name
  | WhileStatement _ test body =>
      fun names => ConstructorChecker_nested (whileStatement visit test body names)
  | IfStatement _ test consequent alternate =>
      fun names => ConstructorChecker_nested (ifStatement visit test consequent alternate names)
  | ForStatement id init test update body =>
      fun names => ConstructorChecker_nested (forStatement visit id init test update body names)
  | ExpressionStatement _ expression => expressionStatement visit expression
  | BlockStatement id directives body =>
      fun names => ConstructorChecker_nested (blockStatement visit id directives body names)
  | ReturnStatement id argument => returnStatement visit id argument
  | EmptyStatement _ => emptyStatement
  | BreakStatement id label => breakStatement id label
  | ContinueStatement id label => continueStatement id label
  | ClassDeclaration id ident superClass implements abstract body =>
      classDeclaration visit id ident superClass implements abstract body
  | ClassBody _ body => classBody visit body
  | ClassProperty id static abstract accessibility key value typeAnnotation =>
      classProperty visit id static abstract accessibility key value typeAnnotation
  | ClassMethod id static abstract methodKind key params returnTypeAnno body generator async =>
      classMethod visit id static abstract methodKind key params returnTypeAnno body
        generator async
  | VariableDeclaration id declKind declarations =>
      variableDeclaration visit id declKind declarations
  | VariableDeclarator _ _ _ => variableDeclarator
  | FunctionDeclaration id ident params returnTypeAnno body generator async =>
      functionDeclaration visit id ident params returnTypeAnno body generator async
  | ArrowFunctionExpression id params returnTypeAnno body generator async =>
      fun names =>
        ConstructorChecker_nested
          (arrowFunctionExpression visit id params returnTypeAnno body generator async names)
  | UnaryExpression id op prefix argument => unaryExpression visit id op prefix argument
  | UpdateExpression id op _ argument => updateExpression visit id op argument
  | BinaryExpression id op lhs rhs => binaryExpression visit id op lhs rhs
  | AssignmentExpression id op lhs rhs => assignmentExpression visit id op lhs rhs
  | LogicalExpression id op lhs rhs => logicalExpression visit id op lhs rhs
  | ConditionalExpression id test consequent alternate =>
      fun names =>
        ConstructorChecker_nested (conditionalExpression visit id test consequent alternate names)
  | CallExpression id callee args => callExpression visit id callee args
  | NewExpression id callee typeParameters args =>
      newExpression visit id callee typeParameters args
  | ThisExpression id => thisExpression id
  | Super id => superExpression id
  | ArrayExpression id elements => arrayExpression visit id elements
  | MemberExpression id object property computed =>
      memberExpression visit id object property computed
  | TaggedTemplateExpression id tag expressions quasis =>
      taggedTemplateExpression id tag expressions quasis
  | TSAsExpression id expression typeAnnotation =>
      tsAsExpression visit id expression typeAnnotation
  | TSTypeAnnotation _ typeAnnotation => tsTypeAnnotation visit typeAnnotation
  | TSTypeReference id typeName typeParameters => tsTypeReference id typeName typeParameters
  | TSArrayType _ elementType => tsArrayType visit elementType
  | TSFunctionType _ parameters typeAnnotation =>
      tsFunctionType visit parameters typeAnnotation
  | TSNumberKeyword _ => tsNumberKeyword
  | TSVoidKeyword _ => tsVoidKeyword
  | TSBooleanKeyword _ => tsBooleanKeyword
  | TSStringKeyword _ => tsStringKeyword
  | TSObjectKeyword _ => tsObjectKeyword
  | TSAnyKeyword _ => tsAnyKeyword
  | TSNullKeyword _ => tsNullKeyword
  | TSUndefinedKeyword _ => tsUndefinedKeyword
  | TSTypeAliasDeclaration id name => tsTypeAliasDeclaration id name
  | TSUnionType id types => tsUnionType visit id types
  end.

(* ----------------------------------------------------------------- *)
(** *** The driver *)

(** [new TypeChecker(maker, importer)], on the side table and the class store
    of [world]. *)
Definition newTypeChecker (importerFn : option (string -> ImporterOutcome))
    (world : Checker) : Checker :=
  mkChecker importerFn [] Any true false None
    (staticTypes world) (coercionFlags world) (nameTables world) (classes world).

Definition throwIfError {A} (a : A) : M A :=
  fun st => if hasError (errorLog st) then Throw (ThrownLog (errorLog st)) else Ok (a, st).

Definition typecheck (ast : Node) (names : NameTable)
    (importerFn : option (string -> ImporterOutcome)) (world : Checker)
    : Res (NameTable * Checker) :=
  (let* names0 :=
     if negb (hasParent names) then addBuiltinTypes (nodeId ast) names else ret names in
   modify (withFirstPass true) ;;
   setResult Any ;;
   let* names1 := visit ast names0 in
   let* names1 := throwIfError names1 in
   modify (withFirstPass false) ;;
   setResult Any ;;
   let* names2 := visit ast names1 in
   throwIfError names2) (newTypeChecker importerFn world).

End Checker.

Arguments Ok {A} a.
Arguments Throw {A} e.

(* ================================================================= *)
(** ** The imported modules, as the specification describes them *)

(** Structural equality of types; on the primitive type names it is [===]. *)
Fixpoint typeEqb (a b : StaticType) {struct a} : bool :=
  match a, b with
  | Integer, Integer | Float, Float | BooleanT, BooleanT | StringT, StringT
  | Void, Void | Null, Null | Any, Any | ObjectT, ObjectT => true
  | InstanceT r1, InstanceT r2 => Nat.eqb r1 r2
  | FunctionT r1 ps1, FunctionT r2 ps2 =>
      typeEqb r1 r2
      && (fix all2 (l1 l2 : list StaticType) {struct l1} : bool :=
            match l1, l2 with
            | [], [] => true
            | x :: l1', y :: l2' => typeEqb x y && all2 l1' l2'
            | _, _ => false
            end) ps1 ps2
  | ArrayT e1, ArrayT e2 => typeEqb e1 e2
  | OptionalT e1, OptionalT e2 => typeEqb e1 e2
  | _, _ => false
  end.

(** Modelled from the spec: the class [InstanceType] of classes.ts, which is
    not part of the sources at hand.  An instance type carries its name, its
    superclass, an ordered property table, a method table, a leaf flag and
    the cut-off of the unboxed properties. *)
Record ClassObject : Type := mkClassObject {
  coName : string;
  coSuper : StaticType;
  coProperties : list (string * StaticType);
  coMethods : list (string * StaticType);
  coLeaf : bool;
  coUnboxed : option Z
}.

Fixpoint assocIndex {A} (name : string) (l : list (string * A)) (i : Z) : option (A * Z) :=
  match l with
  | [] => None
  | (k, v) :: rest => if String.eqb k name then Some (v, i) else assocIndex name rest (i + 1)
  end.

(** Modelled from the spec: the unboxed primitives, whose properties are
    placed at the low indices when a class is sealed. *)
Definition isUnboxedPrimitive (t : StaticType) : bool :=
  match t with Integer | Float | BooleanT => true | _ => false end.

(** Modelled from the spec: [isSubtype] of types.ts.  Reflexive; primitives
    only subtype themselves; instance types subtype along the superclass
    chain; function types are contravariant in the parameters and covariant
    in the return type; array types are invariant; [T] is a subtype of
    [optional T], whose value set is that of [T] and null.  The fuel bounds
    the walk along the superclass chain. *)
Fixpoint specSubtype (fuel : nat) (store : list ClassObject) (s t : StaticType) : bool :=
  typeEqb s t
  || match fuel with
     | O => false
     | S fuel' =>
         match s, t with
         | _, OptionalT e => typeEqb s e || (s === Null)
         | InstanceT r, (InstanceT _ | ObjectT) =>
             match store !! r with
             | Some c => specSubtype fuel' store (coSuper c) t
             | None => false
             end
         | FunctionT r1 ps1, FunctionT r2 ps2 =>
             (length ps1 =? length ps2)%nat
             && forallb (fun p => specSubtype fuel' store (snd p) (fst p)) (combine ps1 ps2)
             && specSubtype fuel' store r1 r2
         | _, _ => false
         end
     end.

(** Modelled from the spec: [isPrimitiveType] of types.ts, "true for the
    scalars enumerated". *)
Definition specIsPrimitiveType (t : StaticType) : bool :=
  match t with
  | Integer | Float | BooleanT | StringT | Void | Null | Any => true
  | _ => false
  end.

(** Modelled from the spec: [typeToString] of types.ts; the spec gives the
    names of the scalars only. *)
Definition specTypeToString (t : StaticType) : string :=
  match t with
  | Integer => "integer" | Float => "float" | BooleanT => "boolean"
  | StringT => "string" | Void => "void" | Null => "null" | Any => "any"
  | ObjectT => "object" | InstanceT _ => "class" | FunctionT _ _ => "function"
  | ArrayT _ => "array" | OptionalT _ => "optional"
  end.

(** Modelled from the spec: the functions of types.ts, classes.ts, names.ts
    and c-runtime.ts that are not part of the sources at hand, for running
    the checker on programs.
    - [isConsistent]: true whenever [any] is on either side, or the types are
      equal;
    - [commonSuperType]: the larger of two types related by subtyping, no
      answer for two unrelated scalars, [any] otherwise;
    - [actualElementType]: [any] for optional and object element types;
    - properties and methods are recorded under a duplicate-name guard;
      sealing a class places the unboxed properties first and counts them. *)
#[export] Instance specExternal : External := {|
  InstanceType := ClassObject;
  isSubtype store s t := specSubtype (S (length store)) store s t;
  isConsistent _ s t := (s === Any) || (t === Any) || typeEqb s t;
  commonSuperType store s t :=
    if specSubtype (S (length store)) store s t then Some t
    else if specSubtype (S (length store)) store t s then Some s
    else if specIsPrimitiveType s && specIsPrimitiveType t then None
    else Some Any;
  isPrimitiveType := specIsPrimitiveType;
  isObjectType t := match t with ObjectT | InstanceT _ => true | _ => false end;
  typeToString _ := specTypeToString;
  ByteArrayClass := "Uint8Array";
  lengthMethod := "length";
  actualElementType t :=
    match t with OptionalT _ | ObjectT | InstanceT _ => Any | _ => t end;
  isFreeInfo _ _ := true;
  instanceType name super := mkClassObject name super [] [] false None;
  instName := coName;
  superclass := coSuper;
  extendsObject c := match coSuper c with ObjectT => true | _ => false end;
  leafType := coLeaf;
  setLeafType b c :=
    mkClassObject (coName c) (coSuper c) (coProperties c) (coMethods c) b (coUnboxed c);
  addProperty name t c :=
    match assocIndex name (coProperties c) 0 with
    | Some _ => (false, c)
    | None =>
        (true, mkClassObject (coName c) (coSuper c) (coProperties c ++ [(name, t)])
                 (coMethods c) (coLeaf c) (coUnboxed c))
    end;
  addMethod name t c :=
    match assocIndex name (coMethods c) 0 with
    | Some _ => (Some ("duplicate method name: " ^^ name), c)
    | None =>
        (None, mkClassObject (coName c) (coSuper c) (coProperties c)
                 (coMethods c ++ [(name, t)]) (coLeaf c) (coUnboxed c))
    end;
  sortProperties c :=
    let unboxed := List.filter (fun p => isUnboxedPrimitive (snd p)) (coProperties c) in
    let boxed := List.filter (fun p => negb (isUnboxedPrimitive (snd p))) (coProperties c) in
    mkClassObject (coName c) (coSuper c) (unboxed ++ boxed) (coMethods c) (coLeaf c)
      (Some (Z.of_nat (length unboxed)));
  declaredProperties c := Z.of_nat (length (coProperties c));
  forEachName c := map fst (coProperties c);
  findConstructor _ c :=
    match assocIndex "constructor" (coMethods c) 0 with
    | Some (FunctionT r ps, _) => Some (r, ps)
    | _ => None
    end;
  findProperty _ c name := assocIndex name (coProperties c) 0;
  findMethod _ c name := assocIndex name (coMethods c) 0;
  unboxedProperties := coUnboxed
|}.

(** The state of the world before a first run of the checker: nothing in the
    side table, no class object. *)
Definition emptyWorld `{External} : Checker :=
  mkChecker None [] Any true false None ∅ ∅ ∅ [].

(* ================================================================= *)
(** ** The size of a node *)

Definition sizeL (sizeOf : Node -> nat) (l : list Node) : nat :=
  list_sum (map (fun n => S (sizeOf n)) l).

Definition sizeO (sizeOf : Node -> nat) (o : option Node) : nat :=
  match o with Some n => sizeOf n | None => 0%nat end.

Fixpoint size (n : Node) {struct n} : nat :=
  match n with
  | File _ p => S (size p)
  | Program _ body => S (sizeL size body)
  | ExportNamedDeclaration _ d => S (sizeO size d)
  | Identifier _ _ anno => S (sizeO size anno)
  | WhileStatement _ t b => S (size t + size b)
  | IfStatement _ t c a => S (size t + size c + sizeO size a)
  | ForStatement _ i t u b => S (sizeO size i + sizeO size t + sizeO size u + size b)
  | ExpressionStatement _ e => S (size e)
  | BlockStatement _ _ body => S (sizeL size body)
  | ReturnStatement _ a => S (sizeO size a)
  | ClassDeclaration _ _ sc _ _ body => S (sizeO size sc + size body)
  | ClassBody _ body => S (sizeL size body)
  | ClassProperty _ _ _ _ key _ anno => S (size key + sizeO size anno)
  | ClassMethod _ _ _ _ key params rt body _ _ =>
      S (size key + sizeL size params + sizeO size rt + size body)
  | VariableDeclaration _ _ ds => S (sizeL size ds)
  | VariableDeclarator _ lv init => S (size lv + sizeO size init)
  | FunctionDeclaration _ ident params rt body _ _ =>
      S (sizeO size ident + sizeL size params + sizeO size rt + size body)
  | ArrowFunctionExpression _ params rt body _ _ =>
      S (sizeL size params + sizeO size rt + size body)
  | UnaryExpression _ _ _ a | UpdateExpression _ _ _ a => S (size a)
  | BinaryExpression _ _ l r | AssignmentExpression _ _ l r
  | LogicalExpression _ _ l r => S (size l + size r)
  | ConditionalExpression _ t c a => S (size t + size c + size a)
  | CallExpression _ callee args => S (size callee + sizeL size args)
  | NewExpression _ callee tps args =>
      S (size callee + match tps with Some l => sizeL size l | None => 0 end
         + sizeL size args)%nat
  | ArrayExpression _ elements => S (list_sum (map (fun o => S (sizeO size o)) elements))
  | MemberExpression _ o p _ => S (size o + size p)
  | TaggedTemplateExpression _ tag _ _ => S (size tag)
  | TSAsExpression _ e t => S (size e + size t)
  | TSTypeAnnotation _ t => S (size t)
  | TSTypeReference _ tn _ => S (size tn)
  | TSArrayType _ e => S (size e)
  | TSFunctionType _ ps anno => S (sizeL size ps + sizeO size anno)
  | TSUnionType _ types => S (sizeL size types)
  | _ => 1%nat
  end.

(* ================================================================= *)
(** ** Definitions for the statements *)

(** A method that leaves [firstPass] as it found it. *)
Definition keepsPass `{External} {A} (m : M A) : Prop :=
  forall st a st', m st = Ok (a, st') -> firstPass st' = firstPass st.

(** *** Arithmetic operators *)

Definition arithmeticOperator (op : string) : bool :=
  opIn op ["+"; "-"; "*"; "/"; "**"].

Definition numericOrAny (t : StaticType) : bool := isNumeric t || (t === Any).

(** The result type: [any] if either operand is [any], otherwise [float] if
    at least one operand is [float], otherwise [integer]. *)
Definition arithmeticResult (left_type right_type : StaticType) : StaticType :=
  if (left_type === Any) || (right_type === Any) then Any
  else if (left_type === Float) || (right_type === Float) then Float
  else Integer.

(** *** Union types *)

(** A type that may stand beside [null] in a union: not [null], not [any],
    not an optional type. *)
Definition optionalElement (t : StaticType) : bool :=
  negb (t === Null) && negb (t === Any) && negb (isOptionalType t).

(** Exactly two options, exactly one of them [null], the other one fit to be
    the element of an optional type. *)
Definition unionAccepted (more : list Node) (t1 t2 : StaticType) : bool :=
  match more with [] => true | _ :: _ => false end
  && (((t1 === Null) && optionalElement t2) || ((t2 === Null) && optionalElement t1)).

Definition nonNullOption (t1 t2 : StaticType) : StaticType :=
  if t1 === Null then t2 else t1.

(** *** The verdict of the constructor validator *)





(** [this.properties[name]], where the object has the key [name]. *)
Fixpoint propertiesGet (name : string) (props : list (string * bool)) : option bool :=
  match props with
  | [] => None
  | (k, v) :: rest => if String.eqb k name then Some v else propertiesGet name rest
  end.





(** *** Assignment to a name *)

(** What [assertLvalue] lets pass without a diagnostic: a name that is neither
    a constant nor a top-level function, and a member expression. *)
Definition assignable (node : Node) (table : NameTable) : bool :=
  match node with
  | Identifier _ name _ =>
      match lookup name table with
      | Some info => negb (isConst info) && negb (isFunction info)
      | None => true
      end
  | MemberExpression _ _ _ _ => true
  | _ => false
  end.

(** *** What the importer throws *)

(** A thrown value that is neither an error log nor a string. *)
Definition otherThrown (e : Thrown) : bool :=
  match e with
  | ThrownLog _ | ThrownString _ => false
  | ThrownError _ | ThrownOther _ => true
  end.

(** *** Programs and states of the examples *)

Definition pass1World : Checker := @emptyWorld specExternal.

Definition pass2World : Checker := withFirstPass false pass1World.

(** A global scope with the given variables. *)
Definition globals (vars : list (string * StaticType)) : NameTable :=
  [mkScope GlobalTable (list_to_map (map (fun v => (fst v, makerInfo (snd v))) vars))
     None ∅].

Definition typeRef (id : nat) (name : string) : Node :=
  TSTypeReference id (Identifier (S id) name None) false.

(** [if (x != undefined) { x } else { x }] *)
Definition ifNotUndefined : Node :=
  IfStatement 0
    (BinaryExpression 1 "!=" (Identifier 2 "x" None) (Identifier 3 "undefined" None))
    (BlockStatement 4 0 [ExpressionStatement 5 (Identifier 6 "x" None)])
    (Some (BlockStatement 7 0 [ExpressionStatement 8 (Identifier 9 "x" None)])).

(** [while (x != undefined) { x }] *)
Definition whileNotUndefined : Node :=
  WhileStatement 0
    (BinaryExpression 1 "!=" (Identifier 2 "x" None) (Identifier 3 "undefined" None))
    (BlockStatement 4 0 [ExpressionStatement 5 (Identifier 6 "x" None)]).

(** The first function of the test "optional types are flow-sensitive":
    [const foo = (x: integer | undefined) =>
       { if (x != undefined) { const y: integer = x }
         else { const y: undefined = x } }] *)
Definition flowSensitiveTest : Node :=
  File 0 (Program 1
    [VariableDeclaration 2 "const"
       [VariableDeclarator 3 (Identifier 4 "foo" None)
          (Some (ArrowFunctionExpression 5
             [Identifier 6 "x"
                (Some (TSTypeAnnotation 7
                   (TSUnionType 8 [typeRef 9 "integer"; TSUndefinedKeyword 11])))]
             None
             (BlockStatement 12 0
                [IfStatement 13
                   (BinaryExpression 14 "!=" (Identifier 15 "x" None)
                      (Identifier 16 "undefined" None))
                   (BlockStatement 17 0
                      [VariableDeclaration 18 "const"
                         [VariableDeclarator 19
                            (Identifier 20 "y"
                               (Some (TSTypeAnnotation 21 (typeRef 22 "integer"))))
                            (Some (Identifier 24 "x" None))]])
                   (Some (BlockStatement 25 0
                      [VariableDeclaration 26 "const"
                         [VariableDeclarator 27
                            (Identifier 28 "y"
                               (Some (TSTypeAnnotation 29 (TSUndefinedKeyword 30))))
                            (Some (Identifier 31 "x" None))]]))])
             false false))]]).

(** [x = y] *)
Definition assignXY : Node :=
  AssignmentExpression 0 "=" (Identifier 1 "x" None) (Identifier 2 "y" None).

(** [a[0] = 1] *)
Definition assignElement : Node :=
  AssignmentExpression 0 "="
    (MemberExpression 1 (Identifier 2 "a" None) (NumericLiteral 3 (Some "0")) true)
    (NumericLiteral 4 (Some "1")).

(** [1 + 2.5] *)
Definition onePlusFloat : Node :=
  BinaryExpression 0 "+" (NumericLiteral 1 (Some "1")) (NumericLiteral 2 (Some "2.5")).

(** [integer | undefined] *)
Definition integerOrUndefined : Node :=
  TSUnionType 0 [typeRef 1 "integer"; TSUndefinedKeyword 3].

(** [class D {}] *)
Definition classD : Node := ClassDeclaration 100 (Some "D") None false false (ClassBody 101 []).

(** [class C extends D { members }] *)
Definition classC (members : list Node) : Node :=
  ClassDeclaration 110 (Some "C") (Some (Identifier 111 "D" None)) false false
    (ClassBody 112 members).

Definition property (id : nat) (name : string) : Node :=
  ClassProperty id false false false (Identifier (S id) name None) false
    (Some (TSTypeAnnotation (id + 2) (typeRef (id + 3) "integer"))).

(** [constructor() { statements }] *)
Definition constructorOf (statements : list Node) : Node :=
  ClassMethod 130 false false "constructor" (Identifier 131 "constructor" None) [] None
    (BlockStatement 132 0 statements) false false.

(** The statement [super()]. *)
Definition superCall (id : nat) : Node :=
  ExpressionStatement id (CallExpression (S id) (Super (id + 2)) []).



(** [class D {}  class C extends D { constructor() { super(); super() } }] *)
Definition duplicateSuperProgram : Node :=
  File 0 (Program 1 [classD; classC [constructorOf [superCall 143; superCall 150]]]).

(** [class D {}  class C extends D { constructor() { super() } }] *)
Definition singleSuperProgram : Node :=
  File 0 (Program 1 [classD; classC [constructorOf [superCall 143]]]).

(** [class E { members }] *)
Definition classE (members : list Node) : Node :=
  ClassDeclaration 110 (Some "E") None false false (ClassBody 112 members).

(** [class E { constructor() {}  p: integer }] *)
Definition latePropertyProgram : Node :=
  File 0 (Program 1 [classE [constructorOf []; property 113 "p"]]).

(** [class E { __proto__: integer; constructor() {} }] *)
Definition protoPropertyProgram : Node :=
  File 0 (Program 1 [classE [property 113 "__proto__"; constructorOf []]]).

(** [let x: | integer], a union with a leading [|] and one option. *)
Definition oneOptionUnionProgram : Node :=
  File 0 (Program 1
    [VariableDeclaration 2 "let"
       [VariableDeclarator 3
          (Identifier 4 "x" (Some (TSTypeAnnotation 5 (TSUnionType 6 [typeRef 7 "integer"]))))
          None]]).

(** [x = 1] *)
Definition assignXOne : Node :=
  AssignmentExpression 0 "=" (Identifier 1 "x" None) (NumericLiteral 2 (Some "1")).


(** [import { f } from "lib"] *)
Definition importF : Node :=
  ImportDeclaration 0 (Some "value") "lib" [ImportSpecifier 1 (ExportIdentifier "f")].

(** The name tables of the examples. *)
Definition xyNames : NameTable := globals [("x", Integer); ("y", Any)].
Definition optionalXNames : NameTable := globals [("x", OptionalT Integer)].
Definition arrayNames : NameTable := globals [("a", ArrayT Integer)].

(** An importer that does not find the file, and one that returns a table in
    which [f] is declared but not exported. *)
Definition missingFile : string -> ImporterOutcome :=
  fun _ => ImporterThrows (ThrownString "file not found").

Definition libTable : NameTable := globals [("f", Integer)].

Definition libImporter : string -> ImporterOutcome := fun _ => Imported libTable.

Definition importWorld (f : string -> ImporterOutcome) : Checker :=
  @mkChecker specExternal (Some f) [] Any true false None ∅ ∅ ∅ [].

(** The class objects of [class D {}] and of
    [class C extends D { p: integer; q: integer }], and the checker that is
    about to visit the constructor of [C]. *)
Definition classObjectD : ClassObject := mkClassObject "D" ObjectT [] [] false (Some 0).

Definition classObjectC : ClassObject :=
  mkClassObject "C" (InstanceT 0) [("p", Integer); ("q", Integer)] [] false None.

Definition validatorWorld : Checker :=
  @mkChecker specExternal None [] (InstanceT 1) true false None ∅ ∅ ∅
    [classObjectD; classObjectC].

(** A constructor checker that has seen a call of [super()] at the top
    level. *)
Definition afterFirstSuper : ConstructorState := mkConstructorState true 1 [].

Definition secondSuperWorld : Checker :=
  @mkChecker specExternal None [] Any true false (Some afterFirstSuper) ∅ ∅ ∅
    [classObjectD; classObjectC].

(** The log of a run of the driver that failed. *)
Definition thrownLog {A} (r : Res A) : option ErrorLog :=
  match r with
  | Throw (ThrownLog log) => Some log
  | _ => None
  end.

(* ================================================================= *)
(** ** Definitions for the properties of the whole traversal *)

(** A method that, run in pass [p], either returns, leaving a state related
    by [R] to the one it found and still in pass [p], or throws something that
    is neither an error log nor a string. *)
Definition preserves `{External} (R : Checker -> Checker -> Prop) (p : bool) {A}
    (m : M A) : Prop :=
  forall st, firstPass st = p ->
    match m st with
    | Ok (_, st') => R st st' /\ firstPass st' = p
    | Throw e => otherThrown e = true
    end.

(** *** Relations between the state a method finds and the state it leaves *)

(** The log is appended to: what was logged stays, in place. *)
Definition appendsToLog `{External} (st st' : Checker) : Prop :=
  exists l, errorLog st' = errorLog st ++ l.

(** In pass 1 the coercion flags are left alone. *)
Definition keepsFlagsInPass1 `{External} (st st' : Checker) : Prop :=
  firstPass st' = firstPass st /\
  (firstPass st = true -> coercionFlags st' = coercionFlags st).

(** In pass 2 the class objects are left alone. *)
Definition keepsClassesInPass2 `{External} (st st' : Checker) : Prop :=
  firstPass st' = firstPass st /\
  (firstPass st = false -> classes st' = classes st).

(** The nesting depth of the constructor checker is the same, and what it has
    recorded (the call of [super()], the properties assigned) is still
    recorded. *)
Definition keepsValidatorRecords (c c' : ConstructorState) : Prop :=
  toplevel c' = toplevel c /\
  (hasSuperCall c = true -> hasSuperCall c' = true) /\
  (forall name, propertiesGet name (properties c) = Some true ->
                propertiesGet name (properties c') = Some true).

Definition sameValidator `{External} (st st' : Checker) : Prop :=
  match constructorChecker st, constructorChecker st' with
  | Some c, Some c' => keepsValidatorRecords c c'
  | None, None => True
  | _, _ => False
  end.



(** No relation at all: for what a method throws. *)
Definition anyState `{External} (st st' : Checker) : Prop := True.

(** The side table keeps what is attached to the nodes: a node that has a
    static type or a name table still has one, and a coercion flag that is set
    stays set. *)
Definition keepsAnnotations `{External} (st st' : Checker) : Prop :=
  (forall n, is_Some (staticTypes st !! n) -> is_Some (staticTypes st' !! n)) /\
  (forall n, coercionFlags st !! n = Some true -> coercionFlags st' !! n = Some true) /\
  (forall n, is_Some (nameTables st !! n) -> is_Some (nameTables st' !! n)).

(** *** The other operators *)

(** The type of a unary expression, from the type of its operand. *)
Definition unaryResult (op : string) (t : StaticType) : StaticType :=
  if opIn op ["-"; "+"] then t
  else if String.eqb op "!" then BooleanT
  else if String.eqb op "~" then Integer
  else if String.eqb op "typeof" then StringT
  else t.

(** The operand types that a unary operator accepts; [void], [delete] and
    [throw] accept none. *)
Definition unaryAccepted (op : string) (t : StaticType) : bool :=
  if opIn op ["-"; "+"] then isNumeric t || (t === Any)
  else if String.eqb op "!" then true
  else if String.eqb op "~" then (t === Integer) || (t === Any)
  else String.eqb op "typeof".

Definition equalityOperator (op : string) : bool := opIn op ["=="; "!="; "==="; "!=="].

Definition relationalOperator (op : string) : bool := opIn op ["<"; "<="; ">"; ">="].

Definition bitwiseOperator (op : string) : bool :=
  opIn op ["|"; "^"; "&"; "<<"; ">>"; ">>>"].

Definition integerOrAny (t : StaticType) : bool := (t === Integer) || (t === Any).

Definition booleanOrString (t : StaticType) : bool := (t === BooleanT) || (t === StringT).

(** [AST.isSuper(node)] *)
Definition isSuper (n : Node) : bool :=
  match n with Super _ => true | _ => false end.

(** The element types for which [new Array<T>(n)] needs no initial value. *)
Definition hasDefaultElement (t : StaticType) : bool :=
  (t === Integer) || (t === Float) || (t === BooleanT) || (t === Any).

(** The type a declaration gives its variable, from the type of the
    annotation and the type of the initialiser, where there are any. *)
Definition declaredType (annotated initial : option StaticType) : StaticType :=
  match annotated, initial with
  | Some t, _ => t
  | None, Some t => t
  | None, None => Any
  end.

(** *** More programs and name tables of the examples *)

(** A global scope in which [x] is a constant of type [integer]. *)
Definition constantNames : NameTable :=
  [mkScope GlobalTable {[ "x" := mkInfo Integer true false false false ]} None ∅].

(** A global scope in which [f] is a function with one parameter. *)
Definition functionNames : NameTable := globals [("f", FunctionT Integer [Integer])].

(** The scope of a method of the class [C]. *)
Definition thisNames : NameTable := globals [("this", InstanceT 1)].

(** [this.p = 1] *)
Definition assignThisP : Node :=
  AssignmentExpression 0 "="
    (MemberExpression 1 (ThisExpression 2) (Identifier 3 "p" None) false)
    (NumericLiteral 4 (Some "1")).

(** [let x: integer = 1] *)
Definition letX : Node :=
  VariableDeclaration 0 "let"
    [VariableDeclarator 1
       (Identifier 2 "x" (Some (TSTypeAnnotation 3 (typeRef 4 "integer"))))
       (Some (NumericLiteral 6 (Some "1")))].

(* ================================================================= *)
(** ** The bytecode buffer builder *)

(** The class [BytecodeBufferBuilder].  It packs LOAD, JUMP and RESET commands
    into units of at most [unitSize] bytes for the transport to the device.

    A [Buffer] is the list of its bytes.  The numbers of the class (sizes,
    addresses, offsets) are integers and are modelled in [Z]. *)
Module BytecodeBufferBuilder.

Definition Buffer : Type := list Z.

Inductive BYTECODE : Type :=
| NONE | LOAD | JUMP | RESET
| RESULT_LOG | RESULT_ERROR | RESULT_MEMINFO | RESULT_EXECTIME | RESULT_PROFILE.

(** The value of a member of the enumeration. *)
Definition code (c : BYTECODE) : Z :=
  match c with
  | NONE => 0 | LOAD => 1 | JUMP => 2 | RESET => 3
  | RESULT_LOG => 4 | RESULT_ERROR => 5 | RESULT_MEMINFO => 6
  | RESULT_EXECTIME => 7 | RESULT_PROFILE => 8
  end.

Definition LOAD_HEADER_SIZE : Z := 9.

(** A call returns, throws a [RangeError], or is still running when the fuel
    of the model is used up. *)
Inductive Run (A : Type) : Type :=
| Done (a : A)
| RangeError
| OutOfFuel.

Arguments Done {A} a.
Arguments RangeError {A}.
Arguments OutOfFuel {A}.

(** The [byteLength] low bytes of [value], the least significant first. *)
Fixpoint bytesLE (byteLength : nat) (value : Z) : Buffer :=
  match byteLength with
  | O => []
  | S n => value mod 256 :: bytesLE n (value / 256)
  end.

(** [buf.writeUIntLE(value, offset, byteLength)]: a [RangeError] ([None])
    unless [value] is an unsigned integer of [byteLength] bytes and the bytes
    lie within the buffer. *)
Definition writeUIntLE (value offset : Z) (byteLength : nat) (buf : Buffer)
    : option Buffer :=
  if (0 <=? value) && (value <? 2 ^ (8 * Z.of_nat byteLength))
     && (0 <=? offset) && (offset + Z.of_nat byteLength <=? Z.of_nat (length buf))
  then Some (firstn (Z.to_nat offset) buf ++ bytesLE byteLength value
             ++ skipn (Z.to_nat offset + byteLength) buf)
  else None.

(** [Buffer.allocUnsafe(size)]: the contents are whatever the memory held;
    here zeroes.  Both headers are overwritten in full before they are used
    ([createLoadHeader_overwrites]). *)
Definition allocUnsafe (size : nat) : Buffer := repeat 0 size.

(** [ToInt32], which the bitwise operators of JavaScript apply to their
    operands. *)
Definition toInt32 (x : Z) : Z := (x + 2 ^ 31) mod 2 ^ 32 - 2 ^ 31.

(** An index of [subarray]: a negative one counts from the end; both are
    clamped to the buffer. *)
Definition clampIndex (len i : Z) : Z :=
  if i <? 0 then Z.max (len + i) 0 else Z.min i len.

(** [buf.subarray(start, end)]; [end] defaults to the length. *)
Definition subarray (start : Z) (end_ : option Z) (buf : Buffer) : Buffer :=
  let len := Z.of_nat (length buf) in
  let s := clampIndex len start in
  let e := match end_ with Some e => clampIndex len e | None => len end in
  firstn (Z.to_nat (e - s)) (skipn (Z.to_nat s) buf).

Record Builder : Type := mkBuilder {
  unitSize : Z;
  units : list Buffer;
  lastUnit : Buffer;
  lastUnitRemain : Z
}.

(** [new BytecodeBufferBuilder(unitSize)] *)
Definition constructor (unitSize : Z) : Builder :=
  mkBuilder unitSize [] [] unitSize.

Definition createLoadHeaderFrom (header : Buffer) (loadCmd address size : Z)
    : option Buffer :=
  match writeUIntLE loadCmd 0 1 header with
  | None => None
  | Some header1 =>
      match writeUIntLE address 1 4 header1 with
      | None => None
      | Some header2 => writeUIntLE size 5 4 header2
      end
  end.

Definition createLoadHeader (loadCmd address size : Z) : option Buffer :=
  createLoadHeaderFrom (allocUnsafe (Z.to_nat LOAD_HEADER_SIZE)) loadCmd address size.

(** The loop of [load]; [dataRemain], [offset] and [loadAddress] are its
    variables. *)
Fixpoint loadLoop (fuel : nat) (data : Buffer) (dataRemain offset loadAddress : Z)
    (this : Builder) : Run Builder :=
  match fuel with
  | O => OutOfFuel
  | S fuel' =>
      if LOAD_HEADER_SIZE + dataRemain <=? lastUnitRemain this then
        match createLoadHeader (code LOAD) loadAddress dataRemain with
        | None => RangeError
        | Some header =>
            let body := subarray offset None data in
            Done (mkBuilder (unitSize this) (units this)
                    (lastUnit this ++ header ++ body)
                    (lastUnitRemain this - (LOAD_HEADER_SIZE + dataRemain)))
        end
      else if LOAD_HEADER_SIZE <? lastUnitRemain this then
        (* [~0b11] is -4 *)
        let loadSize := Z.land (toInt32 (lastUnitRemain this - LOAD_HEADER_SIZE)) (-4) in
        match createLoadHeader (code LOAD) loadAddress loadSize with
        | None => RangeError
        | Some header =>
            let body := subarray offset (Some (offset + loadSize)) data in
            loadLoop fuel' data (dataRemain - loadSize) (offset + loadSize)
              (loadAddress + loadSize)
              (mkBuilder (unitSize this) (units this ++ [lastUnit this ++ header ++ body])
                 [] (unitSize this))
        end
      else
        loadLoop fuel' data dataRemain offset loadAddress
          (mkBuilder (unitSize this) (units this ++ [lastUnit this]) [] (unitSize this))
  end.

Definition load (fuel : nat) (address : Z) (data : Buffer) (this : Builder) : Run Builder :=
  loadLoop fuel data (Z.of_nat (length data)) 0 address this.

Definition jumpHeaderFrom (header : Buffer) (address : Z) : option Buffer :=
  match writeUIntLE (code JUMP) 0 1 header with
  | None => None
  | Some header1 => writeUIntLE address 1 4 header1
  end.

Definition jump (address : Z) (this : Builder) : Run Builder :=
  match jumpHeaderFrom (allocUnsafe 5) address with
  | None => RangeError
  | Some header =>
      if 5 <=? lastUnitRemain this then
        Done (mkBuilder (unitSize this) (units this) (lastUnit this ++ header)
                (lastUnitRemain this))
      else
        Done (mkBuilder (unitSize this) (units this ++ [lastUnit this]) header
                (lastUnitRemain this))
  end.

Definition reset (this : Builder) : Builder :=
  let header := [code RESET] in
  if 1 <=? lastUnitRemain this then
    mkBuilder (unitSize this) (units this) (lastUnit this ++ header) (lastUnitRemain this)
  else
    mkBuilder (unitSize this) (units this ++ [lastUnit this]) header (lastUnitRemain this).

(** [generate] returns the units and leaves the builder empty. *)
Definition generate (this : Builder) : list Buffer * Builder :=
  let result := units this ++ [lastUnit this] in
  (result, mkBuilder (unitSize this) [] [] (unitSize this)).

End BytecodeBufferBuilder.

(** *** Definitions for the statements on the builder *)

(** The number that a sequence of bytes denotes, the least significant byte
    first. *)
Fixpoint littleEndian (bytes : list Z) : Z :=
  match bytes with
  | [] => 0
  | b :: rest => b + 256 * littleEndian rest
  end.

Definition isByte (b : Z) : Prop := 0 <= b < 256.

Definition inRange32 (v : Z) : bool := (0 <=? v) && (v <? 2 ^ 32).

(** The variables of the loop of [load] point into the data: [offset] bytes
    are done, [dataRemain] bytes are left. *)
Definition loopState (data : list Z) (dataRemain offset : Z) : Prop :=
  0 <= offset /\ 0 <= dataRemain /\ offset + dataRemain = Z.of_nat (length data).

(** The room a builder says is left in its last unit is within the unit
    size, and the unit size is a 31-bit number. *)
Definition roomWithinUnit (b : BytecodeBufferBuilder.Builder) : Prop :=
  0 <= BytecodeBufferBuilder.lastUnitRemain b <= BytecodeBufferBuilder.unitSize b
  /\ BytecodeBufferBuilder.unitSize b < 2 ^ 31.

(** A LOAD command: the header and the bytes to load. *)
Definition loadCommand (chunk : Z * list Z) : list Z :=
  match BytecodeBufferBuilder.createLoadHeader
          (BytecodeBufferBuilder.code BytecodeBufferBuilder.LOAD)
          (fst chunk) (Z.of_nat (length (snd chunk))) with
  | Some header => header ++ snd chunk
  | None => []
  end.

(** The address and the length of the chunk fit into a header. *)
Definition hasHeader (chunk : Z * list Z) : Prop :=
  is_Some (BytecodeBufferBuilder.createLoadHeader
             (BytecodeBufferBuilder.code BytecodeBufferBuilder.LOAD)
             (fst chunk) (Z.of_nat (length (snd chunk)))).

(** The chunks lie one after the other in memory, from [address] on. *)
Fixpoint contiguous (address : Z) (chunks : list (Z * list Z)) : Prop :=
  match chunks with
  | [] => True
  | (a, body) :: rest =>
      a = address /\ contiguous (address + Z.of_nat (length body)) rest
  end.

(** All the bytes a builder holds, in order. *)
Definition contents (b : BytecodeBufferBuilder.Builder) : list Z :=
  concat (BytecodeBufferBuilder.units b ++ [BytecodeBufferBuilder.lastUnit b]).

(** No unit is longer than the unit size, and [lastUnitRemain] is the room
    left in the last unit. *)
Definition withinUnitSize (b : BytecodeBufferBuilder.Builder) : Prop :=
  Forall (fun u => Z.of_nat (length u) <= BytecodeBufferBuilder.unitSize b)
    (BytecodeBufferBuilder.units b) /\
  Z.of_nat (length (BytecodeBufferBuilder.lastUnit b))
    + BytecodeBufferBuilder.lastUnitRemain b = BytecodeBufferBuilder.unitSize b /\
  0 <= BytecodeBufferBuilder.lastUnitRemain b.

(** [n] calls of [jump]. *)
Fixpoint jumps (n : nat) (address : Z) (b : BytecodeBufferBuilder.Builder)
    : BytecodeBufferBuilder.Run BytecodeBufferBuilder.Builder :=
  match n with
  | O => BytecodeBufferBuilder.Done b
  | S n' =>
      match BytecodeBufferBuilder.jump address b with
      | BytecodeBufferBuilder.Done b1 => jumps n' address b1
      | r => r
      end
  end.

(* ================================================================= *)
(** ** The traversal does not change [firstPass] *)

Create HintDb keeps discriminated.

Section FirstPass.

Context `{External}.

Lemma keeps_ret {A} (a : A) : keepsPass (ret a).
Proof. intros st a' st' E. inversion E; subst; reflexivity. Qed.

Lemma keeps_throw {A} (e : Thrown) : keepsPass (@throw _ A e).
Proof. intros st a st' E. discriminate E. Qed.

Lemma keeps_bind {A B} (m : M A) (k : A -> M B) :
  keepsPass m -> (forall a, keepsPass (k a)) -> keepsPass (bind m k).
Proof.
  intros Hm Hk st b st' E. unfold bind in E.
  destruct (m st) as [[a st1]|e] eqn:Em; [|discriminate E].
  rewrite (Hk a _ _ _ E). exact (Hm _ _ _ Em).
Qed.

Lemma keeps_modify (f : Checker -> Checker) :
  (forall st, firstPass (f st) = firstPass st) -> keepsPass (modify f).
Proof. intros Hf st a st' E. inversion E; subst. apply Hf. Qed.

Lemma keeps_read {A} (f : Checker -> A) : keepsPass (fun st => Ok (f st, st)).
Proof. intros st a st' E. inversion E; subst; reflexivity. Qed.

Lemma keeps_get : keepsPass get.
Proof. apply (keeps_read (fun st => st)). Qed.

Lemma keeps_getResult : keepsPass getResult.
Proof. apply (keeps_read result). Qed.

Lemma keeps_getFirstPass : keepsPass getFirstPass.
Proof. apply (keeps_read firstPass). Qed.

Lemma keeps_subtype s t : keepsPass (subtype s t).
Proof. apply (keeps_read (fun st => isSubtype (classes st) s t)). Qed.

Lemma keeps_consistent s t : keepsPass (consistent s t).
Proof. apply (keeps_read (fun st => isConsistent (classes st) s t)). Qed.

Lemma keeps_toString t : keepsPass (toString t).
Proof. apply (keeps_read (fun st => typeToString (classes st) t)). Qed.

Lemma keeps_getStaticType n : keepsPass (getStaticType n).
Proof. apply (keeps_read (fun st => staticTypes st !! n)). Qed.

Lemma keeps_getInstance t : keepsPass (getInstance t).
Proof.
  intros st a st' E. unfold getInstance in E.
  destruct t; try (inversion E; subst; reflexivity).
  destruct (classes st !! ref); inversion E; subst; reflexivity.
Qed.

Lemma keeps_setResult t : keepsPass (setResult t).
Proof. apply keeps_modify. reflexivity. Qed.

Lemma keeps_setInstance r c : keepsPass (setInstance r c).
Proof. apply keeps_modify. reflexivity. Qed.

Lemma keeps_makerInstanceType n s : keepsPass (makerInstanceType n s).
Proof. intros st a st' E. inversion E; subst; reflexivity. Qed.

Lemma keeps_addStaticType n t : keepsPass (addStaticType n t).
Proof. apply keeps_modify. reflexivity. Qed.

Lemma keeps_addCoercionFlag n b : keepsPass (addCoercionFlag n b).
Proof. apply keeps_modify. reflexivity. Qed.

Lemma keeps_addNameTable n t : keepsPass (addNameTable n t).
Proof. apply keeps_modify. reflexivity. Qed.

Lemma keeps_modifyConstructorChecker f : keepsPass (modifyConstructorChecker f).
Proof. apply keeps_modify. reflexivity. Qed.

Lemma keeps_assert b msg n : keepsPass (assert b msg n).
Proof. intros st a st' E. unfold assert in E. destruct b; inversion E; subst; reflexivity. Qed.

#[local] Hint Resolve keeps_ret keeps_throw keeps_get keeps_getResult keeps_getFirstPass
  keeps_subtype keeps_consistent keeps_toString keeps_getStaticType keeps_getInstance
  keeps_setResult keeps_setInstance keeps_makerInstanceType keeps_addStaticType
  keeps_addCoercionFlag keeps_addNameTable keeps_modifyConstructorChecker keeps_assert
  : keeps.

(** One step of the proof that a method keeps the pass: a primitive of the
    monad, a sequence, or a case distinction of the method. *)
Ltac keeps_step :=
  match goal with
  | |- keepsPass (bind _ _) => apply keeps_bind; [| intros ?]
  | |- keepsPass (modify _) => apply keeps_modify; reflexivity
  | |- keepsPass (if ?c then _ else _) => destruct c
  | |- keepsPass (match ?x with _ => _ end) => destruct x
  | |- keepsPass (let (_, _) := ?x in _) => destruct x
  | |- keepsPass _ => solve [auto 1 with keeps]
  | |- keepsPass _ => progress cbv zeta
  end.

Ltac keeps := repeat keeps_step.

Lemma keeps_assertSyntax b n : keepsPass (assertSyntax b n).
Proof. unfold assertSyntax. keeps. Qed.

Lemma keeps_assertVariable n : keepsPass (assertVariable n).
Proof. unfold assertVariable. keeps. Qed.

Lemma keeps_thisAddStaticType n t : keepsPass (thisAddStaticType n t).
Proof. unfold thisAddStaticType. keeps. Qed.

Lemma keeps_addCoercion n t : keepsPass (addCoercion n t).
Proof. unfold addCoercion. keeps. Qed.

#[local] Hint Resolve keeps_assertSyntax keeps_assertVariable keeps_thisAddStaticType
  keeps_addCoercion : keeps.

Lemma keeps_addCoercionIfAny n t : keepsPass (addCoercionIfAny n t).
Proof. unfold addCoercionIfAny. keeps. Qed.

Lemma keeps_addCoercionForBoolean n t : keepsPass (addCoercionForBoolean n t).
Proof. unfold addCoercionForBoolean. keeps. Qed.

Lemma keeps_isConsistentOnFirstPass s t : keepsPass (isConsistentOnFirstPass s t).
Proof. unfold isConsistentOnFirstPass. keeps. Qed.

Lemma keeps_assertLvalue n t : keepsPass (assertLvalue n t).
Proof. unfold assertLvalue. keeps. Qed.

Lemma keeps_invalidOperandMessage op t : keepsPass (invalidOperandMessage op t).
Proof. unfold invalidOperandMessage. keeps. Qed.

Lemma keeps_invalidOperandsMessage op s t : keepsPass (invalidOperandsMessage op s t).
Proof. unfold invalidOperandsMessage. keeps. Qed.

#[local] Hint Resolve keeps_addCoercionIfAny keeps_addCoercionForBoolean
  keeps_isConsistentOnFirstPass keeps_assertLvalue keeps_invalidOperandMessage
  keeps_invalidOperandsMessage : keeps.

Lemma keeps_nested {A} (m : M A) : keepsPass m -> keepsPass (ConstructorChecker_nested m).
Proof. intros Hm. unfold ConstructorChecker_nested. keeps; exact Hm. Qed.

(** The methods keep the pass when [this.visit] does so on the nodes below
    the one at hand. *)
Section Methods.

Variable visit : Visitor.
Variable k : nat.
Hypothesis visit_keeps :
  forall n, (size n < k)%nat -> forall names, keepsPass (visit n names).

Ltac smaller :=
  simpl in *; unfold sizeL, sizeO in *; simpl in *; unfold sizeL, sizeO in *; lia.

Ltac keeps_visit :=
  repeat first
    [ keeps_step
    | match goal with
      | |- keepsPass (visit _ _) => apply visit_keeps; smaller
      end ].

Lemma keeps_visitAll body names :
  (sizeL size body < k)%nat -> keepsPass (visitAll visit body names).
Proof.
  revert names. induction body as [|n body IH]; intros names Hs; simpl.
  - keeps.
  - keeps_visit. apply IH. smaller.
Qed.

Lemma keeps_visitOptional o names :
  (sizeO size o < k)%nat -> keepsPass (visitOptional visit o names).
Proof. intros Hs. unfold visitOptional. destruct o; keeps_visit. Qed.

Lemma keeps_program id body names :
  (sizeL size body < k)%nat -> keepsPass (program visit id body names).
Proof. intros Hs. unfold program. keeps_visit. apply keeps_visitAll. exact Hs. Qed.

Lemma keeps_callImporter id importKind source : keepsPass (callImporter id importKind source).
Proof.
  unfold callImporter. keeps.
  all: try (intros st a st' E; inversion E; subst; reflexivity).
Qed.

Lemma keeps_importSpecifiers source imported specifiers env :
  keepsPass (importSpecifiers source imported specifiers env).
Proof.
  revert env. induction specifiers as [|spec rest IH]; intros env; simpl.
  - keeps.
  - apply keeps_bind; [unfold importSpecifier; keeps | intros; apply IH].
Qed.

Lemma keeps_importDeclaration id importKind source specifiers env :
  keepsPass (importDeclaration id importKind source specifiers env).
Proof.
  unfold importDeclaration. keeps.
  - apply keeps_callImporter.
  - apply keeps_importSpecifiers.
Qed.

Lemma keeps_whileStatement test body names :
  (size test + size body < k)%nat -> keepsPass (whileStatement visit test body names).
Proof. intros Hs. unfold whileStatement. keeps_visit. Qed.

Lemma keeps_ifStatement test consequent alternate names :
  (size test + size consequent + sizeO size alternate < k)%nat ->
  keepsPass (ifStatement visit test consequent alternate names).
Proof. intros Hs. unfold ifStatement. keeps_visit. Qed.

Lemma keeps_forStatement id init test update body names :
  (sizeO size init + sizeO size test + sizeO size update + size body < k)%nat ->
  keepsPass (forStatement visit id init test update body names).
Proof. intros Hs. unfold forStatement, visitOptional. keeps_visit. Qed.

Lemma keeps_blockStatement id directives body names :
  (sizeL size body < k)%nat -> keepsPass (blockStatement visit id directives body names).
Proof. intros Hs. unfold blockStatement. keeps_visit. apply keeps_visitAll. exact Hs. Qed.

Lemma keeps_returnStatementArg id argument names :
  (sizeO size argument < k)%nat -> keepsPass (returnStatementArg visit id argument names).
Proof. intros Hs. unfold returnStatementArg. keeps_visit. Qed.

Lemma keeps_functionParameters id params names :
  (sizeL size params < k)%nat -> keepsPass (functionParameters visit id params names).
Proof.
  revert names. induction params as [|p params IH]; intros names Hs; simpl.
  - keeps.
  - keeps_visit. all: apply IH; smaller.
Qed.

Lemma keeps_inParent (f : NameTable -> M NameTable) env :
  (forall names, keepsPass (f names)) -> keepsPass (inParent f env).
Proof. intros Hf. unfold inParent. keeps; apply Hf. Qed.

Lemma keeps_functionDeclarationPass1 id isClassMethod generator async params rt body
    nodeIdent names :
  (sizeL size params + sizeO size rt + size body < k)%nat ->
  keepsPass (functionDeclarationPass1 visit id isClassMethod generator async params rt body
               nodeIdent names).
Proof.
  intros Hs. unfold functionDeclarationPass1.
  apply keeps_bind; [keeps|intros _].
  apply keeps_bind; [keeps|intros _].
  apply keeps_bind; [apply keeps_functionParameters; smaller|intros [paramTypes funcEnv1]].
  apply keeps_bind.
  { destruct rt as [typeAnno|]; keeps. apply keeps_inParent. intros.
    apply visit_keeps. smaller. }
  intros funcEnv3.
  apply keeps_bind; [keeps|intros _].
  apply keeps_bind.
  { destruct body; try (apply keeps_returnStatementArg; smaller).
    apply visit_keeps. smaller. }
  intros funcEnv4. keeps.
Qed.

Lemma keeps_functionDeclarationPass2 id isClassMethod params body names :
  (sizeL size params + size body < k)%nat ->
  keepsPass (functionDeclarationPass2 visit id isClassMethod params body names).
Proof.
  intros Hs. unfold functionDeclarationPass2.
  apply keeps_bind; [apply keeps_functionParameters; smaller|intros [paramTypes funcEnv1]].
  keeps_visit.
Qed.

Ltac keeps_method :=
  repeat first
    [ keeps_step
    | match goal with
      | |- keepsPass (visit _ _) => apply visit_keeps; smaller
      | |- keepsPass (visitAll _ _ _) => apply keeps_visitAll; smaller
      | |- keepsPass (visitOptional _ _ _) => apply keeps_visitOptional; smaller
      | |- keepsPass (functionParameters _ _ _ _) => apply keeps_functionParameters; smaller
      | |- keepsPass (returnStatementArg _ _ _ _) => apply keeps_returnStatementArg; smaller
      | |- keepsPass (functionDeclarationPass1 _ _ _ _ _ _ _ _ _ _) =>
          apply keeps_functionDeclarationPass1; smaller
      | |- keepsPass (functionDeclarationPass2 _ _ _ _ _ _) =>
          apply keeps_functionDeclarationPass2; smaller
      end ].

Lemma keeps_functionDeclaration id ident params rt body generator async names :
  (sizeL size params + sizeO size rt + size body < k)%nat ->
  keepsPass (functionDeclaration visit id ident params rt body generator async names).
Proof. intros Hs. unfold functionDeclaration. keeps_method. Qed.

Lemma keeps_arrowFunctionExpression id params rt body generator async names :
  (sizeL size params + sizeO size rt + size body < k)%nat ->
  keepsPass (arrowFunctionExpression visit id params rt body generator async names).
Proof. intros Hs. unfold arrowFunctionExpression. keeps_method. Qed.

Lemma keeps_checkVariableDeclarator id lvalue init isConstDecl names :
  (size lvalue + sizeO size init < k)%nat ->
  keepsPass (checkVariableDeclarator visit id lvalue init isConstDecl names).
Proof. intros Hs. unfold checkVariableDeclarator. keeps_method. Qed.

Lemma keeps_isConstFunctionDeclaration declKind declarations names :
  (sizeL size declarations < k)%nat ->
  keepsPass (isConstFunctionDeclaration visit declKind declarations names).
Proof. intros Hs. unfold isConstFunctionDeclaration. keeps_method. Qed.

Lemma keeps_variableDeclarators isConstDecl declarations names :
  (sizeL size declarations < k)%nat ->
  keepsPass (variableDeclarators visit isConstDecl declarations names).
Proof.
  revert names. induction declarations as [|d ds IH]; intros names Hs; simpl.
  - keeps.
  - apply keeps_bind; [|intros; apply IH; smaller].
    destruct d; keeps. apply keeps_checkVariableDeclarator. smaller.
Qed.

Lemma keeps_variableDeclaration id declKind declarations names :
  (sizeL size declarations < k)%nat ->
  keepsPass (variableDeclaration visit id declKind declarations names).
Proof.
  intros Hs. unfold variableDeclaration.
  apply keeps_bind; [apply keeps_isConstFunctionDeclaration; exact Hs|intros [b n]].
  keeps. apply keeps_variableDeclarators. exact Hs.
Qed.

Lemma keeps_unaryExpression id op prefix argument names :
  (size argument < k)%nat ->
  keepsPass (unaryExpression visit id op prefix argument names).
Proof. intros Hs. unfold unaryExpression. keeps_method. Qed.

Lemma keeps_updateExpression id op argument names :
  (size argument < k)%nat ->
  keepsPass (updateExpression visit id op argument names).
Proof. intros Hs. unfold updateExpression. keeps_method. Qed.

Lemma keeps_instanceofExpression lhs rhs names :
  (size lhs + size rhs < k)%nat ->
  keepsPass (instanceofExpression visit lhs rhs names).
Proof. intros Hs. unfold instanceofExpression. keeps_method. Qed.

Lemma keeps_binaryExpression id op lhs rhs names :
  (size lhs + size rhs < k)%nat ->
  keepsPass (binaryExpression visit id op lhs rhs names).
Proof.
  intros Hs. unfold binaryExpression.
  destruct (String.eqb op "instanceof"); [apply keeps_instanceofExpression; exact Hs|].
  keeps_method.
Qed.

Lemma keeps_checkMemberExpr id object property computed readonly names :
  (size object + size property < k)%nat ->
  keepsPass (checkMemberExpr visit id object property computed readonly names).
Proof. intros Hs. unfold checkMemberExpr. keeps_method. Qed.

Lemma keeps_memberExpression id object property computed names :
  (size object + size property < k)%nat ->
  keepsPass (memberExpression visit id object property computed names).
Proof.
  intros Hs. unfold memberExpression.
  apply keeps_bind; [apply keeps_checkMemberExpr; exact Hs|intros [b n]]. keeps.
Qed.

Lemma keeps_checkMethodExpr object property computed names :
  (size object + size property < k)%nat ->
  keepsPass (checkMethodExpr visit object property computed names).
Proof. intros Hs. unfold checkMethodExpr. keeps_method. Qed.

Lemma keeps_memberAssignmentExpression id op leftId object property computed rhs names :
  (size object + size property + size rhs < k)%nat ->
  keepsPass (memberAssignmentExpression visit id op leftId object property computed rhs names).
Proof.
  intros Hs. unfold memberAssignmentExpression.
  apply keeps_bind; [keeps|intros _].
  apply keeps_bind; [apply keeps_checkMemberExpr; smaller|intros [checked names1]].
  keeps_method.
Qed.

Lemma keeps_ConstructorChecker_memberAssignmentExpression id op leftId object property
    computed rhs names :
  (size object + size property + size rhs < k)%nat ->
  keepsPass (ConstructorChecker_memberAssignmentExpression visit id op leftId object
               property computed rhs names).
Proof.
  intros Hs. unfold ConstructorChecker_memberAssignmentExpression.
  apply keeps_bind; [apply keeps_memberAssignmentExpression; exact Hs|intros names1].
  keeps.
Qed.

Lemma keeps_assignmentExpression id op lhs rhs names :
  (size lhs + size rhs < k)%nat ->
  keepsPass (assignmentExpression visit id op lhs rhs names).
Proof.
  intros Hs. unfold assignmentExpression.
  destruct lhs;
    try (apply keeps_ConstructorChecker_memberAssignmentExpression; smaller);
    keeps_method.
Qed.

Lemma keeps_logicalExpression id op lhs rhs names :
  (size lhs + size rhs < k)%nat ->
  keepsPass (logicalExpression visit id op lhs rhs names).
Proof. intros Hs. unfold logicalExpression. keeps_method. Qed.

Lemma keeps_conditionalExpression id test consequent alternate names :
  (size test + size consequent + size alternate < k)%nat ->
  keepsPass (conditionalExpression visit id test consequent alternate names).
Proof. intros Hs. unfold conditionalExpression. keeps_method. Qed.

Lemma keeps_callExpressionArg arg paramType names :
  (size arg < k)%nat -> keepsPass (callExpressionArg visit arg paramType names).
Proof. intros Hs. unfold callExpressionArg. keeps_method. Qed.

Lemma keeps_callExpressionArgs args paramTypes names :
  (sizeL size args < k)%nat -> keepsPass (callExpressionArgs visit args paramTypes names).
Proof.
  revert paramTypes names.
  induction args as [|a args IH]; intros paramTypes names Hs; simpl.
  - keeps.
  - destruct paramTypes; keeps.
    + apply keeps_callExpressionArg. smaller.
    + apply IH. smaller.
Qed.

Lemma keeps_checkArguments id args paramTypes names :
  (sizeL size args < k)%nat -> keepsPass (checkArguments visit id args paramTypes names).
Proof. intros Hs. unfold checkArguments. keeps. apply keeps_callExpressionArgs. exact Hs. Qed.

Lemma keeps_superConstructorCall t id calleeId args names :
  (sizeL size args < k)%nat ->
  keepsPass (superConstructorCall visit t id calleeId args names).
Proof.
  intros Hs. unfold superConstructorCall. keeps. apply keeps_checkArguments. exact Hs.
Qed.

Lemma keeps_ConstructorChecker_superConstructorCall t id calleeId args names :
  (sizeL size args < k)%nat ->
  keepsPass (ConstructorChecker_superConstructorCall visit t id calleeId args names).
Proof.
  intros Hs. unfold ConstructorChecker_superConstructorCall. keeps.
  apply keeps_superConstructorCall. exact Hs.
Qed.

Lemma keeps_callExpression id callee args names :
  (size callee + sizeL size args < k)%nat ->
  keepsPass (callExpression visit id callee args names).
Proof.
  intros Hs. unfold callExpression.
  apply keeps_bind.
  { destruct callee; keeps. apply keeps_checkMethodExpr. smaller. }
  intros [isMethod names1].
  apply keeps_bind; [keeps_method|intros names2].
  apply keeps_bind; [keeps|intros r].
  destruct callee;
    try (apply keeps_ConstructorChecker_superConstructorCall; smaller);
    destruct r; keeps; apply keeps_checkArguments; smaller.
Qed.

Lemma keeps_visitTypes params names :
  (sizeL size params < k)%nat -> keepsPass (visitTypes visit params names).
Proof.
  revert names. induction params as [|p params IH]; intros names Hs; simpl.
  - keeps.
  - keeps_method. apply IH. smaller.
Qed.

Lemma keeps_newArrayExpression id typeParameters args names :
  (match typeParameters with Some l => sizeL size l | None => 0 end
   + sizeL size args < k)%nat ->
  keepsPass (newArrayExpression visit id typeParameters args names).
Proof.
  intros Hs. unfold newArrayExpression.
  apply keeps_bind.
  { destruct typeParameters; keeps. apply keeps_visitTypes. smaller. }
  intros [typeParams names1].
  apply keeps_bind; [keeps|intros etype].
  apply keeps_bind; [keeps|intros ok].
  apply keeps_bind; [|intros; keeps].
  destruct ok; keeps; apply keeps_callExpressionArg; smaller.
Qed.

Lemma keeps_newExpression id callee typeParameters args names :
  (match typeParameters with Some l => sizeL size l | None => 0 end
   + sizeL size args < k)%nat ->
  keepsPass (newExpression visit id callee typeParameters args names).
Proof.
  intros Hs. unfold newExpression, newObjectExpression. keeps.
  - apply keeps_newArrayExpression. exact Hs.
  - apply keeps_checkArguments. smaller.
Qed.

Lemma keeps_arrayElements id elements etype names :
  (list_sum (map (fun o => S (sizeO size o)) elements) < k)%nat ->
  keepsPass (arrayElements visit id elements etype names).
Proof.
  revert etype names.
  induction elements as [|e elements IH]; intros etype names Hs; simpl.
  - keeps.
  - apply keeps_bind; [keeps_method|intros [etype1 names1]; apply IH; smaller].
Qed.

Lemma keeps_arrayExpression id elements names :
  (list_sum (map (fun o => S (sizeO size o)) elements) < k)%nat ->
  keepsPass (arrayExpression visit id elements names).
Proof.
  intros Hs. unfold arrayExpression.
  apply keeps_bind; [apply keeps_arrayElements; exact Hs|intros [etype names1]]. keeps.
Qed.

Lemma keeps_tsAsExpression id expression typeAnnotation names :
  (size expression + size typeAnnotation < k)%nat ->
  keepsPass (tsAsExpression visit id expression typeAnnotation names).
Proof. intros Hs. unfold tsAsExpression. keeps_method. Qed.

Lemma keeps_tsFunctionTypeParameters parameters names :
  (sizeL size parameters < k)%nat ->
  keepsPass (tsFunctionTypeParameters visit parameters names).
Proof.
  revert names. induction parameters as [|p ps IH]; intros names Hs; simpl.
  - keeps.
  - keeps_method. all: apply IH; smaller.
Qed.

Lemma keeps_tsFunctionType parameters typeAnnotation names :
  (sizeL size parameters + sizeO size typeAnnotation < k)%nat ->
  keepsPass (tsFunctionType visit parameters typeAnnotation names).
Proof.
  intros Hs. unfold tsFunctionType.
  apply keeps_bind; [apply keeps_tsFunctionTypeParameters; smaller|intros [ps names1]].
  keeps_method.
Qed.

Lemma keeps_tsUnionType id types env :
  (sizeL size types < k)%nat -> keepsPass (tsUnionType visit id types env).
Proof. intros Hs. unfold tsUnionType. keeps_method. Qed.

Lemma keeps_exportNamedDeclaration declaration env :
  (sizeO size declaration < k)%nat ->
  keepsPass (exportNamedDeclaration visit declaration env).
Proof.
  intros Hs. unfold exportNamedDeclaration.
  apply keeps_bind; [apply keeps_modify; reflexivity|intros _].
  apply keeps_bind; [apply keeps_visitOptional; exact Hs|intros env1].
  apply keeps_bind; [apply keeps_modify; reflexivity|intros _]. keeps.
Qed.

Lemma keeps_checkConstructor id ref generator async params rt body names :
  keepsPass (checkConstructor visit id ref generator async params rt body names).
Proof.
  intros st a st' E. unfold checkConstructor in E.
  destruct (classes st !! ref) as [clazz|]; [|discriminate E].
  destruct (functionDeclarationPass1 _ _ _ _ _ _ _ _ _ _ _) as [[names1 visitor]|e];
    [|discriminate E].
  match type of E with
  | ?m _ = Ok _ => assert (K : keepsPass m) by keeps
  end.
  rewrite (K _ _ _ E). reflexivity.
Qed.

Lemma keeps_classMethod id static abstract methodKind key params rt body generator async
    names :
  (sizeL size params + sizeO size rt + size body < k)%nat ->
  keepsPass (classMethod visit id static abstract methodKind key params rt body generator
               async names).
Proof.
  intros Hs. unfold classMethod. keeps_method.
  all: try apply keeps_checkConstructor.
Qed.

Lemma keeps_classProperty id static abstract accessibility key value typeAnnotation names :
  (sizeO size typeAnnotation < k)%nat ->
  keepsPass (classProperty visit id static abstract accessibility key value typeAnnotation
               names).
Proof. intros Hs. unfold classProperty. keeps_method. Qed.

Lemma keeps_classBodyMembers clazz body classBlock :
  (sizeL size body < k)%nat -> keepsPass (classBodyMembers visit clazz body classBlock).
Proof.
  revert classBlock. induction body as [|b body IH]; intros classBlock Hs; simpl.
  - keeps.
  - keeps_method. apply IH. smaller.
Qed.

Lemma keeps_classBody body names :
  (sizeL size body < k)%nat -> keepsPass (classBody visit body names).
Proof. intros Hs. unfold classBody. keeps. apply keeps_classBodyMembers. exact Hs. Qed.

Lemma keeps_classDeclaration id ident superClassName implements abstract body names :
  (size body < k)%nat ->
  keepsPass (classDeclaration visit id ident superClassName implements abstract body names).
Proof. intros Hs. unfold classDeclaration. keeps_method. Qed.

End Methods.

(** [this.visit] keeps the pass: the field is assigned by the driver only. *)
Lemma visit_keepsPass_below (k : nat) :
  forall node, (size node < k)%nat -> forall names, keepsPass (visit node names).
Proof.
  induction k as [|k IH]; intros node Hs names; [lia|].
  destruct node; cbn [visit]; simpl in Hs.
  all: try (apply keeps_nested).
  all: first
    [ solve [unfold nullLiteral, stringLiteral, booleanLiteral, numericLiteral, identifier,
               emptyStatement, breakStatement, continueStatement, variableDeclarator,
               thisExpression, superExpression, taggedTemplateExpression, tsTypeReference,
               tsNumberKeyword, tsVoidKeyword, tsBooleanKeyword, tsStringKeyword,
               tsObjectKeyword, tsAnyKeyword, tsNullKeyword, tsUndefinedKeyword,
               tsKeyword, tsTypeAliasDeclaration; keeps]
    | apply keeps_importDeclaration
    | unfold file, expressionStatement, returnStatement, tsTypeAnnotation, tsArrayType;
      solve [keeps; apply IH; lia
            | apply (keeps_returnStatementArg _ k IH); unfold sizeO in *; lia]
    | apply (keeps_program _ k IH); lia
    | apply (keeps_exportNamedDeclaration _ k IH); lia
    | apply (keeps_whileStatement _ k IH); lia
    | apply (keeps_ifStatement _ k IH); lia
    | apply (keeps_forStatement _ k IH); lia
    | apply (keeps_blockStatement _ k IH); lia
    | apply (keeps_classDeclaration _ k IH); lia
    | apply (keeps_classBody _ k IH); lia
    | apply (keeps_classProperty _ k IH); lia
    | apply (keeps_classMethod _ k IH); lia
    | apply (keeps_variableDeclaration _ k IH); lia
    | apply (keeps_functionDeclaration _ k IH); lia
    | apply (keeps_arrowFunctionExpression _ k IH); lia
    | apply (keeps_unaryExpression _ k IH); lia
    | apply (keeps_updateExpression _ k IH); lia
    | apply (keeps_binaryExpression _ k IH); lia
    | apply (keeps_assignmentExpression _ k IH); lia
    | apply (keeps_logicalExpression _ k IH); lia
    | apply (keeps_conditionalExpression _ k IH); lia
    | apply (keeps_callExpression _ k IH); lia
    | apply (keeps_newExpression _ k IH); lia
    | apply (keeps_arrayExpression _ k IH); lia
    | apply (keeps_memberExpression _ k IH); lia
    | apply (keeps_tsAsExpression _ k IH); lia
    | apply (keeps_tsFunctionType _ k IH); lia
    | apply (keeps_tsUnionType _ k IH); lia ].
Qed.

Lemma visit_keepsPass node names st names' st' :
  visit node names st = Ok (names', st') -> firstPass st' = firstPass st.
Proof. apply (visit_keepsPass_below (S (size node))). lia. Qed.

End FirstPass.

#[export] Hint Resolve keeps_ret keeps_throw keeps_get keeps_getResult keeps_getFirstPass
  keeps_subtype keeps_consistent keeps_toString keeps_getStaticType keeps_getInstance
  keeps_setResult keeps_setInstance keeps_makerInstanceType keeps_addStaticType
  keeps_addCoercionFlag keeps_addNameTable keeps_modifyConstructorChecker keeps_assert
  keeps_assertSyntax keeps_assertVariable keeps_thisAddStaticType keeps_addCoercion
  keeps_addCoercionIfAny keeps_addCoercionForBoolean keeps_isConsistentOnFirstPass
  keeps_assertLvalue keeps_invalidOperandMessage keeps_invalidOperandsMessage : keeps.

(* ================================================================= *)
(** ** Running the monad in proofs *)

Section Monad.

Context `{External}.

Lemma bind_ok {A B} (m : M A) (k : A -> M B) st a st1 :
  m st = Ok (a, st1) -> bind m k st = k a st1.
Proof. intros E. unfold bind. rewrite E. reflexivity. Qed.

Lemma bind_throw {A B} (m : M A) (k : A -> M B) st e :
  m st = Throw e -> bind m k st = Throw e.
Proof. intros E. unfold bind. rewrite E. reflexivity. Qed.

Lemma bind_inv {A B} (m : M A) (k : A -> M B) st b st' :
  bind m k st = Ok (b, st') ->
  exists a st1, m st = Ok (a, st1) /\ k a st1 = Ok (b, st').
Proof.
  unfold bind. destruct (m st) as [[a st1]|e]; [|discriminate].
  intros E. exists a, st1. split; [reflexivity|exact E].
Qed.

Lemma keeps_visit node names : keepsPass (visit node names).
Proof. intros st a st'. apply visit_keepsPass. Qed.

Lemma keeps_checkMemberExpr_visit id object property computed readonly names :
  keepsPass (checkMemberExpr visit id object property computed readonly names).
Proof.
  apply (keeps_checkMemberExpr visit (S (size object + size property))); [|lia].
  intros n _ names0. apply keeps_visit.
Qed.

Lemma addCoercion_pass2 node t st :
  firstPass st = false ->
  addCoercion node t st =
  Ok (tt, withCoercionFlags (<[node := true]> (coercionFlags st))
            (withStaticTypes (<[node := t]> (staticTypes st)) st)).
Proof. intros Hp. unfold addCoercion, bind, getFirstPass. rewrite Hp. reflexivity. Qed.

Lemma addCoercion_pass1 node t st :
  firstPass st = true -> addCoercion node t st = Ok (tt, st).
Proof. intros Hp. unfold addCoercion, bind, getFirstPass. rewrite Hp. reflexivity. Qed.

Lemma lookup_flags_both (m : gmap nat bool) (a b : nat) :
  <[b := true]> (<[a := true]> m) !! a = Some true
  /\ <[b := true]> (<[a := true]> m) !! b = Some true.
Proof.
  split; [|apply lookup_insert_eq].
  destruct (decide (b = a)) as [->|Hne]; [apply lookup_insert_eq|].
  rewrite lookup_insert_ne by exact Hne. apply lookup_insert_eq.
Qed.

Lemma app_one_neq {A} (l : list A) (x : A) : l ++ [x] <> l.
Proof.
  intros E. apply (f_equal (@length A)) in E. rewrite length_app in E. simpl in E. lia.
Qed.

End Monad.

#[export] Hint Resolve keeps_visit keeps_checkMemberExpr_visit : keeps.

(** Splits the hypotheses [m st = Ok _] along the sequences and the case
    distinctions of [m]. *)
Ltac run :=
  repeat match goal with
    | E : bind _ _ _ = Ok _ |- _ =>
        apply bind_inv in E; destruct E as (? & ? & ? & E)
    | E : (if ?c then _ else _) _ = Ok _ |- _ => destruct c eqn:?
    | E : (match ?x with _ => _ end) _ = Ok _ |- _ => destruct x eqn:?
    | E : (let (_, _) := ?x in _) _ = Ok _ |- _ => destruct x eqn:?
    | E : throw _ _ = Ok _ |- _ => discriminate E
    end.

(** Records, for every run among the hypotheses, that it kept the pass. *)
Ltac passes :=
  repeat match goal with
    | E : ?m ?s = Ok (_, ?s') |- _ =>
        lazymatch goal with
        | _ : firstPass s' = firstPass s |- _ => fail
        | _ => idtac
        end;
        assert (firstPass s' = firstPass s)
          by (apply (fun (keeps : keepsPass m) => keeps _ _ _ E); auto 2 with keeps)
    end.

(** Turns the runs of the primitives among the hypotheses into equations on
    the states. *)
Ltac prims :=
  repeat match goal with
    | E : addCoercion _ _ ?s = Ok _ |- _ =>
        rewrite (addCoercion_pass2 _ _ s ltac:(congruence)) in E;
        injection E as ? ?; subst
    | E : getFirstPass _ = Ok _ |- _ => injection E as ? ?; subst
    | E : getResult _ = Ok _ |- _ => injection E as ? ?; subst
    | E : get _ = Ok _ |- _ => injection E as ? ?; subst
    | E : setResult _ _ = Ok _ |- _ => injection E as ? ?; subst
    | E : ret _ _ = Ok _ |- _ => injection E as ? ?; subst
    | E : subtype _ _ _ = Ok _ |- _ => injection E as ? ?; subst
    | E : consistent _ _ _ = Ok _ |- _ => injection E as ? ?; subst
    | E : toString _ _ = Ok _ |- _ => injection E as ? ?; subst
    | E : modifyConstructorChecker _ _ = Ok _ |- _ => injection E as ? ?; subst
    | E : assert ?b _ _ _ = Ok _ |- _ =>
        unfold assert in E; destruct b; injection E as ? ?; subst
    end.

(* ================================================================= *)
(** ** Arithmetic operators (claim C6) *)

Section Arithmetic.

Context `{External}.

Lemma arithmeticOperator_cases op :
  arithmeticOperator op = true ->
  op = "+" \/ op = "-" \/ op = "*" \/ op = "/" \/ op = "**".
Proof.
  unfold arithmeticOperator, opIn. cbn [existsb]. intros Hop.
  rewrite !orb_true_iff, !String.eqb_eq in Hop.
  intuition discriminate.
Qed.

(** C6: a binary expression with [+], [-], [*], [/] or [**], whose operands
    have been visited with the types [result st1] and [result st2], logs
    "invalid operands" exactly when an operand is neither numeric nor [any],
    and has the type [any] if either operand is [any], otherwise [float] if
    at least one operand is [float], otherwise [integer]. *)
Theorem binaryExpression_arithmetic id op lhs rhs names st names1 st1 names2 st2 :
  arithmeticOperator op = true ->
  visit lhs names st = Ok (names1, st1) ->
  visit rhs names1 st1 = Ok (names2, st2) ->
  exists st',
    visit (BinaryExpression id op lhs rhs) names st = Ok (names2, st') /\
    result st' = arithmeticResult (result st1) (result st2) /\
    errorLog st' =
      if numericOrAny (result st1) && numericOrAny (result st2) then errorLog st2
      else errorLog st2 ++
           [Message ("invalid operands to " ^^ op ^^ " ("
                     ^^ typeToString (classes st2) (result st1) ^^ " and "
                     ^^ typeToString (classes st2) (result st2) ^^ ")") id].
Proof.
  intros Hop H1 H2. cbn [visit]. unfold binaryExpression.
  apply arithmeticOperator_cases in Hop.
  destruct Hop as [-> | [-> | [-> | [-> | -> ] ] ] ];
    cbn [String.eqb Ascii.eqb Bool.eqb opIn existsb orb].
  all: rewrite (bind_ok _ _ _ _ _ H1).
  all: unfold getResult at 1; unfold bind at 1.
  all: rewrite (bind_ok _ _ _ _ _ H2).
  all: unfold arithmeticResult, numericOrAny.
  all: destruct (result st1) eqn:E1, (result st2) eqn:E2.
  all: cbv [bind ret getResult invalidOperandsMessage toString assert addCoercion
            thisAddStaticType getFirstPass addStaticType addCoercionFlag modify setResult
            strictEq isNumeric orb andb]; rewrite ?E2.
  all: destruct (firstPass st2) eqn:Efp; repeat (progress (simpl; rewrite ?Efp)).
  all: eexists; split; [reflexivity|split; reflexivity].
Qed.

End Arithmetic.

Lemma binaryExpression_arithmetic_witness :
  arithmeticOperator "+" = true /\
  exists st',
    visit onePlusFloat [] pass2World = Ok ([], st') /\
    result st' = Float /\ errorLog st' = [].
Proof.
  split; [reflexivity|].
  destruct (binaryExpression_arithmetic (H := specExternal) 0 "+"
              (NumericLiteral 1 (Some "1")) (NumericLiteral 2 (Some "2.5"))
              [] pass2World [] _ [] _ eq_refl eq_refl eq_refl)
    as (st' & E & Hr & Hl).
  exists st'. split; [exact E|]. split; [exact Hr|exact Hl].
Defined.

(* ================================================================= *)
(** ** Member and indexed assignment (claim C10) *)

Section MemberAssignment.

Context `{External}.

Lemma checkMemberExpr_computed_pass2 id object property readonly names st checked names1
    st1 :
  firstPass st = false ->
  checkMemberExpr visit id object property true readonly names st
    = Ok ((checked, names1), st1) ->
  checked = true.
Proof.
  intros Hp E. unfold checkMemberExpr in E. run; passes.
  all: match goal with
       | E : getFirstPass ?s = Ok _ |- _ =>
           assert (Hfp : firstPass s = false) by congruence; injection E as ? ?; subst
       end.
  all: match goal with E : ret _ _ = Ok _ |- _ => injection E as ? ? ?; subst end.
  all: try reflexivity.
  all: rewrite Hfp; reflexivity.
Qed.

Lemma memberAssignmentExpression_flags id leftId object property computed rhs names st
    names' st' :
  firstPass st = false ->
  memberAssignmentExpression visit id "=" leftId object property computed rhs names st
    = Ok (names', st') ->
  coercionFlags st' !! leftId = Some true /\ coercionFlags st' !! nodeId rhs = Some true.
Proof.
  intros Hp E. unfold memberAssignmentExpression in E.
  change (String.eqb "=" "=") with true in E. cbv iota in E.
  apply bind_inv in E. destruct E as (? & s & Ea & E).
  apply bind_inv in E. destruct E as ([checked names1] & s1 & Ec & E).
  passes.
  destruct (negb checked && computed) eqn:Hc.
  { apply andb_true_iff in Hc. destruct Hc as [Hc ->].
    assert (Hp0 : firstPass s = false) by congruence.
    rewrite (checkMemberExpr_computed_pass2 _ _ _ _ _ _ _ _ _ Hp0 Ec) in Hc.
    discriminate Hc. }
  run; passes; prims; simpl; apply lookup_flags_both.
Qed.

(** C10: in pass 2, whenever the checker returns from a member or indexed
    assignment with [=], the coercion flag is set on the left and on the
    right operand node, whether the right-hand type is consistent with the
    element type, a subtype of it, or neither. *)
Theorem memberAssignment_sets_coercion id leftId object property computed rhs names st
    names' st' :
  firstPass st = false ->
  visit (AssignmentExpression id "=" (MemberExpression leftId object property computed) rhs)
    names st = Ok (names', st') ->
  coercionFlags st' !! leftId = Some true /\ coercionFlags st' !! nodeId rhs = Some true.
Proof.
  intros Hp E. cbn [visit] in E.
  unfold assignmentExpression, ConstructorChecker_memberAssignmentExpression in E.
  apply bind_inv in E. destruct E as (names1 & s1 & Em & E).
  apply (memberAssignmentExpression_flags _ _ _ _ _ _ _ _ _ _ Hp) in Em.
  run; prims; exact Em.
Qed.

End MemberAssignment.

(** [a[0] = 1] with [a: integer[]], in pass 2. *)
Lemma memberAssignment_sets_coercion_witness :
  firstPass pass2World = false /\
  exists names' st',
    visit assignElement arrayNames pass2World = Ok (names', st') /\
    coercionFlags st' !! 1%nat = Some true /\ coercionFlags st' !! 4%nat = Some true.
Proof.
  split; [reflexivity|].
  eexists; eexists. split; [vm_compute; reflexivity|].
  eapply (memberAssignment_sets_coercion (H := specExternal) 0 1 (Identifier 2 "a" None)
            (NumericLiteral 3 (Some "0")) true (NumericLiteral 4 (Some "1"))
            arrayNames pass2World);
    [reflexivity|vm_compute; reflexivity].
Defined.

(* ================================================================= *)
(** ** Union types (claim C7) *)

(** A union annotation of two options or more is checked as the claim says.
    What fails is the union of one option, which a leading [|] gives. *)

Section Union.

Context `{External}.

(** A union annotation with the options [type0], [type1] and [more],
    whose first two options have been visited with the types [result st1]
    and [result st2], produces no diagnostic of its own exactly when it has
    two options, exactly one of them is [null] and the other one is neither
    [null], [any] nor an optional type; its type is the optional type of the
    option that is not [null].  ([before] is what the check of the number of
    options logs, before the options are visited; [after] is what the other
    checks log.) *)
Theorem tsUnionType_accepts id type0 type1 more env st ok st0 env1 st1 env2 st2 :
  assert (length (type0 :: type1 :: more) =? 2)%nat
    "only optional types are supported -- the number of options must be 2" id st
    = Ok (ok, st0) ->
  visit type0 env st0 = Ok (env1, st1) ->
  visit type1 env1 st1 = Ok (env2, st2) ->
  exists st',
    visit (TSUnionType id (type0 :: type1 :: more)) env st = Ok (env2, st') /\
    result st' = OptionalT (nonNullOption (result st1) (result st2)) /\
    exists before after,
      errorLog st0 = errorLog st ++ before /\
      errorLog st' = errorLog st2 ++ after /\
      (before ++ after = [] <-> unionAccepted more (result st1) (result st2) = true).
Proof.
  intros H0 H1 H2. cbn [visit]. unfold tsUnionType.
  rewrite (bind_ok _ _ _ _ _ H0). rewrite (bind_ok _ _ _ _ _ H1).
  unfold getResult at 1; unfold bind at 1.
  rewrite (bind_ok _ _ _ _ _ H2).
  unfold assert in H0.
  unfold unionAccepted, nonNullOption, optionalElement.
  destruct more as [|type2 more]; simpl in H0; injection H0 as <- <-.
  all: destruct (result st1) eqn:E1, (result st2) eqn:E2.
  all: cbv [bind ret getResult toString assert modify setResult strictEq isOptionalType
            orb andb negb]; rewrite ?E2; cbn [result errorLog withResult withErrorLog].
  all: eexists; split; [reflexivity|]; split; [reflexivity|].
  all: cbn [result errorLog withResult withErrorLog]; unfold logPush;
    rewrite <- ?app_assoc.
  all: eexists; eexists.
  all: split; [first [symmetry; apply app_nil_r | reflexivity]|].
  all: split; [first [symmetry; apply app_nil_r | reflexivity]|].
  all: split; intros Hx; cbn in Hx; first [reflexivity | discriminate Hx].
Qed.

End Union.

Lemma tsUnionType_accepts_witness :
  exists st',
    visit integerOrUndefined [] pass2World = Ok ([], st') /\
    result st' = OptionalT Integer /\
    exists before after,
      errorLog pass2World = errorLog pass2World ++ before /\
      errorLog st' = [] ++ after /\
      (before ++ after = [] <-> unionAccepted [] Integer Null = true).
Proof.
  exact (tsUnionType_accepts (H := specExternal) 0 (typeRef 1 "integer")
           (TSUndefinedKeyword 3) [] [] pass2World true pass2World [] _ [] _
           eq_refl eq_refl eq_refl).
Defined.

(** C7: [let x: | integer].  The annotation is a union of one option; the
    checker logs that the number of options must be 2 and then visits the
    second option, which does not exist: the driver ends with a [TypeError],
    not with the diagnostic. *)
Theorem one_option_union_throws :
  typecheck oneOptionUnionProgram (makerGlobal []) None pass1World
  = Throw (ThrownError "TypeError: cannot visit undefined").
Proof. vm_compute. reflexivity. Qed.

(* ================================================================= *)
(** ** Assignment to an identifier (claim C2) *)

Section Assignment.

Context `{External}.

Lemma assertLvalue_accepts node table st st0 :
  assertLvalue node table st = Ok (tt, st0) ->
  (errorLog st0 = errorLog st <-> assignable node table = true).
Proof.
  assert (Htwo : forall (l : ErrorLog) a b, (l ++ [a]) ++ [b] <> l).
  { intros l a b E. apply (f_equal (@length LogEntry)) in E.
    rewrite !length_app in E. simpl in E. lia. }
  unfold assertLvalue, assignable. intros E.
  destruct node; try destruct (lookup name table) as [info|];
    try destruct (isConst info); try destruct (isFunction info);
    cbv [bind assert ret logPush negb andb] in E; injection E as <-;
    cbn [errorLog withErrorLog]; split; intros Hx;
    first [reflexivity | discriminate Hx | exfalso; exact (app_one_neq _ _ Hx)
          | exfalso; exact (Htwo _ _ _ Hx)].
Qed.

(** The check of the types of a simple assignment in pass 2, given what
    [assertLvalue] and the visits of the two operands leave. *)
Lemma assignmentExpression_types id lhs rhs names st st0 names1 st1 names2 st2 :
  firstPass st = false ->
  isMemberExpression lhs = false ->
  assertLvalue lhs names st = Ok (tt, st0) ->
  visit lhs names st0 = Ok (names1, st1) ->
  visit rhs names1 st1 = Ok (names2, st2) ->
  exists st',
    visit (AssignmentExpression id "=" lhs rhs) names st = Ok (names2, st') /\
    (errorLog st' = errorLog st2 <->
     isSubtype (classes st2) (result st2) (result st1)
     || isConsistent (classes st2) (result st2) (result st1) = true) /\
    (isConsistent (classes st2) (result st2) (result st1) = true ->
     coercionFlags st' !! nodeId lhs = Some true /\
     coercionFlags st' !! nodeId rhs = Some true) /\
    (isConsistent (classes st2) (result st2) (result st1) = false ->
     coercionFlags st' = coercionFlags st2) /\
    (errorLog st' = errorLog st2 ->
     ~ (coercionFlags st' !! nodeId lhs = Some true /\
        coercionFlags st' !! nodeId rhs = Some true) ->
     isSubtype (classes st2) (result st2) (result st1) = true).
Proof.
  intros Hp Hm Ha H1 H2.
  assert (Hp2 : firstPass st2 = false).
  { rewrite (visit_keepsPass _ _ _ _ _ H2), (visit_keepsPass _ _ _ _ _ H1),
      (keeps_assertLvalue _ _ _ _ _ Ha). exact Hp. }
  cbn [visit]. unfold assignmentExpression.
  destruct lhs; try discriminate Hm.
  all: rewrite (bind_ok _ _ _ _ _ Ha), (bind_ok _ _ _ _ _ H1).
  all: unfold getResult at 1; unfold bind at 1; rewrite (bind_ok _ _ _ _ _ H2).
  all: change (String.eqb "=" "=") with true; cbv iota.
  all: cbv [bind getResult consistent isConsistentOnFirstPass getFirstPass ret subtype
            toString addCoercion addStaticType addCoercionFlag modify setResult assert].
  all: repeat (progress (simpl; rewrite ?Hp2)); rewrite orb_false_r.
  all: destruct (isConsistent (classes st2) (result st2) (result st1)) eqn:Hc;
    destruct (isSubtype (classes st2) (result st2) (result st1)) eqn:Hs;
    repeat (progress (simpl; rewrite ?Hp2)).
  all: eexists; split; [reflexivity|]; simpl.
  all: repeat split; try (intros; reflexivity); try (intros; discriminate).
  all: try apply lookup_flags_both.
  all: try (intros Hx; exfalso; exact (app_one_neq _ _ Hx)).
  all: intros _ Hn; exfalso; apply Hn; apply lookup_flags_both.
Qed.

(** C2, amended: in pass 2, a simple assignment with [=] whose left-hand side
    is not a member expression, and whose operands have been visited with
    the types [result st1] (left) and [result st2] (right), is accepted (it
    logs nothing of its own: neither [assertLvalue] nor the check of the
    types) if and only if the left-hand side is assignable (no constant, no
    top-level function) and the right-hand type is a subtype of the left-hand
    type or the two are consistent; when they are consistent the coercion
    flag is set on both operand nodes, otherwise the assignment sets no flag;
    and when it is accepted and the flags are not both set, the right-hand
    type is a subtype of the left-hand type. *)
Theorem assignmentExpression_pass2 id lhs rhs names st st0 names1 st1 names2 st2 :
  firstPass st = false ->
  isMemberExpression lhs = false ->
  assertLvalue lhs names st = Ok (tt, st0) ->
  visit lhs names st0 = Ok (names1, st1) ->
  visit rhs names1 st1 = Ok (names2, st2) ->
  exists st',
    visit (AssignmentExpression id "=" lhs rhs) names st = Ok (names2, st') /\
    (errorLog st0 = errorLog st /\ errorLog st' = errorLog st2 <->
     assignable lhs names
     && (isSubtype (classes st2) (result st2) (result st1)
         || isConsistent (classes st2) (result st2) (result st1)) = true) /\
    (isConsistent (classes st2) (result st2) (result st1) = true ->
     coercionFlags st' !! nodeId lhs = Some true /\
     coercionFlags st' !! nodeId rhs = Some true) /\
    (isConsistent (classes st2) (result st2) (result st1) = false ->
     coercionFlags st' = coercionFlags st2) /\
    (errorLog st0 = errorLog st -> errorLog st' = errorLog st2 ->
     ~ (coercionFlags st' !! nodeId lhs = Some true /\
        coercionFlags st' !! nodeId rhs = Some true) ->
     isSubtype (classes st2) (result st2) (result st1) = true).
Proof.
  intros Hp Hm Ha H1 H2.
  destruct (assignmentExpression_types id lhs rhs names st st0 names1 st1 names2 st2
              Hp Hm Ha H1 H2) as (st' & E & Hlog & Hyes & Hno & Hsub).
  pose proof (assertLvalue_accepts lhs names st st0 Ha) as Hlv.
  exists st'. split; [exact E|]. split; [|split; [exact Hyes|split; [exact Hno|] ] ].
  - rewrite andb_true_iff. split.
    + intros [L0 L']. split; [apply Hlv, L0|apply Hlog, L'].
    + intros [A T]. split; [apply Hlv, A|apply Hlog, T].
  - intros _ L'. apply Hsub. exact L'.
Qed.

End Assignment.

(** [x = y] with [x: integer] and [y: any], in pass 2: accepted by
    consistency, with the coercion flag on both operands. *)
Lemma assignmentExpression_pass2_witness :
  firstPass pass2World = false /\
  isMemberExpression (Identifier 1 "x" None) = false /\
  exists st',
    visit assignXY xyNames pass2World = Ok (xyNames, st') /\
    errorLog st' = [] /\
    coercionFlags st' !! 1%nat = Some true /\ coercionFlags st' !! 2%nat = Some true.
Proof.
  split; [reflexivity|]. split; [reflexivity|].
  destruct (assignmentExpression_pass2 (H := specExternal) 0 (Identifier 1 "x" None)
              (Identifier 2 "y" None) xyNames pass2World pass2World xyNames _ xyNames _
              eq_refl eq_refl eq_refl eq_refl eq_refl)
    as (st' & E & Hlog & Hflags & _).
  exists st'. split; [exact E|]. split.
  - apply (proj2 Hlog). reflexivity.
  - apply Hflags. reflexivity.
Defined.

(** C2, as stated, fails: [x = 1] with a constant [x: integer].  The type of
    the right-hand side is a subtype of the type of [x] (and consistent with
    it), yet the assignment is not accepted: "assignment to constant
    variable" is logged. *)
Lemma constant_assignment_fits_and_is_rejected :
  exists st',
    visit assignXOne constantNames pass2World = Ok (constantNames, st') /\
    isSubtype (classes st') Integer Integer = true /\
    errorLog st' = [Message "assignment to constant variable" 1].
Proof.
  eexists. split; [vm_compute; reflexivity|]. split; reflexivity.
Qed.

(* ================================================================= *)
(** ** Imports (claims C8 and C9) *)

Section Imports.

Context `{External}.

Lemma callImporter_throws id source st f e :
  importer st = Some f ->
  f source = ImporterThrows e ->
  callImporter id (Some "value") source st =
  match e with
  | ThrownLog log => Ok (None, withErrorLog (logAdd log source (errorLog st)) st)
  | ThrownString s => Ok (None, withErrorLog (logPush s id (errorLog st)) st)
  | _ => Throw e
  end.
Proof.
  intros Hi Hf. unfold callImporter. simpl.
  cbv [bind assert get negb]. cbv beta iota. rewrite Hi, Hf. destruct e; reflexivity.
Qed.

Lemma addBuiltinTypes_returns id names st :
  exists names0 st0,
    addBuiltinTypes id names st = Ok (names0, st0) /\ importer st0 = importer st.
Proof.
  unfold addBuiltinTypes.
  cbv [bind makerInstanceType getInstance]. cbn [classes withClasses].
  rewrite list_lookup_middle by reflexivity.
  destruct (record _ _ _ names) as [success names1].
  cbv [setInstance modify assert ret].
  destruct success; eexists; eexists; split; reflexivity.
Qed.

(** C8: in pass 1, with an importer that throws on the source file of a value
    import: an error log is added to the log of the checker with the source
    file; a string is pushed with the import node; any other value is thrown
    by [visit], and by the driver when the import is the first statement of
    the program. *)
Theorem importer_throws id source specifiers env st f :
  firstPass st = true ->
  importer st = Some f ->
  let node := ImportDeclaration id (Some "value") source specifiers in
  (forall log, f source = ImporterThrows (ThrownLog log) ->
     visit node env st = Ok (env, withErrorLog (logAdd log source (errorLog st)) st)) /\
  (forall s, f source = ImporterThrows (ThrownString s) ->
     visit node env st = Ok (env, withErrorLog (logPush s id (errorLog st)) st)) /\
  (forall e, f source = ImporterThrows e -> otherThrown e = true ->
     visit node env st = Throw e /\
     forall fileId programId rest names world,
       typecheck (File fileId (Program programId (node :: rest))) names (Some f) world
       = Throw e).
Proof.
  intros Hp Hi node.
  assert (Hv : forall e env st, firstPass st = true -> importer st = Some f ->
            f source = ImporterThrows e ->
            visit node env st =
            match e with
            | ThrownLog log => Ok (env, withErrorLog (logAdd log source (errorLog st)) st)
            | ThrownString s => Ok (env, withErrorLog (logPush s id (errorLog st)) st)
            | _ => Throw e
            end).
  { intros e env0 s Hps His Hf. cbn [visit node]. unfold importDeclaration.
    unfold getFirstPass at 1; unfold bind at 1. rewrite Hps. cbn [negb].
    unfold bind. rewrite (callImporter_throws _ _ _ _ _ His Hf).
    destruct e; reflexivity. }
  split; [intros log Hf; exact (Hv _ _ _ Hp Hi Hf)|].
  split; [intros s Hf; exact (Hv _ _ _ Hp Hi Hf)|].
  intros e Hf He.
  assert (Hthrow : forall env st, firstPass st = true -> importer st = Some f ->
            visit node env st = Throw e).
  { intros env0 s Hps His. rewrite (Hv _ _ _ Hps His Hf).
    destruct e; [discriminate He..|reflexivity|reflexivity]. }
  split; [exact (Hthrow _ _ Hp Hi)|].
  intros fileId programId rest names world. unfold typecheck.
  assert (E0 : exists names0 st0,
            (if negb (hasParent names)
             then addBuiltinTypes (nodeId (File fileId (Program programId (node :: rest))))
                    names
             else ret names) (newTypeChecker (Some f) world) = Ok (names0, st0)
            /\ importer st0 = Some f).
  { destruct (negb (hasParent names)).
    - destruct (addBuiltinTypes_returns
                  (nodeId (File fileId (Program programId (node :: rest)))) names
                  (newTypeChecker (Some f) world)) as (n0 & s0 & E & Hi0).
      exists n0, s0. split; [exact E|exact Hi0].
    - eexists; eexists; split; reflexivity. }
  destruct E0 as (names0 & st0 & E0 & Hi0).
  rewrite (bind_ok _ _ _ _ _ E0).
  erewrite bind_ok by reflexivity. erewrite bind_ok by reflexivity.
  apply bind_throw. cbn [visit]. unfold file. cbn [visit]. unfold program.
  apply bind_throw. cbn [visitAll]. apply bind_throw.
  apply Hthrow; [reflexivity|exact Hi0].
Qed.

(** C9: an import specifier whose name is found in the table of the importer
    but is not exported logs the diagnostic and copies the name info into the
    table at hand all the same; after an import declaration with this
    specifier the global table binds the name to that info. *)
Theorem import_not_exported_is_copied source imported name info sid env st :
  lookup name imported = Some info ->
  isExported info = false ->
  let diagnostic :=
    Message ("'" ^^ name ^^ "' is declared but not exported in " ^^ source) sid in
  importSpecifier source imported (ImportSpecifier sid (ExportIdentifier name)) env st
    = Ok (importInfo name info env, withErrorLog (errorLog st ++ [diagnostic]) st) /\
  (isGlobal env = true -> lookup name (importInfo name info env) = Some info) /\
  (forall id f,
     firstPass st = true -> importer st = Some f -> f source = Imported imported ->
     isGlobal env = true ->
     visit (ImportDeclaration id (Some "value") source
              [ImportSpecifier sid (ExportIdentifier name)]) env st
     = Ok (importInfo name info env, withErrorLog (errorLog st ++ [diagnostic]) st)).
Proof.
  intros Hl He diagnostic.
  assert (Hs : importSpecifier source imported (ImportSpecifier sid (ExportIdentifier name))
                 env st
               = Ok (importInfo name info env,
                     withErrorLog (errorLog st ++ [diagnostic]) st)).
  { unfold importSpecifier. rewrite Hl. unfold bind, assert. rewrite He. reflexivity. }
  split; [exact Hs|]. split.
  - destruct env as [|s parent]; [discriminate|]. intros _.
    unfold importInfo. cbn [lookup elements setElements].
    rewrite lookup_insert_eq. reflexivity.
  - intros id f Hp Hi Hf Hg. cbn [visit]. unfold importDeclaration.
    unfold getFirstPass at 1; unfold bind at 1. rewrite Hp. cbn [negb].
    assert (Hc : callImporter id (Some "value") source st = Ok (Some imported, st)).
    { unfold callImporter. simpl. cbv [bind assert get negb]. cbv beta iota.
      rewrite Hi, Hf. reflexivity. }
    rewrite (bind_ok _ _ _ _ _ Hc). rewrite Hg. cbn [negb importSpecifiers].
    rewrite (bind_ok _ _ _ _ _ Hs). reflexivity.
Qed.

End Imports.

(** [import { f } from "lib"] with an importer that throws a string. *)
Lemma importer_throws_witness :
  firstPass (importWorld missingFile) = true /\
  importer (importWorld missingFile) = Some missingFile /\
  visit importF (makerGlobal []) (importWorld missingFile)
  = Ok (makerGlobal [],
        withErrorLog [Message "file not found" 0] (importWorld missingFile)).
Proof.
  split; [reflexivity|]. split; [reflexivity|].
  apply (proj1 (proj2 (importer_throws (H := specExternal) 0 "lib"
                         [ImportSpecifier 1 (ExportIdentifier "f")] (makerGlobal [])
                         (importWorld missingFile) missingFile eq_refl eq_refl))).
  reflexivity.
Defined.

(** [import { f } from "lib"] where [f] is declared in "lib" but not
    exported: the diagnostic is logged and [f] is bound all the same. *)
Lemma import_not_exported_is_copied_witness :
  lookup "f" libTable = Some (makerInfo Integer) /\
  isExported (makerInfo Integer) = false /\
  exists env' st',
    visit importF (makerGlobal []) (importWorld libImporter) = Ok (env', st') /\
    errorLog st' = [Message "'f' is declared but not exported in lib" 1] /\
    lookup "f" env' = Some (makerInfo Integer).
Proof.
  split; [reflexivity|]. split; [reflexivity|].
  destruct (import_not_exported_is_copied (H := specExternal) "lib" libTable "f"
              (makerInfo Integer) 1 (makerGlobal []) (importWorld libImporter)
              eq_refl eq_refl) as (_ & Hbound & Hvisit).
  eexists; eexists. split.
  - apply (Hvisit 0%nat libImporter); reflexivity.
  - split; [reflexivity|]. apply Hbound. reflexivity.
Defined.

(* ================================================================= *)
(** ** Numeric literals (claim C5) *)

Section NumericLiteral.

Context `{External}.

(** The type of a numeric literal: [integer] when the raw text is made of
    the characters [0-9A-Fa-fXx], otherwise [float] when it is made of the
    characters [0-9.e+-]; otherwise a diagnostic, and the type is left as it
    was. *)
Lemma numericLiteral_result id raw names st :
  exists st',
    visit (NumericLiteral id raw) names st = Ok (names, st') /\
    result st' =
      (if testAll integerChar (rawText raw) then Integer
       else if testAll floatChar (rawText raw) then Float
       else result st) /\
    errorLog st' =
      (if testAll integerChar (rawText raw) || testAll floatChar (rawText raw)
       then errorLog st
       else errorLog st ++ [Message "bad numeric literal" id]).
Proof.
  cbn [visit]. unfold numericLiteral.
  destruct (testAll integerChar (rawText raw)); [|destruct (testAll floatChar (rawText raw))].
  all: cbv [bind setResult modify getResult thisAddStaticType getFirstPass addStaticType ret
            assert orb].
  all: simpl; destruct (firstPass st); simpl; eexists; split; try reflexivity;
         split; reflexivity.
Qed.

(** C5: the literal [1e5] has an exponent and is not written in integer
    syntax, and the checker gives it the type [integer], without a
    diagnostic. *)
Theorem numericLiteral_exponent_is_integer id names st :
  exists st',
    visit (NumericLiteral id (Some "1e5")) names st = Ok (names, st') /\
    result st' = Integer /\ errorLog st' = errorLog st.
Proof. exact (numericLiteral_result id (Some "1e5") names st). Qed.

End NumericLiteral.

Example numericLiteral_decimal :
  exists st', visit (NumericLiteral 0 (Some "42")) [] pass2World = Ok ([], st')
              /\ result st' = Integer.
Proof. eexists. split; [vm_compute; reflexivity|reflexivity]. Qed.

Example numericLiteral_hexadecimal :
  exists st', visit (NumericLiteral 0 (Some "0x1F")) [] pass2World = Ok ([], st')
              /\ result st' = Integer.
Proof. eexists. split; [vm_compute; reflexivity|reflexivity]. Qed.

Example numericLiteral_point :
  exists st', visit (NumericLiteral 0 (Some "1.5")) [] pass2World = Ok ([], st')
              /\ result st' = Float.
Proof. eexists. split; [vm_compute; reflexivity|reflexivity]. Qed.

Example numericLiteral_signed_exponent :
  exists st', visit (NumericLiteral 0 (Some "1e+5")) [] pass2World = Ok ([], st')
              /\ result st' = Float.
Proof. eexists. split; [vm_compute; reflexivity|reflexivity]. Qed.

Example numericLiteral_capital_exponent :
  exists st', visit (NumericLiteral 0 (Some "1E+5")) [] pass2World = Ok ([], st')
              /\ result st' = Any
              /\ errorLog st' = [Message "bad numeric literal" 0].
Proof. eexists. split; [vm_compute; reflexivity|split; reflexivity]. Qed.

(* ================================================================= *)
(** ** Optional types in branches (claim C1) *)

Section Narrowing.

Context `{External}.

Notation "'let*' x ':=' m 'in' k" := (bind m (fun x => k))
  (at level 10, x pattern, m at level 100, k at level 200).
Notation "m ';;' k" := (bind m (fun _ => k))
  (at level 100, k at level 200, right associativity).

Lemma bind_assoc {A B C} (m : M A) (k : A -> M B) (k' : B -> M C) st :
  bind (bind m k) k' st = bind m (fun a => bind (k a) k') st.
Proof. unfold bind. destruct (m st) as [[a st1]|e]; reflexivity. Qed.

(** Reading an identifier gives the type recorded for the name. *)
Lemma identifier_reads_recorded_type id name names info st :
  String.eqb name "undefined" = false ->
  lookup name names = Some info ->
  isTypeName info = false ->
  identifier id name names st =
  Ok (names,
      if firstPass st then withResult (type info) st
      else withStaticTypes (<[id := type info]> (staticTypes st))
             (withResult (type info) st)).
Proof.
  intros Hn Hl Ht. unfold identifier. rewrite Hn, Hl.
  cbv [bind assert setResult modify getResult thisAddStaticType getFirstPass addStaticType
       ret]. rewrite Ht. simpl. destruct (firstPass st); reflexivity.
Qed.

Lemma lookup_in_block name names :
  lookup name (makerBlock names) = lookup name names.
Proof.
  unfold makerBlock. cbn [lookup emptyScope elements]. rewrite lookup_empty. reflexivity.
Qed.

(** A block [{ x }] in pass 2: the identifier gets the recorded type. *)
Lemma block_reads_recorded_type blockId stmtId id name names info st :
  String.eqb name "undefined" = false ->
  lookup name names = Some info ->
  isTypeName info = false ->
  firstPass st = false ->
  exists st',
    visit (BlockStatement blockId 0 [ExpressionStatement stmtId (Identifier id name None)])
      names st = Ok (names, st') /\
    firstPass st' = false /\
    staticTypes st' = <[id := type info]> (staticTypes st).
Proof.
  intros Hn Hl Ht Hp. cbn [visit]. unfold ConstructorChecker_nested, blockStatement.
  cbn [visitAll visit]. unfold expressionStatement. cbn [visit].
  assert (Hi : forall s, firstPass s = false ->
            identifier id name (makerBlock names) s =
            Ok (makerBlock names,
                withStaticTypes (<[id := type info]> (staticTypes s))
                  (withResult (type info) s))).
  { intros s Hs. rewrite (identifier_reads_recorded_type _ _ _ info) by
      (try rewrite lookup_in_block; assumption). rewrite Hs. reflexivity. }
  unfold get at 1; unfold bind at 1.
  destruct (constructorChecker st) eqn:Hcc.
  all: cbv [bind assertSyntax assert modifyConstructorChecker modify ret getFirstPass
            addNameTable]; cbn [Nat.eqb].
  all: rewrite Hi by (simpl; exact Hp); simpl; rewrite Hp; simpl.
  all: eexists; split; [reflexivity|split; [exact Hp|reflexivity]].
Qed.

(** The test [x != undefined] on an optional [x], in pass 2, followed by the
    rest [k] of the method. *)
Lemma test_against_undefined T info names st :
  lookup "x" names = Some info ->
  isTypeName info = false ->
  type info = OptionalT T ->
  firstPass st = false ->
  exists st1,
    firstPass st1 = false /\
    forall B (k : NameTable -> M B),
      (let* names1 :=
         visit (BinaryExpression 1 "!=" (Identifier 2 "x" None)
                  (Identifier 3 "undefined" None)) names in
       let* r := getResult in
       addCoercionForBoolean 1 r ;; k names1) st = k names st1.
Proof.
  intros Hl Ht HT Hp. cbn [visit]. unfold binaryExpression.
  cbn [String.eqb Ascii.eqb Bool.eqb opIn existsb orb]. cbn [visit].
  pose proof (identifier_reads_recorded_type 2 "x" names info st eq_refl Hl Ht) as Hx.
  rewrite Hp, HT in Hx.
  destruct (isSubtype (classes st) (OptionalT T) Null
            || isSubtype (classes st) Null (OptionalT T)) eqn:Hs;
    destruct (isPrimitiveType BooleanT) eqn:Hb.
  all: eexists; split; [|intros B k; rewrite !bind_assoc; rewrite (bind_ok _ _ _ _ _ Hx);
    cbv [identifier bind getResult setResult modify thisAddStaticType getFirstPass
         addStaticType ret subtype invalidOperandsMessage toString assert
         addCoercionForBoolean addCoercion addCoercionFlag strictEq];
    repeat (progress (simpl; rewrite ?Hp, ?Hs, ?Hb)); reflexivity].
  all: exact Hp.
Qed.

(** C1: in pass 2, for [x] of the optional type of [T], in
    [if (x != undefined) { x } else { x }] the checker gives the identifier
    the declared optional type in the positive branch (where the claim gives
    [T]) and in the complementary branch (where the claim gives [null]). *)
Theorem optional_identifier_is_not_narrowed T info names st :
  lookup "x" names = Some info ->
  isTypeName info = false ->
  type info = OptionalT T ->
  firstPass st = false ->
  exists st',
    visit ifNotUndefined names st = Ok (names, st') /\
    staticTypes st' !! 6%nat = Some (OptionalT T) /\
    staticTypes st' !! 9%nat = Some (OptionalT T).
Proof.
  intros Hl Ht HT Hp. unfold ifNotUndefined.
  cbn [visit]. unfold ConstructorChecker_nested at 1, ifStatement. cbn [nodeId].
  assert (Hbody : forall s, firstPass s = false ->
            exists s',
              (let* names1 :=
                 visit (BinaryExpression 1 "!=" (Identifier 2 "x" None)
                          (Identifier 3 "undefined" None)) names in
               let* r := getResult in
               addCoercionForBoolean 1 r ;;
               let* names2 :=
                 visit (BlockStatement 4 0 [ExpressionStatement 5 (Identifier 6 "x" None)])
                   names1 in
               visit (BlockStatement 7 0 [ExpressionStatement 8 (Identifier 9 "x" None)])
                 names2) s = Ok (names, s') /\
              staticTypes s' !! 6%nat = Some (OptionalT T) /\
              staticTypes s' !! 9%nat = Some (OptionalT T)).
  { intros s Hs.
    destruct (test_against_undefined T info names s Hl Ht HT Hs) as (s1 & Hp1 & Htest).
    destruct (block_reads_recorded_type 4 5 6 "x" names info s1 eq_refl Hl Ht Hp1)
      as (s2 & E2 & Hp2 & Hs2).
    destruct (block_reads_recorded_type 7 8 9 "x" names info s2 eq_refl Hl Ht Hp2)
      as (s3 & E3 & Hp3 & Hs3).
    exists s3. rewrite Htest, (bind_ok _ _ _ _ _ E2), E3.
    split; [reflexivity|]. rewrite Hs3, Hs2, HT. split.
    - rewrite lookup_insert_ne by discriminate. apply lookup_insert_eq.
    - apply lookup_insert_eq. }
  unfold get at 1; unfold bind at 1.
  destruct (constructorChecker st) eqn:Hcc.
  - unfold modifyConstructorChecker at 1, modify at 1. unfold bind at 1.
    match goal with
    | |- context [bind _ _ ?s] =>
        destruct (Hbody s) as (s' & E & H6 & H9); [exact Hp|]
    end.
    rewrite (bind_ok _ _ _ _ _ E).
    eexists. split; [reflexivity|]. simpl. split; assumption.
  - destruct (Hbody st Hp) as (s' & E & H6 & H9).
    exists s'. split; [exact E|]. split; assumption.
Qed.

End Narrowing.

(** [x: integer | undefined]. *)
Lemma optional_identifier_is_not_narrowed_witness :
  lookup "x" optionalXNames = Some (makerInfo (OptionalT Integer)) /\
  firstPass pass2World = false /\
  exists st',
    visit ifNotUndefined optionalXNames pass2World = Ok (optionalXNames, st') /\
    staticTypes st' !! 6%nat = Some (OptionalT Integer) /\
    staticTypes st' !! 9%nat = Some (OptionalT Integer).
Proof.
  split; [reflexivity|]. split; [reflexivity|].
  exact (optional_identifier_is_not_narrowed (H := specExternal) Integer
           (makerInfo (OptionalT Integer)) optionalXNames pass2World
           eq_refl eq_refl eq_refl eq_refl).
Defined.

(** The first function of the test "optional types are flow-sensitive" of the
    repository does not pass the checker: the initialisers [x] have the
    optional type in both branches. *)
Example flow_sensitive_test_fails :
  thrownLog (typecheck flowSensitiveTest (makerGlobal []) None pass1World)
  = Some [Message "Type 'optional' is not assignable to type 'integer'" 19;
          Message "Type 'optional' is not assignable to type 'null'" 27].
Proof. vm_compute. reflexivity. Qed.

Example while_body_reads_optional_type :
  exists st',
    visit whileNotUndefined optionalXNames pass2World = Ok (optionalXNames, st') /\
    staticTypes st' !! 6%nat = Some (OptionalT Integer).
Proof. eexists. split; [vm_compute; reflexivity|vm_compute; reflexivity]. Qed.

(* ================================================================= *)
(** ** Relations that every method of the checker preserves *)

Create HintDb pres discriminated.

Section Invariant.

Context `{External}.

Variable R : Checker -> Checker -> Prop.

Hypothesis R_refl : forall st, R st st.
Hypothesis R_trans : forall st1 st2 st3, R st1 st2 -> R st2 st3 -> R st1 st3.
Hypothesis R_result : forall t st, R st (withResult t st).
Hypothesis R_log : forall e st, R st (withErrorLog (errorLog st ++ [e]) st).
Hypothesis R_staticType :
  forall n t st, R st (withStaticTypes (<[n := t]> (staticTypes st)) st).
Hypothesis R_coercionFlag :
  forall n st, firstPass st = false ->
    R st (withCoercionFlags (<[n := true]> (coercionFlags st)) st).
Hypothesis R_nameTable :
  forall n t st, R st (withNameTables (<[n := t]> (nameTables st)) st).
Hypothesis R_inExport : forall b st, R st (withInExport b st).
Hypothesis R_newClass :
  forall c st, firstPass st = true -> R st (withClasses (classes st ++ [c]) st).
Hypothesis R_setClass :
  forall r c st, firstPass st = true -> R st (withClasses (<[r := c]> (classes st)) st).
Hypothesis R_nested :
  forall p A (m : M A), preserves R p m -> preserves R p (ConstructorChecker_nested m).
Hypothesis R_superCalled :
  forall st,
    R st (withConstructorChecker
            (option_map (fun c => mkConstructorState true (toplevel c) (properties c))
               (constructorChecker st)) st).
Hypothesis R_propertySet :
  forall name st,
    R st (withConstructorChecker
            (option_map
               (fun c => mkConstructorState (hasSuperCall c) (toplevel c)
                           (propertiesSet name true (properties c)))
               (constructorChecker st)) st).
Hypothesis R_validator :
  forall clazz st v,
    R (newConstructorChecker clazz st) v -> R st (afterConstructorChecker st v).

Lemma pres_ret p {A} (a : A) : preserves R p (ret a).
Proof. intros st Hp. split; [apply R_refl|exact Hp]. Qed.

Lemma pres_throw_error p {A} (msg : string) : preserves R p (@throw _ A (ThrownError msg)).
Proof. intros st Hp. reflexivity. Qed.

Lemma pres_throw_other p {A} (tag : nat) : preserves R p (@throw _ A (ThrownOther tag)).
Proof. intros st Hp. reflexivity. Qed.

Lemma pres_bind p {A B} (m : M A) (k : A -> M B) :
  preserves R p m -> (forall a, preserves R p (k a)) -> preserves R p (bind m k).
Proof.
  intros Hm Hk st Hp. unfold bind. specialize (Hm st Hp).
  destruct (m st) as [[a st1]|e]; [|exact Hm].
  destruct Hm as [R1 Hp1]. specialize (Hk a st1 Hp1).
  destruct (k a st1) as [[b st2]|e]; [|exact Hk].
  destruct Hk as [R2 Hp2]. split; [exact (R_trans _ _ _ R1 R2)|exact Hp2].
Qed.

(** Reading [this.firstPass] in pass [p] gives [p]. *)
Lemma pres_bind_getFirstPass p {B} (k : bool -> M B) :
  preserves R p (k p) -> preserves R p (bind getFirstPass k).
Proof.
  intros Hk st Hp. unfold bind, getFirstPass. rewrite Hp. exact (Hk st Hp).
Qed.

Lemma pres_modify p (f : Checker -> Checker) :
  (forall st, firstPass st = p -> R st (f st)) ->
  (forall st, firstPass (f st) = firstPass st) -> preserves R p (modify f).
Proof.
  intros HR Hf st Hp. split; [apply HR; exact Hp|rewrite Hf; exact Hp].
Qed.

Lemma pres_read p {A} (f : Checker -> A) : preserves R p (fun st => Ok (f st, st)).
Proof. intros st Hp. split; [apply R_refl|exact Hp]. Qed.

Lemma pres_get p : preserves R p get.
Proof. apply (pres_read p (fun st => st)). Qed.

Lemma pres_getResult p : preserves R p getResult.
Proof. apply (pres_read p result). Qed.

Lemma pres_getFirstPass p : preserves R p getFirstPass.
Proof. apply (pres_read p firstPass). Qed.

Lemma pres_subtype p s t : preserves R p (subtype s t).
Proof. apply (pres_read p (fun st => isSubtype (classes st) s t)). Qed.

Lemma pres_consistent p s t : preserves R p (consistent s t).
Proof. apply (pres_read p (fun st => isConsistent (classes st) s t)). Qed.

Lemma pres_toString p t : preserves R p (toString t).
Proof. apply (pres_read p (fun st => typeToString (classes st) t)). Qed.

Lemma pres_getStaticType p n : preserves R p (getStaticType n).
Proof. apply (pres_read p (fun st => staticTypes st !! n)). Qed.

Lemma pres_getInstance p t : preserves R p (getInstance t).
Proof.
  intros st Hp. unfold getInstance.
  destruct t; try (split; [apply R_refl|exact Hp]).
  destruct (classes st !! ref); split; try apply R_refl; exact Hp.
Qed.

Lemma pres_setResult p t : preserves R p (setResult t).
Proof. apply pres_modify; [intros; apply R_result|reflexivity]. Qed.

Lemma pres_setInstance r c : preserves R true (setInstance r c).
Proof. apply pres_modify; [intros; apply R_setClass; assumption|reflexivity]. Qed.

Lemma pres_makerInstanceType n s : preserves R true (makerInstanceType n s).
Proof. intros st Hp. split; [apply R_newClass; exact Hp|exact Hp]. Qed.

Lemma pres_addStaticType p n t : preserves R p (addStaticType n t).
Proof. apply pres_modify; [intros; apply R_staticType|reflexivity]. Qed.

Lemma pres_addCoercionFlag n : preserves R false (addCoercionFlag n true).
Proof. apply pres_modify; [intros; apply R_coercionFlag; assumption|reflexivity]. Qed.

Lemma pres_addNameTable p n t : preserves R p (addNameTable n t).
Proof. apply pres_modify; [intros; apply R_nameTable|reflexivity]. Qed.

Lemma pres_withInExport p b : preserves R p (modify (withInExport b)).
Proof. apply pres_modify; [intros; apply R_inExport|reflexivity]. Qed.

Lemma pres_superCalled p :
  preserves R p
    (modifyConstructorChecker (fun c => mkConstructorState true (toplevel c) (properties c))).
Proof. apply pres_modify; [intros; apply R_superCalled|reflexivity]. Qed.

Lemma pres_propertySet p name :
  preserves R p
    (modifyConstructorChecker
       (fun c => mkConstructorState (hasSuperCall c) (toplevel c)
                   (propertiesSet name true (properties c)))).
Proof. apply pres_modify; [intros; apply R_propertySet|reflexivity]. Qed.

Lemma pres_logPush p msg n :
  preserves R p (modify (fun st => withErrorLog (logPush msg n (errorLog st)) st)).
Proof. apply pres_modify; [intros; apply R_log|reflexivity]. Qed.

Lemma pres_logAdd p e file :
  preserves R p (modify (fun st => withErrorLog (logAdd e file (errorLog st)) st)).
Proof. apply pres_modify; [intros; apply R_log|reflexivity]. Qed.

Lemma pres_assert p b msg n : preserves R p (assert b msg n).
Proof.
  intros st Hp. unfold assert. destruct b.
  - split; [apply R_refl|exact Hp].
  - split; [apply R_log|exact Hp].
Qed.

#[local] Hint Resolve pres_ret pres_throw_error pres_throw_other pres_get pres_getResult pres_getFirstPass
  pres_subtype pres_consistent pres_toString pres_getStaticType pres_getInstance
  pres_setResult pres_setInstance pres_makerInstanceType pres_addStaticType
  pres_addCoercionFlag pres_addNameTable pres_withInExport pres_superCalled
  pres_propertySet pres_logPush pres_logAdd pres_assert R_nested : pres.

(** One step of the proof that a method preserves [R]: a primitive of the
    monad, a sequence, the reading of the pass, or a case distinction. *)
Ltac pres_step :=
  match goal with
  | |- preserves _ _ (bind getFirstPass _) =>
      apply pres_bind_getFirstPass;
      try match goal with |- preserves _ ?p _ => is_var p; destruct p end;
      cbn [negb andb orb]
  | |- preserves _ _ (bind _ _) => apply pres_bind; [| intros ?]
  | |- preserves _ _ (if ?c then _ else _) => destruct c
  | |- preserves _ _ (match ?x with _ => _ end) => destruct x
  | |- preserves _ _ (let (_, _) := ?x in _) => destruct x
  | |- preserves _ _ _ => solve [auto 1 with pres]
  | |- preserves _ _ _ => progress cbv zeta
  end.

Ltac pres := repeat pres_step.

Lemma pres_assertSyntax p b n : preserves R p (assertSyntax b n).
Proof. unfold assertSyntax. pres. Qed.

Lemma pres_assertVariable p n : preserves R p (assertVariable n).
Proof. unfold assertVariable. pres. Qed.

Lemma pres_thisAddStaticType p n t : preserves R p (thisAddStaticType n t).
Proof. unfold thisAddStaticType. pres. Qed.

Lemma pres_addCoercion p n t : preserves R p (addCoercion n t).
Proof. unfold addCoercion. pres. Qed.

#[local] Hint Resolve pres_assertSyntax pres_assertVariable pres_thisAddStaticType
  pres_addCoercion : pres.

Lemma pres_addCoercionIfAny p n t : preserves R p (addCoercionIfAny n t).
Proof. unfold addCoercionIfAny. pres. Qed.

Lemma pres_addCoercionForBoolean p n t : preserves R p (addCoercionForBoolean n t).
Proof. unfold addCoercionForBoolean. pres. Qed.

Lemma pres_isConsistentOnFirstPass p s t : preserves R p (isConsistentOnFirstPass s t).
Proof. unfold isConsistentOnFirstPass. pres. Qed.

Lemma pres_assertLvalue p n t : preserves R p (assertLvalue n t).
Proof. unfold assertLvalue. pres. Qed.

Lemma pres_invalidOperandMessage p op t : preserves R p (invalidOperandMessage op t).
Proof. unfold invalidOperandMessage. pres. Qed.

Lemma pres_invalidOperandsMessage p op s t : preserves R p (invalidOperandsMessage op s t).
Proof. unfold invalidOperandsMessage. pres. Qed.

#[local] Hint Resolve pres_addCoercionIfAny pres_addCoercionForBoolean
  pres_isConsistentOnFirstPass pres_assertLvalue pres_invalidOperandMessage
  pres_invalidOperandsMessage : pres.

(** The methods preserve [R] when [this.visit] does so on the nodes below
    the one at hand. *)
Section Methods.

Variable visit : Visitor.
Variable k : nat.
Hypothesis visit_pres :
  forall p n, (size n < k)%nat -> forall names, preserves R p (visit n names).

Ltac smaller :=
  simpl in *; unfold sizeL, sizeO in *; simpl in *; unfold sizeL, sizeO in *; lia.

Ltac pres_visit :=
  repeat first
    [ pres_step
    | match goal with
      | |- preserves _ _ (visit _ _) => apply visit_pres; smaller
      end ].

Lemma pres_visitAll p body names :
  (sizeL size body < k)%nat -> preserves R p (visitAll visit body names).
Proof.
  revert names. induction body as [|n body IH]; intros names Hs; simpl.
  - pres.
  - pres_visit. apply IH. smaller.
Qed.

Lemma pres_visitOptional p o names :
  (sizeO size o < k)%nat -> preserves R p (visitOptional visit o names).
Proof. intros Hs. unfold visitOptional. destruct o; pres_visit. Qed.

Lemma pres_program p id body names :
  (sizeL size body < k)%nat -> preserves R p (program visit id body names).
Proof. intros Hs. unfold program. pres_visit. apply pres_visitAll. exact Hs. Qed.

Lemma pres_callImporter p id importKind source : preserves R p (callImporter id importKind source).
Proof.
  unfold callImporter. pres.
Qed.

Lemma pres_importSpecifiers p source imported specifiers env :
  preserves R p (importSpecifiers source imported specifiers env).
Proof.
  revert env. induction specifiers as [|spec rest IH]; intros env; simpl.
  - pres.
  - apply pres_bind; [unfold importSpecifier; pres | intros; apply IH].
Qed.

Lemma pres_importDeclaration p id importKind source specifiers env :
  preserves R p (importDeclaration id importKind source specifiers env).
Proof.
  unfold importDeclaration. pres.
  - apply pres_callImporter.
  - apply pres_importSpecifiers.
Qed.

Lemma pres_whileStatement p test body names :
  (size test + size body < k)%nat -> preserves R p (whileStatement visit test body names).
Proof. intros Hs. unfold whileStatement. pres_visit. Qed.

Lemma pres_ifStatement p test consequent alternate names :
  (size test + size consequent + sizeO size alternate < k)%nat ->
  preserves R p (ifStatement visit test consequent alternate names).
Proof. intros Hs. unfold ifStatement. pres_visit. Qed.

Lemma pres_forStatement p id init test update body names :
  (sizeO size init + sizeO size test + sizeO size update + size body < k)%nat ->
  preserves R p (forStatement visit id init test update body names).
Proof. intros Hs. unfold forStatement, visitOptional. pres_visit. Qed.

Lemma pres_blockStatement p id directives body names :
  (sizeL size body < k)%nat -> preserves R p (blockStatement visit id directives body names).
Proof. intros Hs. unfold blockStatement. pres_visit. apply pres_visitAll. exact Hs. Qed.

Lemma pres_returnStatementArg p id argument names :
  (sizeO size argument < k)%nat -> preserves R p (returnStatementArg visit id argument names).
Proof. intros Hs. unfold returnStatementArg. pres_visit. Qed.

Lemma pres_functionParameters p id params names :
  (sizeL size params < k)%nat -> preserves R p (functionParameters visit id params names).
Proof.
  revert names. induction params as [|prm params IH]; intros names Hs; simpl.
  - pres.
  - pres_visit. all: apply IH; smaller.
Qed.

Lemma pres_inParent p (f : NameTable -> M NameTable) env :
  (forall names, preserves R p (f names)) -> preserves R p (inParent f env).
Proof. intros Hf. unfold inParent. pres; apply Hf. Qed.

Lemma pres_functionDeclarationPass1 p id isClassMethod generator async params rt body
    nodeIdent names :
  (sizeL size params + sizeO size rt + size body < k)%nat ->
  preserves R p (functionDeclarationPass1 visit id isClassMethod generator async params rt body
               nodeIdent names).
Proof.
  intros Hs. unfold functionDeclarationPass1.
  apply pres_bind; [pres|intros _].
  apply pres_bind; [pres|intros _].
  apply pres_bind; [apply pres_functionParameters; smaller|intros [paramTypes funcEnv1]].
  apply pres_bind.
  { destruct rt as [typeAnno|]; pres. apply pres_inParent. intros.
    apply visit_pres. smaller. }
  intros funcEnv3.
  apply pres_bind; [pres|intros _].
  apply pres_bind.
  { destruct body; try (apply pres_returnStatementArg; smaller).
    apply visit_pres. smaller. }
  intros funcEnv4. pres.
Qed.

Lemma pres_functionDeclarationPass2 p id isClassMethod params body names :
  (sizeL size params + size body < k)%nat ->
  preserves R p (functionDeclarationPass2 visit id isClassMethod params body names).
Proof.
  intros Hs. unfold functionDeclarationPass2.
  apply pres_bind; [apply pres_functionParameters; smaller|intros [paramTypes funcEnv1]].
  pres_visit.
Qed.

Ltac pres_method :=
  repeat first
    [ pres_step
    | match goal with
      | |- preserves _ _ (visit _ _) => apply visit_pres; smaller
      | |- preserves _ _ (visitAll _ _ _) => apply pres_visitAll; smaller
      | |- preserves _ _ (visitOptional _ _ _) => apply pres_visitOptional; smaller
      | |- preserves _ _ (functionParameters _ _ _ _) => apply pres_functionParameters; smaller
      | |- preserves _ _ (returnStatementArg _ _ _ _) => apply pres_returnStatementArg; smaller
      | |- preserves _ _ (functionDeclarationPass1 _ _ _ _ _ _ _ _ _ _) =>
          apply pres_functionDeclarationPass1; smaller
      | |- preserves _ _ (functionDeclarationPass2 _ _ _ _ _ _) =>
          apply pres_functionDeclarationPass2; smaller
      end ].

Lemma pres_functionDeclaration p id ident params rt body generator async names :
  (sizeL size params + sizeO size rt + size body < k)%nat ->
  preserves R p (functionDeclaration visit id ident params rt body generator async names).
Proof. intros Hs. unfold functionDeclaration. pres_method. Qed.

Lemma pres_arrowFunctionExpression p id params rt body generator async names :
  (sizeL size params + sizeO size rt + size body < k)%nat ->
  preserves R p (arrowFunctionExpression visit id params rt body generator async names).
Proof. intros Hs. unfold arrowFunctionExpression. pres_method. Qed.

Lemma pres_checkVariableDeclarator p id lvalue init isConstDecl names :
  (size lvalue + sizeO size init < k)%nat ->
  preserves R p (checkVariableDeclarator visit id lvalue init isConstDecl names).
Proof. intros Hs. unfold checkVariableDeclarator. pres_method. Qed.

Lemma pres_isConstFunctionDeclaration p declKind declarations names :
  (sizeL size declarations < k)%nat ->
  preserves R p (isConstFunctionDeclaration visit declKind declarations names).
Proof. intros Hs. unfold isConstFunctionDeclaration. pres_method. Qed.

Lemma pres_variableDeclarators p isConstDecl declarations names :
  (sizeL size declarations < k)%nat ->
  preserves R p (variableDeclarators visit isConstDecl declarations names).
Proof.
  revert names. induction declarations as [|d ds IH]; intros names Hs; simpl.
  - pres.
  - apply pres_bind; [|intros; apply IH; smaller].
    destruct d; pres. apply pres_checkVariableDeclarator. smaller.
Qed.

Lemma pres_variableDeclaration p id declKind declarations names :
  (sizeL size declarations < k)%nat ->
  preserves R p (variableDeclaration visit id declKind declarations names).
Proof.
  intros Hs. unfold variableDeclaration.
  apply pres_bind; [apply pres_isConstFunctionDeclaration; exact Hs|intros [b n]].
  pres. apply pres_variableDeclarators. exact Hs.
Qed.

Lemma pres_unaryExpression p id op prefix argument names :
  (size argument < k)%nat ->
  preserves R p (unaryExpression visit id op prefix argument names).
Proof. intros Hs. unfold unaryExpression. pres_method. Qed.

Lemma pres_updateExpression p id op argument names :
  (size argument < k)%nat ->
  preserves R p (updateExpression visit id op argument names).
Proof. intros Hs. unfold updateExpression. pres_method. Qed.

Lemma pres_instanceofExpression p lhs rhs names :
  (size lhs + size rhs < k)%nat ->
  preserves R p (instanceofExpression visit lhs rhs names).
Proof. intros Hs. unfold instanceofExpression. pres_method. Qed.

Lemma pres_binaryExpression p id op lhs rhs names :
  (size lhs + size rhs < k)%nat ->
  preserves R p (binaryExpression visit id op lhs rhs names).
Proof.
  intros Hs. unfold binaryExpression.
  destruct (String.eqb op "instanceof"); [apply pres_instanceofExpression; exact Hs|].
  pres_method.
Qed.

Lemma pres_checkMemberExpr p id object property computed readonly names :
  (size object + size property < k)%nat ->
  preserves R p (checkMemberExpr visit id object property computed readonly names).
Proof. intros Hs. unfold checkMemberExpr. pres_method. Qed.

Lemma pres_memberExpression p id object property computed names :
  (size object + size property < k)%nat ->
  preserves R p (memberExpression visit id object property computed names).
Proof.
  intros Hs. unfold memberExpression.
  apply pres_bind; [apply pres_checkMemberExpr; exact Hs|intros [b n]]. pres.
Qed.

Lemma pres_checkMethodExpr p object property computed names :
  (size object + size property < k)%nat ->
  preserves R p (checkMethodExpr visit object property computed names).
Proof. intros Hs. unfold checkMethodExpr. pres_method. Qed.

Lemma pres_memberAssignmentExpression p id op leftId object property computed rhs names :
  (size object + size property + size rhs < k)%nat ->
  preserves R p (memberAssignmentExpression visit id op leftId object property computed rhs names).
Proof.
  intros Hs. unfold memberAssignmentExpression.
  apply pres_bind; [pres|intros _].
  apply pres_bind; [apply pres_checkMemberExpr; smaller|intros [checked names1]].
  pres_method.
Qed.

Lemma pres_ConstructorChecker_memberAssignmentExpression p id op leftId object property
    computed rhs names :
  (size object + size property + size rhs < k)%nat ->
  preserves R p (ConstructorChecker_memberAssignmentExpression visit id op leftId object
               property computed rhs names).
Proof.
  intros Hs. unfold ConstructorChecker_memberAssignmentExpression.
  apply pres_bind; [apply pres_memberAssignmentExpression; exact Hs|intros names1].
  pres.
Qed.

Lemma pres_assignmentExpression p id op lhs rhs names :
  (size lhs + size rhs < k)%nat ->
  preserves R p (assignmentExpression visit id op lhs rhs names).
Proof.
  intros Hs. unfold assignmentExpression.
  destruct lhs;
    try (apply pres_ConstructorChecker_memberAssignmentExpression; smaller);
    pres_method.
Qed.

Lemma pres_logicalExpression p id op lhs rhs names :
  (size lhs + size rhs < k)%nat ->
  preserves R p (logicalExpression visit id op lhs rhs names).
Proof. intros Hs. unfold logicalExpression. pres_method. Qed.

Lemma pres_conditionalExpression p id test consequent alternate names :
  (size test + size consequent + size alternate < k)%nat ->
  preserves R p (conditionalExpression visit id test consequent alternate names).
Proof. intros Hs. unfold conditionalExpression. pres_method. Qed.

Lemma pres_callExpressionArg p arg paramType names :
  (size arg < k)%nat -> preserves R p (callExpressionArg visit arg paramType names).
Proof. intros Hs. unfold callExpressionArg. pres_method. Qed.

Lemma pres_callExpressionArgs p args paramTypes names :
  (sizeL size args < k)%nat -> preserves R p (callExpressionArgs visit args paramTypes names).
Proof.
  revert paramTypes names.
  induction args as [|a args IH]; intros paramTypes names Hs; simpl.
  - pres.
  - destruct paramTypes; pres.
    + apply pres_callExpressionArg. smaller.
    + apply IH. smaller.
Qed.

Lemma pres_checkArguments p id args paramTypes names :
  (sizeL size args < k)%nat -> preserves R p (checkArguments visit id args paramTypes names).
Proof. intros Hs. unfold checkArguments. pres. apply pres_callExpressionArgs. exact Hs. Qed.

Lemma pres_superConstructorCall p t id calleeId args names :
  (sizeL size args < k)%nat ->
  preserves R p (superConstructorCall visit t id calleeId args names).
Proof.
  intros Hs. unfold superConstructorCall. pres. apply pres_checkArguments. exact Hs.
Qed.

Lemma pres_ConstructorChecker_superConstructorCall p t id calleeId args names :
  (sizeL size args < k)%nat ->
  preserves R p (ConstructorChecker_superConstructorCall visit t id calleeId args names).
Proof.
  intros Hs. unfold ConstructorChecker_superConstructorCall. pres.
  apply pres_superConstructorCall. exact Hs.
Qed.

Lemma pres_callExpression p id callee args names :
  (size callee + sizeL size args < k)%nat ->
  preserves R p (callExpression visit id callee args names).
Proof.
  intros Hs. unfold callExpression.
  apply pres_bind.
  { destruct callee; pres. apply pres_checkMethodExpr. smaller. }
  intros [isMethod names1].
  apply pres_bind; [pres_method|intros names2].
  apply pres_bind; [pres|intros r].
  destruct callee;
    try (apply pres_ConstructorChecker_superConstructorCall; smaller);
    destruct r; pres; apply pres_checkArguments; smaller.
Qed.

Lemma pres_visitTypes p params names :
  (sizeL size params < k)%nat -> preserves R p (visitTypes visit params names).
Proof.
  revert names. induction params as [|prm params IH]; intros names Hs; simpl.
  - pres.
  - pres_method. apply IH. smaller.
Qed.

Lemma pres_newArrayExpression p id typeParameters args names :
  (match typeParameters with Some l => sizeL size l | None => 0 end
   + sizeL size args < k)%nat ->
  preserves R p (newArrayExpression visit id typeParameters args names).
Proof.
  intros Hs. unfold newArrayExpression.
  apply pres_bind.
  { destruct typeParameters; pres. apply pres_visitTypes. smaller. }
  intros [typeParams names1].
  apply pres_bind; [pres|intros etype].
  apply pres_bind; [pres|intros ok].
  apply pres_bind; [|intros; pres].
  destruct ok; pres; apply pres_callExpressionArg; smaller.
Qed.

Lemma pres_newExpression p id callee typeParameters args names :
  (match typeParameters with Some l => sizeL size l | None => 0 end
   + sizeL size args < k)%nat ->
  preserves R p (newExpression visit id callee typeParameters args names).
Proof.
  intros Hs. unfold newExpression, newObjectExpression. pres.
  - apply pres_newArrayExpression. exact Hs.
  - apply pres_checkArguments. smaller.
Qed.

Lemma pres_arrayElements p id elements etype names :
  (list_sum (map (fun o => S (sizeO size o)) elements) < k)%nat ->
  preserves R p (arrayElements visit id elements etype names).
Proof.
  revert etype names.
  induction elements as [|e elements IH]; intros etype names Hs; simpl.
  - pres.
  - apply pres_bind; [pres_method|intros [etype1 names1]; apply IH; smaller].
Qed.

Lemma pres_arrayExpression p id elements names :
  (list_sum (map (fun o => S (sizeO size o)) elements) < k)%nat ->
  preserves R p (arrayExpression visit id elements names).
Proof.
  intros Hs. unfold arrayExpression.
  apply pres_bind; [apply pres_arrayElements; exact Hs|intros [etype names1]]. pres.
Qed.

Lemma pres_tsAsExpression p id expression typeAnnotation names :
  (size expression + size typeAnnotation < k)%nat ->
  preserves R p (tsAsExpression visit id expression typeAnnotation names).
Proof. intros Hs. unfold tsAsExpression. pres_method. Qed.

Lemma pres_tsFunctionTypeParameters p parameters names :
  (sizeL size parameters < k)%nat ->
  preserves R p (tsFunctionTypeParameters visit parameters names).
Proof.
  revert names. induction parameters as [|prm ps IH]; intros names Hs; simpl.
  - pres.
  - pres_method. all: apply IH; smaller.
Qed.

Lemma pres_tsFunctionType p parameters typeAnnotation names :
  (sizeL size parameters + sizeO size typeAnnotation < k)%nat ->
  preserves R p (tsFunctionType visit parameters typeAnnotation names).
Proof.
  intros Hs. unfold tsFunctionType.
  apply pres_bind; [apply pres_tsFunctionTypeParameters; smaller|intros [ps names1]].
  pres_method.
Qed.

Lemma pres_tsUnionType p id types env :
  (sizeL size types < k)%nat -> preserves R p (tsUnionType visit id types env).
Proof. intros Hs. unfold tsUnionType. pres_method. Qed.

Lemma pres_exportNamedDeclaration p declaration env :
  (sizeO size declaration < k)%nat ->
  preserves R p (exportNamedDeclaration visit declaration env).
Proof.
  intros Hs. unfold exportNamedDeclaration. pres. apply pres_visitOptional. exact Hs.
Qed.

Lemma pres_checkConstructor p id ref generator async params rt body names :
  (sizeL size params + sizeO size rt + size body < k)%nat ->
  preserves R p (checkConstructor visit id ref generator async params rt body names).
Proof.
  intros Hs st Hp. unfold checkConstructor.
  destruct (classes st !! ref) as [clazz|]; [|reflexivity].
  pose proof (pres_functionDeclarationPass1 p id true generator async params rt body None
                names Hs (newConstructorChecker clazz st) Hp) as Hf.
  destruct (functionDeclarationPass1 _ _ _ _ _ _ _ _ _ _ _) as [[names1 visitor]|e];
    [|exact Hf].
  destruct Hf as [Rv _]. apply R_validator in Rv.
  match goal with
  | |- match ?m _ with _ => _ end => assert (K : preserves R p m) by pres
  end.
  specialize (K (afterConstructorChecker st visitor) Hp).
  match goal with
  | |- match ?x with _ => _ end => destruct x as [[a st']|e]; [|exact K]
  end.
  destruct K as [Ra Hpa]. split; [exact (R_trans _ _ _ Rv Ra)|exact Hpa].
Qed.

Lemma pres_classMethod p id static abstract methodKind key params rt body generator async
    names :
  (sizeL size params + sizeO size rt + size body < k)%nat ->
  preserves R p (classMethod visit id static abstract methodKind key params rt body generator
               async names).
Proof.
  intros Hs. unfold classMethod. pres_method.
  all: try (apply pres_checkConstructor; exact Hs).
Qed.

Lemma pres_classProperty p id static abstract accessibility key value typeAnnotation names :
  (sizeO size typeAnnotation < k)%nat ->
  preserves R p (classProperty visit id static abstract accessibility key value typeAnnotation
               names).
Proof. intros Hs. unfold classProperty. pres_method. Qed.

Lemma pres_classBodyMembers p clazz body classBlock :
  (sizeL size body < k)%nat -> preserves R p (classBodyMembers visit clazz body classBlock).
Proof.
  revert classBlock. induction body as [|b body IH]; intros classBlock Hs; simpl.
  - pres.
  - pres_method. apply IH. smaller.
Qed.

Lemma pres_classBody p body names :
  (sizeL size body < k)%nat -> preserves R p (classBody visit body names).
Proof. intros Hs. unfold classBody. pres. apply pres_classBodyMembers. exact Hs. Qed.

Lemma pres_classDeclaration p id ident superClassName implements abstract body names :
  (size body < k)%nat ->
  preserves R p (classDeclaration visit id ident superClassName implements abstract body names).
Proof. intros Hs. unfold classDeclaration. pres_method. Qed.

End Methods.

(** [this.visit] preserves [R] in either pass. *)
Lemma visit_preserves_below (k : nat) :
  forall p node, (size node < k)%nat -> forall names, preserves R p (visit node names).
Proof.
  induction k as [|k IH]; intros p node Hs names; [lia|].
  destruct node; cbn [visit]; simpl in Hs.
  all: try (apply R_nested).
  all: first
    [ solve [unfold nullLiteral, stringLiteral, booleanLiteral, numericLiteral, identifier,
               emptyStatement, breakStatement, continueStatement, variableDeclarator,
               thisExpression, superExpression, taggedTemplateExpression, tsTypeReference,
               tsNumberKeyword, tsVoidKeyword, tsBooleanKeyword, tsStringKeyword,
               tsObjectKeyword, tsAnyKeyword, tsNullKeyword, tsUndefinedKeyword,
               tsKeyword, tsTypeAliasDeclaration; pres]
    | apply pres_importDeclaration
    | unfold file, expressionStatement, returnStatement, tsTypeAnnotation, tsArrayType;
      solve [pres; apply IH; lia
            | apply (pres_returnStatementArg _ k IH); unfold sizeO in *; lia]
    | apply (pres_program _ k IH); lia
    | apply (pres_exportNamedDeclaration _ k IH); lia
    | apply (pres_whileStatement _ k IH); lia
    | apply (pres_ifStatement _ k IH); lia
    | apply (pres_forStatement _ k IH); lia
    | apply (pres_blockStatement _ k IH); lia
    | apply (pres_classDeclaration _ k IH); lia
    | apply (pres_classBody _ k IH); lia
    | apply (pres_classProperty _ k IH); lia
    | apply (pres_classMethod _ k IH); lia
    | apply (pres_variableDeclaration _ k IH); lia
    | apply (pres_functionDeclaration _ k IH); lia
    | apply (pres_arrowFunctionExpression _ k IH); lia
    | apply (pres_unaryExpression _ k IH); lia
    | apply (pres_updateExpression _ k IH); lia
    | apply (pres_binaryExpression _ k IH); lia
    | apply (pres_assignmentExpression _ k IH); lia
    | apply (pres_logicalExpression _ k IH); lia
    | apply (pres_conditionalExpression _ k IH); lia
    | apply (pres_callExpression _ k IH); lia
    | apply (pres_newExpression _ k IH); lia
    | apply (pres_arrayExpression _ k IH); lia
    | apply (pres_memberExpression _ k IH); lia
    | apply (pres_tsAsExpression _ k IH); lia
    | apply (pres_tsFunctionType _ k IH); lia
    | apply (pres_tsUnionType _ k IH); lia ].
Qed.

Lemma visit_preserves p node names : preserves R p (visit node names).
Proof. apply (visit_preserves_below (S (size node))). lia. Qed.

Lemma memberAssignmentExpression_preserves p id op leftId object property computed rhs
    names :
  preserves R p
    (memberAssignmentExpression visit id op leftId object property computed rhs names).
Proof.
  apply (pres_memberAssignmentExpression visit (S (size object + size property + size rhs)));
    [intros; apply visit_preserves|lia].
Qed.



End Invariant.

(* ================================================================= *)
(** ** What the traversal keeps *)

Section Kept.

Context `{External}.

(** A relation that does not look at the fields of the constructor checker is
    preserved by the methods that count the nesting depth. *)
Lemma nested_preserves (R : Checker -> Checker -> Prop) :
  (forall st, R st st) ->
  (forall st1 st2 st3, R st1 st2 -> R st2 st3 -> R st1 st3) ->
  (forall c st, R st (withConstructorChecker c st)) ->
  forall p A (m : M A), preserves R p m -> preserves R p (ConstructorChecker_nested m).
Proof.
  intros Hrefl Htrans Hcc p A m Hm. unfold ConstructorChecker_nested.
  apply (pres_bind R Htrans); [apply (pres_get R Hrefl)|intros st].
  destruct (constructorChecker st); [|exact Hm].
  apply (pres_bind R Htrans);
    [apply pres_modify; [intros; apply Hcc|reflexivity]|intros _].
  apply (pres_bind R Htrans); [exact Hm|intros r].
  apply (pres_bind R Htrans);
    [apply pres_modify; [intros; apply Hcc|reflexivity]|intros _].
  apply (pres_ret R Hrefl).
Qed.

Lemma appendsToLog_trans st1 st2 st3 :
  appendsToLog st1 st2 -> appendsToLog st2 st3 -> appendsToLog st1 st3.
Proof.
  intros [l1 E1] [l2 E2]. exists (l1 ++ l2). rewrite E2, E1. symmetry. apply app_assoc.
Qed.

Lemma appendsToLog_same st st' : errorLog st' = errorLog st -> appendsToLog st st'.
Proof. intros E. exists []. rewrite E. symmetry. apply app_nil_r. Qed.

Lemma visit_appendsToLog p node names : preserves appendsToLog p (visit node names).
Proof.
  assert (Hrefl : forall st, appendsToLog st st) by (intros; apply appendsToLog_same; reflexivity).
  apply visit_preserves; try exact Hrefl; try exact appendsToLog_trans.
  all: try (intros; apply appendsToLog_same; reflexivity).
  - intros e st. exists [e]. reflexivity.
  - apply nested_preserves; [exact Hrefl|exact appendsToLog_trans|].
    intros; apply appendsToLog_same; reflexivity.
  - intros clazz st v [l E]. exists l. exact E.
Qed.

Lemma keepsFlagsInPass1_trans st1 st2 st3 :
  keepsFlagsInPass1 st1 st2 -> keepsFlagsInPass1 st2 st3 -> keepsFlagsInPass1 st1 st3.
Proof.
  intros [P1 F1] [P2 F2]. split; [congruence|].
  intros Hp. rewrite F2 by congruence. apply F1. exact Hp.
Qed.

Lemma visit_keepsFlagsInPass1 p node names :
  preserves keepsFlagsInPass1 p (visit node names).
Proof.
  assert (Hrefl : forall st, keepsFlagsInPass1 st st) by (intros; split; reflexivity).
  apply visit_preserves; try exact Hrefl; try exact keepsFlagsInPass1_trans.
  all: try (intros; split; reflexivity).
  - intros n st Hp. split; [reflexivity|]. intros Hp1. congruence.
  - apply nested_preserves; [exact Hrefl|exact keepsFlagsInPass1_trans|].
    intros; split; reflexivity.
  - intros clazz st v [_ F]. split; [reflexivity|]. exact F.
Qed.

Lemma keepsClassesInPass2_trans st1 st2 st3 :
  keepsClassesInPass2 st1 st2 -> keepsClassesInPass2 st2 st3 -> keepsClassesInPass2 st1 st3.
Proof.
  intros [P1 F1] [P2 F2]. split; [congruence|].
  intros Hp. rewrite F2 by congruence. apply F1. exact Hp.
Qed.

Lemma visit_keepsClassesInPass2 p node names :
  preserves keepsClassesInPass2 p (visit node names).
Proof.
  assert (Hrefl : forall st, keepsClassesInPass2 st st) by (intros; split; reflexivity).
  apply visit_preserves; try exact Hrefl; try exact keepsClassesInPass2_trans.
  all: try (intros; split; reflexivity).
  - intros c st Hp. split; [reflexivity|]. intros Hp1. congruence.
  - intros r c st Hp. split; [reflexivity|]. intros Hp1. congruence.
  - apply nested_preserves; [exact Hrefl|exact keepsClassesInPass2_trans|].
    intros; split; reflexivity.
  - intros clazz st v [_ F]. split; [reflexivity|]. exact F.
Qed.

Lemma visit_anyState p node names : preserves anyState p (visit node names).
Proof.
  apply visit_preserves; try (intros; exact I).
  apply nested_preserves; intros; exact I.
Qed.

Lemma keepsValidatorRecords_refl c : keepsValidatorRecords c c.
Proof. split; [reflexivity|]. split; intros; assumption. Qed.

Lemma keepsValidatorRecords_trans c1 c2 c3 :
  keepsValidatorRecords c1 c2 -> keepsValidatorRecords c2 c3 -> keepsValidatorRecords c1 c3.
Proof.
  intros (D1 & S1 & P1) (D2 & S2 & P2). split; [congruence|].
  split; [intros Hs; apply S2, S1, Hs|intros name Hn; apply P2, P1, Hn].
Qed.

Lemma sameValidator_refl st : sameValidator st st.
Proof.
  unfold sameValidator. destruct (constructorChecker st); [apply keepsValidatorRecords_refl|exact I].
Qed.

Lemma sameValidator_trans st1 st2 st3 :
  sameValidator st1 st2 -> sameValidator st2 st3 -> sameValidator st1 st3.
Proof.
  unfold sameValidator.
  destruct (constructorChecker st1), (constructorChecker st2), (constructorChecker st3);
    try tauto.
  apply keepsValidatorRecords_trans.
Qed.

Lemma sameValidator_same st st' :
  constructorChecker st' = constructorChecker st -> sameValidator st st'.
Proof.
  intros E. unfold sameValidator. rewrite E.
  destruct (constructorChecker st); [apply keepsValidatorRecords_refl|exact I].
Qed.

Lemma propertiesGet_set name name' props :
  propertiesGet name props = Some true ->
  propertiesGet name (propertiesSet name' true props) = Some true.
Proof.
  unfold propertiesSet. destruct (String.eqb name' "__proto__"); [intros Hn; exact Hn|].
  induction props as [|[k v] props IH]; simpl; [discriminate|].
  destruct (String.eqb k name') eqn:Ek; simpl.
  - destruct (String.eqb k name); [intros _; reflexivity|intros Hn; exact Hn].
  - destruct (String.eqb k name); [intros Hn; exact Hn|exact IH].
Qed.

Lemma sameValidator_nested p A (m : M A) :
  preserves sameValidator p m -> preserves sameValidator p (ConstructorChecker_nested m).
Proof.
  intros Hm st Hp. unfold ConstructorChecker_nested, bind, get.
  destruct (constructorChecker st) as [c|] eqn:Ec; [|exact (Hm st Hp)].
  unfold modifyConstructorChecker, modify. rewrite Ec. cbn [option_map].
  match goal with
  | |- match match m ?s with _ => _ end with _ => _ end =>
      specialize (Hm s Hp); destruct (m s) as [[a st1]|e]; [|exact Hm]
  end.
  destruct Hm as [Hv Hp1]. split; [|exact Hp1].
  unfold sameValidator in *. cbn [constructorChecker withConstructorChecker] in *.
  rewrite Ec. destruct (constructorChecker st1) as [c1|]; [|contradiction].
  cbn [option_map]. destruct Hv as (D & S & P). cbn [toplevel hasSuperCall properties] in *.
  unfold keepsValidatorRecords. cbn [toplevel hasSuperCall properties].
  split; [lia|]. split; [exact S|exact P].
Qed.

Lemma sameValidator_superCalled st :
  sameValidator st
    (withConstructorChecker
       (option_map (fun c => mkConstructorState true (toplevel c) (properties c))
          (constructorChecker st)) st).
Proof.
  unfold sameValidator. cbn [constructorChecker withConstructorChecker].
  destruct (constructorChecker st) as [c|]; [|exact I]. cbn [option_map].
  split; [reflexivity|]. split; [intros _; reflexivity|intros name Hn; exact Hn].
Qed.

Lemma sameValidator_propertySet name st :
  sameValidator st
    (withConstructorChecker
       (option_map
          (fun c => mkConstructorState (hasSuperCall c) (toplevel c)
                      (propertiesSet name true (properties c)))
          (constructorChecker st)) st).
Proof.
  unfold sameValidator. cbn [constructorChecker withConstructorChecker].
  destruct (constructorChecker st) as [c|]; [|exact I]. cbn [option_map].
  split; [reflexivity|]. split; [intros Hs; exact Hs|].
  intros name' Hn. cbn [properties]. apply propertiesGet_set. exact Hn.
Qed.

Ltac sameValidator_side :=
  first [ exact sameValidator_refl | exact sameValidator_trans | exact sameValidator_nested
        | exact sameValidator_superCalled | exact sameValidator_propertySet
        | intros; apply sameValidator_same; reflexivity ].

Lemma visit_sameValidator p node names : preserves sameValidator p (visit node names).
Proof. apply visit_preserves; sameValidator_side. Qed.

Lemma memberAssignmentExpression_sameValidator p id op leftId object property computed rhs
    names :
  preserves sameValidator p
    (memberAssignmentExpression visit id op leftId object property computed rhs names).
Proof. apply memberAssignmentExpression_preserves; sameValidator_side. Qed.












Lemma keepsAnnotations_refl st : keepsAnnotations st st.
Proof. repeat split; intros n Hn; exact Hn. Qed.

Lemma keepsAnnotations_trans st1 st2 st3 :
  keepsAnnotations st1 st2 -> keepsAnnotations st2 st3 -> keepsAnnotations st1 st3.
Proof.
  intros (T1 & F1 & N1) (T2 & F2 & N2).
  repeat split; intros n Hn; [apply T2, T1|apply F2, F1|apply N2, N1]; exact Hn.
Qed.

Lemma visit_keepsAnnotations p node names : preserves keepsAnnotations p (visit node names).
Proof.
  apply visit_preserves; try exact keepsAnnotations_refl; try exact keepsAnnotations_trans.
  all: try (intros; repeat split; intros n0 Hn; exact Hn).
  - intros n t st. repeat split; intros n0 Hn; try exact Hn.
    cbn [staticTypes withStaticTypes]. apply lookup_insert_is_Some.
    destruct (decide (n = n0)); [left; assumption|right; split; assumption].
  - intros n st _. repeat split; intros n0 Hn; try exact Hn.
    cbn [coercionFlags withCoercionFlags].
    destruct (decide (n = n0)) as [->|Hne];
      [apply lookup_insert_eq|rewrite lookup_insert_ne by exact Hne; exact Hn].
  - intros n t st. repeat split; intros n0 Hn; try exact Hn.
    cbn [nameTables withNameTables]. apply lookup_insert_is_Some.
    destruct (decide (n = n0)); [left; assumption|right; split; assumption].
  - apply nested_preserves;
      [exact keepsAnnotations_refl|exact keepsAnnotations_trans|].
    intros; repeat split; intros n0 Hn; exact Hn.
  - intros clazz st v Hv. exact Hv.
Qed.

End Kept.

(* ================================================================= *)
(** ** The constructor validator (claims C3 and C4) *)

Section Constructor.

Context `{External}.



(** *** The keys and the flags of [this.properties] *)




















End Constructor.



(** A property that is declared after the constructor is not a name of the
    class object yet when the constructor is reached. *)
Example property_after_constructor_is_not_checked :
  exists names st,
    typecheck latePropertyProgram (makerGlobal []) None pass1World = Ok (names, st)
    /\ errorLog st = [].
Proof. eexists; eexists. split; [vm_compute; reflexivity|reflexivity]. Qed.

(** The plain object [this.properties] does not take the key [__proto__]. *)
Example proto_property_is_not_checked :
  exists names st,
    typecheck protoPropertyProgram (makerGlobal []) None pass1World = Ok (names, st)
    /\ errorLog st = [].
Proof. eexists; eexists. split; [vm_compute; reflexivity|reflexivity]. Qed.



Example duplicate_super_call_is_reported :
  thrownLog (typecheck duplicateSuperProgram (makerGlobal []) None pass1World)
  = Some [Message "cannot call super() here" 151].
Proof. vm_compute. reflexivity. Qed.

Example single_super_call_is_accepted :
  exists names st,
    typecheck singleSuperProgram (makerGlobal []) None pass1World = Ok (names, st)
    /\ errorLog st = [].
Proof. eexists; eexists. split; [vm_compute; reflexivity|reflexivity]. Qed.

(* ================================================================= *)
(** ** Properties of the traversal *)

Section Traversal.

Context `{External}.

(** X1: the error log only grows: when [visit] returns, the log it leaves is
    the log it found followed by what the visit logged; no diagnostic is ever
    removed or replaced. *)
Theorem visit_appends_to_log node names st names' st' :
  visit node names st = Ok (names', st') ->
  exists l, errorLog st' = errorLog st ++ l.
Proof.
  intros E. pose proof (visit_appendsToLog (firstPass st) node names st eq_refl) as K.
  rewrite E in K. exact (proj1 K).
Qed.

(** X2: pass 1 sets no coercion flag, whatever the node. *)
Theorem pass1_sets_no_coercion_flag node names st names' st' :
  firstPass st = true ->
  visit node names st = Ok (names', st') ->
  coercionFlags st' = coercionFlags st.
Proof.
  intros Hp E. pose proof (visit_keepsFlagsInPass1 true node names st Hp) as K.
  rewrite E in K. destruct K as [[_ F] _]. exact (F Hp).
Qed.

(** X3: pass 2 changes no class object and makes none: the classes are
    complete when pass 1 ends. *)
Theorem pass2_keeps_class_objects node names st names' st' :
  firstPass st = false ->
  visit node names st = Ok (names', st') ->
  classes st' = classes st.
Proof.
  intros Hp E. pose proof (visit_keepsClassesInPass2 false node names st Hp) as K.
  rewrite E in K. destruct K as [[_ F] _]. exact (F Hp).
Qed.

(** X4: a constructor checker leaves every node at the nesting depth at
    which it entered it. *)
Theorem visit_restores_nesting_depth node names st names' st' c :
  constructorChecker st = Some c ->
  visit node names st = Ok (names', st') ->
  exists c', constructorChecker st' = Some c' /\ toplevel c' = toplevel c.
Proof.
  intros Hc E. pose proof (visit_sameValidator (firstPass st) node names st eq_refl) as K.
  rewrite E in K. destruct K as [K _]. unfold sameValidator in K. rewrite Hc in K.
  destruct (constructorChecker st') as [c'|]; [|contradiction].
  exists c'. split; [reflexivity|exact (proj1 K)].
Qed.

(** X5: what a constructor checker has recorded stays recorded: a call of
    [super()] that was counted, and every property that was marked as
    initialised. *)
Theorem validator_records_are_kept node names st names' st' c :
  constructorChecker st = Some c ->
  visit node names st = Ok (names', st') ->
  exists c',
    constructorChecker st' = Some c' /\
    (hasSuperCall c = true -> hasSuperCall c' = true) /\
    (forall name, propertiesGet name (properties c) = Some true ->
                  propertiesGet name (properties c') = Some true).
Proof.
  intros Hc E. pose proof (visit_sameValidator (firstPass st) node names st eq_refl) as K.
  rewrite E in K. destruct K as [K _]. unfold sameValidator in K. rewrite Hc in K.
  destruct (constructorChecker st') as [c'|]; [|contradiction].
  exists c'. split; [reflexivity|exact (proj2 K)].
Qed.

(** X6: [visit] itself throws neither an error log nor a string: what it
    throws is a fatal [Error] or a value of another kind that the importer
    threw. *)
Theorem visit_throws_no_log node names st e :
  visit node names st = Throw e -> otherThrown e = true.
Proof.
  intros E. pose proof (visit_anyState (firstPass st) node names st eq_refl) as K.
  rewrite E in K. exact K.
Qed.

(** X7: the side table only grows: a node that has a static type or a name
    table attached before a visit has one after it, and a coercion flag that
    is set is never cleared. *)
Theorem visit_keeps_annotations node names st names' st' :
  visit node names st = Ok (names', st') ->
  (forall n, is_Some (staticTypes st !! n) -> is_Some (staticTypes st' !! n)) /\
  (forall n, coercionFlags st !! n = Some true -> coercionFlags st' !! n = Some true) /\
  (forall n, is_Some (nameTables st !! n) -> is_Some (nameTables st' !! n)).
Proof.
  intros E. pose proof (visit_keepsAnnotations (firstPass st) node names st eq_refl) as K.
  rewrite E in K. exact (proj1 K).
Qed.

Lemma throwIfError_outcome {A} (a : A) st :
  match throwIfError a st with
  | Ok (_, st') => st' = st /\ errorLog st = []
  | Throw (ThrownLog log) => log <> []
  | Throw _ => False
  end.
Proof.
  unfold throwIfError. destruct (errorLog st) as [|entry log]; simpl.
  - split; reflexivity.
  - discriminate.
Qed.

(** X8: the driver returns only with an empty error log; when it throws an
    error log, the log is not empty ([hasError] holds of it); it throws no
    string. *)
Theorem typecheck_outcome ast names importerFn world :
  match typecheck ast names importerFn world with
  | Ok (_, st') => errorLog st' = []
  | Throw (ThrownLog log) => log <> []
  | Throw e => otherThrown e = true
  end.
Proof.
  unfold typecheck.
  assert (E0 : exists names0 st0,
            (if negb (hasParent names) then addBuiltinTypes (nodeId ast) names
             else ret names) (newTypeChecker importerFn world) = Ok (names0, st0)).
  { destruct (negb (hasParent names)).
    - destruct (addBuiltinTypes_returns (nodeId ast) names (newTypeChecker importerFn world))
        as (n0 & s0 & E & _).
      exists n0, s0. exact E.
    - eexists; eexists; reflexivity. }
  destruct E0 as (names0 & st0 & E0).
  rewrite (bind_ok _ _ _ _ _ E0).
  erewrite bind_ok by reflexivity. erewrite bind_ok by reflexivity.
  unfold bind at 1.
  match goal with
  | |- match match visit ?n ?t ?s with _ => _ end with _ => _ end =>
      pose proof (visit_anyState (firstPass s) n t s eq_refl) as K1;
      destruct (visit n t s) as [[names1 st1]|e1]
  end; [|destruct e1; first [discriminate K1|exact K1] ].
  unfold bind at 1.
  pose proof (throwIfError_outcome names1 st1) as T1.
  destruct (throwIfError names1 st1) as [[names1' st1']|e1];
    [|destruct e1; first [contradiction|exact T1] ].
  destruct T1 as [-> _].
  erewrite bind_ok by reflexivity. erewrite bind_ok by reflexivity.
  unfold bind at 1.
  match goal with
  | |- match match visit ?n ?t ?s with _ => _ end with _ => _ end =>
      pose proof (visit_anyState (firstPass s) n t s eq_refl) as K2;
      destruct (visit n t s) as [[names2 st2]|e2]
  end; [|destruct e2; first [discriminate K2|exact K2] ].
  pose proof (throwIfError_outcome names2 st2) as T2.
  destruct (throwIfError names2 st2) as [[names2' st2']|e2];
    [|destruct e2; first [contradiction|exact T2] ].
  destruct T2 as [-> T2]. exact T2.
Qed.

End Traversal.

(** The name [z] is unknown in pass 2: one diagnostic is appended. *)
Lemma visit_appends_to_log_witness :
  exists names' st',
    visit (Identifier 0 "z" None) [] pass2World = Ok (names', st') /\
    exists l, errorLog st' = errorLog pass2World ++ l.
Proof.
  eexists; eexists. split; [vm_compute; reflexivity|].
  eapply (visit_appends_to_log (H := specExternal) (Identifier 0 "z" None) [] pass2World).
  vm_compute; reflexivity.
Defined.

(** [x = y] with [y: any] in pass 1. *)
Lemma pass1_sets_no_coercion_flag_witness :
  firstPass pass1World = true /\
  exists names' st',
    visit assignXY xyNames pass1World = Ok (names', st') /\
    coercionFlags st' = coercionFlags pass1World.
Proof.
  split; [reflexivity|].
  eexists; eexists. split; [vm_compute; reflexivity|].
  eapply (pass1_sets_no_coercion_flag (H := specExternal) assignXY xyNames pass1World);
    [reflexivity|vm_compute; reflexivity].
Defined.

(** [x = y] in pass 2, with two class objects in the store. *)
Lemma pass2_keeps_class_objects_witness :
  firstPass (withFirstPass false validatorWorld) = false /\
  exists names' st',
    visit assignXY xyNames (withFirstPass false validatorWorld) = Ok (names', st') /\
    classes st' = [classObjectD; classObjectC].
Proof.
  split; [reflexivity|].
  eexists; eexists. split; [vm_compute; reflexivity|].
  eapply (pass2_keeps_class_objects (H := specExternal) assignXY xyNames
            (withFirstPass false validatorWorld));
    [reflexivity|vm_compute; reflexivity].
Defined.

(** An [if] statement visited by a constructor checker at depth 1. *)
Lemma visit_restores_nesting_depth_witness :
  constructorChecker secondSuperWorld = Some afterFirstSuper /\
  exists names' st',
    visit ifNotUndefined optionalXNames secondSuperWorld = Ok (names', st') /\
    exists c', constructorChecker st' = Some c' /\ toplevel c' = 1.
Proof.
  split; [reflexivity|].
  eexists; eexists. split; [vm_compute; reflexivity|].
  eapply (visit_restores_nesting_depth (H := specExternal) ifNotUndefined optionalXNames
            secondSuperWorld _ _ afterFirstSuper);
    [reflexivity|vm_compute; reflexivity].
Defined.

Lemma validator_records_are_kept_witness :
  constructorChecker secondSuperWorld = Some afterFirstSuper /\
  exists names' st',
    visit ifNotUndefined optionalXNames secondSuperWorld = Ok (names', st') /\
    exists c', constructorChecker st' = Some c' /\ hasSuperCall c' = true.
Proof.
  split; [reflexivity|].
  eexists; eexists. split; [vm_compute; reflexivity|].
  destruct (validator_records_are_kept (H := specExternal) ifNotUndefined optionalXNames
              secondSuperWorld optionalXNames _ afterFirstSuper eq_refl
              ltac:(vm_compute; reflexivity)) as (c' & Hc & Hs & _).
  exists c'. split; [exact Hc|]. apply Hs. reflexivity.
Defined.

(** A variable declarator is not to be visited. *)
Lemma visit_throws_no_log_witness :
  visit (VariableDeclarator 0 (Identifier 1 "x" None) None) [] pass1World
    = Throw (ThrownError "cannot directly visit AST.VariableDeclarator") /\
  otherThrown (ThrownError "cannot directly visit AST.VariableDeclarator") = true.
Proof.
  split; [reflexivity|].
  apply (visit_throws_no_log (H := specExternal)
           (VariableDeclarator 0 (Identifier 1 "x" None) None) [] pass1World).
  reflexivity.
Defined.

(** A flag that is set on node 7 is still set after [1 + 2.5] was
    visited. *)
Lemma visit_keeps_annotations_witness :
  exists names' st',
    visit onePlusFloat [] (withCoercionFlags (<[7%nat := true]> ∅) pass2World)
      = Ok (names', st') /\
    coercionFlags st' !! 7%nat = Some true.
Proof.
  eexists; eexists. split; [vm_compute; reflexivity|].
  apply (proj1 (proj2 (visit_keeps_annotations (H := specExternal) onePlusFloat []
                         (withCoercionFlags (<[7%nat := true]> ∅) pass2World) _ _
                         ltac:(vm_compute; reflexivity)))).
  reflexivity.
Defined.

(* ================================================================= *)
(** ** Operators *)

Section Operators.

Context `{External}.

(** X9: a prefix unary expression whose operand has been visited with the
    type [result st1] has the type of the operand for [-] and [+], [boolean]
    for [!], [integer] for [~] and [string] for [typeof]; it logs a
    diagnostic exactly when the operator does not accept the operand type:
    [-] and [+] accept the numeric types and [any], [~] accepts [integer] and
    [any], [!] and [typeof] accept every type, and no other operator is
    supported. *)
Theorem unaryExpression_types id op argument names st names1 st1 :
  visit argument names st = Ok (names1, st1) ->
  exists st',
    visit (UnaryExpression id op true argument) names st = Ok (names1, st') /\
    result st' = unaryResult op (result st1) /\
    (errorLog st' = errorLog st1 <-> unaryAccepted op (result st1) = true).
Proof.
  intros H1. cbn [visit]. unfold unaryExpression.
  unfold assert at 1; unfold bind at 1; cbv iota beta.
  rewrite (bind_ok _ _ _ _ _ H1).
  unfold getResult at 1; unfold bind at 1.
  unfold unaryResult, unaryAccepted.
  destruct (opIn op ["-"; "+"]); [|destruct (String.eqb op "!");
    [|destruct (String.eqb op "~"); [|destruct (String.eqb op "typeof")] ] ].
  all: destruct (result st1) eqn:E1.
  all: cbv [bind ret getResult invalidOperandMessage toString assert addCoercion
            addCoercionIfAny addCoercionForBoolean
            thisAddStaticType getFirstPass addStaticType addCoercionFlag modify setResult
            strictEq isNumeric orb andb negb]; rewrite ?E1.
  all: destruct (firstPass st1) eqn:Efp; repeat (progress (simpl; rewrite ?Efp)).
  all: try destruct (isPrimitiveType _); repeat (progress (simpl; rewrite ?Efp)).
  all: eexists; split; [reflexivity|split; [first [reflexivity|exact E1]|] ].
  all: simpl; split; intros Hx; first [reflexivity | discriminate Hx
                                     | exfalso; exact (app_one_neq _ _ Hx)].
Qed.

Lemma equalityOperator_dispatch op :
  equalityOperator op = true -> String.eqb op "instanceof" = false.
Proof.
  unfold equalityOperator, opIn. cbn [existsb]. intros Hop.
  rewrite !orb_true_iff, !String.eqb_eq in Hop.
  destruct Hop as [-> | [-> | [-> | [-> | Hf ] ] ] ]; first [reflexivity|discriminate Hf].
Qed.

Lemma relationalOperator_dispatch op :
  relationalOperator op = true ->
  String.eqb op "instanceof" = false /\ equalityOperator op = false.
Proof.
  unfold relationalOperator, opIn. cbn [existsb]. intros Hop.
  rewrite !orb_true_iff, !String.eqb_eq in Hop.
  destruct Hop as [-> | [-> | [-> | [-> | Hf ] ] ] ];
    first [split; reflexivity|discriminate Hf].
Qed.

Lemma bitwiseOperator_dispatch op :
  bitwiseOperator op = true ->
  String.eqb op "instanceof" = false /\ equalityOperator op = false
  /\ relationalOperator op = false /\ arithmeticOperator op = false
  /\ String.eqb op "%" = false.
Proof.
  unfold bitwiseOperator, opIn. cbn [existsb]. intros Hop.
  rewrite !orb_true_iff, !String.eqb_eq in Hop.
  destruct Hop as [-> | [-> | [-> | [-> | [-> | [-> | Hf ] ] ] ] ] ];
    first [repeat split; reflexivity|discriminate Hf].
Qed.

(** The steps that the proofs on the binary operators share: the operands
    are visited, then the types are told apart. *)
Ltac binary_operands H1 H2 :=
  rewrite (bind_ok _ _ _ _ _ H1);
  unfold getResult at 1; unfold bind at 1;
  rewrite (bind_ok _ _ _ _ _ H2).

Ltac binary_cases st2 E1 E2 Efp :=
  cbv [bind ret getResult invalidOperandsMessage toString assert addCoercion subtype
       thisAddStaticType getFirstPass addStaticType addCoercionFlag modify setResult
       strictEq isNumeric orb andb negb]; rewrite ?E1, ?E2;
  destruct (firstPass st2) eqn:Efp;
  repeat (progress (simpl; rewrite ?Efp)).

Ltac log_verdict :=
  simpl; split; intros Hx;
  first [reflexivity | discriminate Hx | exfalso; exact (app_one_neq _ _ Hx)].

(** X10: a comparison with [==], [!=], [===] or [!==] has the type [boolean]
    whatever its operands.  It is accepted when an operand is [any]; else,
    when an operand is [boolean] or [string], only if both operands have that
    very type (so a string is not comparable with [null] or [undefined]);
    else only if one operand type is a subtype of the other. *)
Theorem binaryExpression_equality id op lhs rhs names st names1 st1 names2 st2 :
  equalityOperator op = true ->
  visit lhs names st = Ok (names1, st1) ->
  visit rhs names1 st1 = Ok (names2, st2) ->
  exists st',
    visit (BinaryExpression id op lhs rhs) names st = Ok (names2, st') /\
    result st' = BooleanT /\
    (errorLog st' = errorLog st2 <->
     (if (result st1 === Any) || (result st2 === Any) then true
      else if booleanOrString (result st1) || booleanOrString (result st2)
           then result st1 === result st2
           else isSubtype (classes st2) (result st1) (result st2)
                || isSubtype (classes st2) (result st2) (result st1)) = true).
Proof.
  intros Hop H1 H2. cbn [visit]. unfold binaryExpression.
  rewrite (equalityOperator_dispatch op Hop).
  unfold equalityOperator in Hop. binary_operands H1 H2. rewrite Hop.
  unfold booleanOrString.
  destruct (result st1) eqn:E1, (result st2) eqn:E2.
  all: binary_cases st2 E1 E2 Efp.
  all: repeat match goal with
         | |- context [isSubtype ?s ?a ?b] => destruct (isSubtype s a b)
         end; repeat (progress (simpl; rewrite ?Efp)).
  all: eexists; split; [reflexivity|split; [reflexivity|] ].
  all: log_verdict.
Qed.

(** X11: a comparison with [<], [<=], [>] or [>=] has the type [boolean]
    whatever its operands; it is accepted when an operand is [any], when both
    are strings, and when both are numeric. *)
Theorem binaryExpression_relational id op lhs rhs names st names1 st1 names2 st2 :
  relationalOperator op = true ->
  visit lhs names st = Ok (names1, st1) ->
  visit rhs names1 st1 = Ok (names2, st2) ->
  exists st',
    visit (BinaryExpression id op lhs rhs) names st = Ok (names2, st') /\
    result st' = BooleanT /\
    (errorLog st' = errorLog st2 <->
     ((result st1 === Any) || (result st2 === Any))
     || ((result st1 === StringT) && (result st2 === StringT))
     || (isNumeric (result st1) && isNumeric (result st2)) = true).
Proof.
  intros Hop H1 H2. cbn [visit]. unfold binaryExpression.
  destruct (relationalOperator_dispatch op Hop) as [Hi He]. rewrite Hi.
  unfold equalityOperator in He. unfold relationalOperator in Hop.
  binary_operands H1 H2. rewrite He, Hop.
  destruct (result st1) eqn:E1, (result st2) eqn:E2.
  all: binary_cases st2 E1 E2 Efp.
  all: eexists; split; [reflexivity|split; [reflexivity|] ].
  all: log_verdict.
Qed.

(** X12: the operators on integers.  [%] accepts [integer] and [any]
    operands and has the type [any] if an operand is [any], else [integer];
    the bitwise operators and the shifts accept [integer] operands only (not
    [any]) and have the type [integer]. *)
Theorem binaryExpression_integer id op lhs rhs names st names1 st1 names2 st2 :
  op = "%" \/ bitwiseOperator op = true ->
  visit lhs names st = Ok (names1, st1) ->
  visit rhs names1 st1 = Ok (names2, st2) ->
  exists st',
    visit (BinaryExpression id op lhs rhs) names st = Ok (names2, st') /\
    result st' =
      (if String.eqb op "%" && ((result st1 === Any) || (result st2 === Any))
       then Any else Integer) /\
    (errorLog st' = errorLog st2 <->
     (if String.eqb op "%"
      then integerOrAny (result st1) && integerOrAny (result st2)
      else (result st1 === Integer) && (result st2 === Integer)) = true).
Proof.
  intros Hop H1 H2. cbn [visit]. unfold binaryExpression.
  destruct Hop as [->|Hop].
  - cbn [String.eqb Ascii.eqb Bool.eqb opIn existsb orb andb].
    binary_operands H1 H2. unfold integerOrAny.
    destruct (result st1) eqn:E1, (result st2) eqn:E2.
    all: binary_cases st2 E1 E2 Efp.
    all: eexists; split; [reflexivity|split; [reflexivity|] ].
    all: log_verdict.
  - destruct (bitwiseOperator_dispatch op Hop) as (Hi & He & Hr & Ha & Hm). rewrite Hi, Hm.
    unfold equalityOperator in He. unfold relationalOperator in Hr.
    unfold arithmeticOperator in Ha. unfold bitwiseOperator in Hop.
    binary_operands H1 H2. rewrite He, Hr, Ha, Hop. cbn [andb].
    destruct (result st1) eqn:E1, (result st2) eqn:E2.
    all: binary_cases st2 E1 E2 Efp.
    all: eexists; split; [reflexivity|split; [reflexivity|] ].
    all: log_verdict.
Qed.

End Operators.

(* ================================================================= *)
(** ** Diagnostics that stay in the log *)

Section Logged.

Context `{External}.

Lemma appendsToLog_refl st : appendsToLog st st.
Proof. apply appendsToLog_same. reflexivity. Qed.

Lemma appendsToLog_pushed st e : appendsToLog st (withErrorLog (errorLog st ++ [e]) st).
Proof. exists [e]. reflexivity. Qed.

Ltac log_side :=
  first [ exact appendsToLog_refl | exact appendsToLog_trans
        | intros e st; exact (appendsToLog_pushed st e)
        | intros; apply appendsToLog_same; reflexivity ].

Lemma log_ret p {A} (a : A) : preserves appendsToLog p (ret a).
Proof. apply pres_ret; log_side. Qed.

Lemma log_get p : preserves appendsToLog p get.
Proof. apply pres_get; log_side. Qed.

Lemma log_getResult p : preserves appendsToLog p getResult.
Proof. apply pres_getResult; log_side. Qed.

Lemma log_getFirstPass p : preserves appendsToLog p getFirstPass.
Proof. apply pres_getFirstPass; log_side. Qed.

Lemma log_getInstance p t : preserves appendsToLog p (getInstance t).
Proof. apply pres_getInstance; log_side. Qed.

Lemma log_setResult p t : preserves appendsToLog p (setResult t).
Proof. apply pres_setResult; log_side. Qed.

Lemma log_subtype p s t : preserves appendsToLog p (subtype s t).
Proof. apply pres_subtype; log_side. Qed.

Lemma log_consistent p s t : preserves appendsToLog p (consistent s t).
Proof. apply pres_consistent; log_side. Qed.

Lemma log_toString p t : preserves appendsToLog p (toString t).
Proof. apply pres_toString; log_side. Qed.

Lemma log_assert p b msg n : preserves appendsToLog p (assert b msg n).
Proof. apply pres_assert; log_side. Qed.

Lemma log_thisAddStaticType p n t : preserves appendsToLog p (thisAddStaticType n t).
Proof. apply pres_thisAddStaticType; log_side. Qed.

Lemma log_addCoercion p n t : preserves appendsToLog p (addCoercion n t).
Proof. apply pres_addCoercion; log_side. Qed.

Lemma log_addCoercionIfAny p n t : preserves appendsToLog p (addCoercionIfAny n t).
Proof. apply pres_addCoercionIfAny; log_side. Qed.

Lemma log_isConsistentOnFirstPass p s t :
  preserves appendsToLog p (isConsistentOnFirstPass s t).
Proof. apply pres_isConsistentOnFirstPass; log_side. Qed.

Lemma log_invalidOperandMessage p op t :
  preserves appendsToLog p (invalidOperandMessage op t).
Proof. apply pres_invalidOperandMessage; log_side. Qed.

Lemma log_invalidOperandsMessage p op s t :
  preserves appendsToLog p (invalidOperandsMessage op s t).
Proof. apply pres_invalidOperandsMessage; log_side. Qed.

Lemma log_modifyConstructorChecker p f :
  preserves appendsToLog p (modifyConstructorChecker f).
Proof. apply pres_modify; [intros; apply appendsToLog_same; reflexivity|reflexivity]. Qed.

(** What a run that returns leaves in the log. *)
Lemma appendsToLog_run {A} (m : M A) st a st' :
  preserves appendsToLog (firstPass st) m -> m st = Ok (a, st') -> appendsToLog st st'.
Proof. intros K E. specialize (K st eq_refl). rewrite E in K. exact (proj1 K). Qed.

Lemma appendsToLog_In st st' e :
  appendsToLog st st' -> In e (errorLog st) -> In e (errorLog st').
Proof. intros [l E] Hi. rewrite E. apply in_or_app. left. exact Hi. Qed.

End Logged.

Create HintDb logs discriminated.

#[export] Hint Resolve log_ret log_get log_getResult log_getFirstPass log_getInstance
  log_setResult log_subtype log_consistent log_toString log_assert log_thisAddStaticType
  log_addCoercion log_addCoercionIfAny log_isConsistentOnFirstPass
  log_invalidOperandMessage log_invalidOperandsMessage log_modifyConstructorChecker
  visit_appendsToLog : logs.

(** Records, for every run among the hypotheses, that it appended to the
    log. *)
Ltac logs :=
  repeat match goal with
    | E : ?m ?s = Ok (_, ?s') |- _ =>
        lazymatch goal with
        | _ : appendsToLog s s' |- _ => fail
        | _ => idtac
        end;
        assert (appendsToLog s s')
          by (apply (fun K : preserves appendsToLog (firstPass s) m =>
                       appendsToLog_run m s _ s' K E); auto 2 with logs)
    end.

(** Carries a diagnostic along the runs to the state [st']. *)
Ltac logged st' :=
  repeat match goal with
    | |- In _ (errorLog st') => assumption
    | L : appendsToLog ?s ?s', I : In ?e (errorLog ?s) |- In ?e _ =>
        lazymatch goal with
        | _ : In e (errorLog s') |- _ => fail
        | _ => idtac
        end;
        pose proof (appendsToLog_In s s' e L I)
    end.

Section Lvalues.

Context `{External}.

Lemma assertLvalue_constant lid name anno names info st st0 :
  lookup name names = Some info ->
  assertLvalue (Identifier lid name anno) names st = Ok (tt, st0) ->
  (isConst info = true ->
   In (Message "assignment to constant variable" lid) (errorLog st0)) /\
  (isFunction info = true ->
   In (Message "assignment to top-level function" lid) (errorLog st0)).
Proof.
  intros Hl E. unfold assertLvalue in E. rewrite Hl in E.
  unfold bind, assert, ret, logPush in E.
  destruct (isConst info), (isFunction info); cbn in E; injection E as <-;
    cbn [errorLog withErrorLog]; split; intros Hx; try discriminate Hx.
  all: rewrite ?in_app_iff; cbn [In]; tauto.
Qed.

(** X13: an assignment to a name declared [const], with any operator, and an
    update ([++], [--]) of it, log "assignment to constant variable" at the
    name; for the name of a top-level function they log "assignment to
    top-level function".  The diagnostic is in the log when the visit of the
    expression returns. *)
Theorem assignment_to_constant_is_reported lid name anno names info :
  lookup name names = Some info ->
  forall diagnostic,
    (isConst info = true /\
     diagnostic = Message "assignment to constant variable" lid) \/
    (isFunction info = true /\
     diagnostic = Message "assignment to top-level function" lid) ->
  (forall id op rhs st names' st',
     visit (AssignmentExpression id op (Identifier lid name anno) rhs) names st
       = Ok (names', st') ->
     In diagnostic (errorLog st')) /\
  (forall id op prefix st names' st',
     visit (UpdateExpression id op prefix (Identifier lid name anno)) names st
       = Ok (names', st') ->
     In diagnostic (errorLog st')).
Proof.
  intros Hl diagnostic Hd.
  assert (Ha : forall st st0,
            assertLvalue (Identifier lid name anno) names st = Ok (tt, st0) ->
            In diagnostic (errorLog st0)).
  { intros st st0 Ea. destruct (assertLvalue_constant _ _ _ _ _ _ _ Hl Ea) as [Hc Hf].
    destruct Hd as [[Hi ->]|[Hi ->] ]; [exact (Hc Hi)|exact (Hf Hi)]. }
  split.
  - intros id op rhs st names' st' E. cbn [visit] in E. unfold assignmentExpression in E.
    apply bind_inv in E. destruct E as ([] & s0 & Ea & E).
    apply Ha in Ea. run; logs; logged st'.
  - intros id op prefix st names' st' E. cbn [visit] in E. unfold updateExpression in E.
    apply bind_inv in E. destruct E as ([] & s0 & Ea & E).
    apply Ha in Ea. run; logs; logged st'.
Qed.

End Lvalues.

Section Members.

Context `{External}.

Lemma checkMemberExpr_length id obj pid anno readonly names st names1 st1 :
  isExpression obj = true ->
  visit obj names st = Ok (names1, st1) ->
  isArrayType (result st1) = true ->
  exists st2,
    checkMemberExpr visit id obj (Identifier pid lengthMethod anno) false readonly names st
      = Ok ((false, names1), st2) /\
    result st2 = Integer /\
    errorLog st2 =
      if readonly then errorLog st1
      else errorLog st1 ++ [Message "cannot change .length" pid].
Proof.
  intros He H1 Ha. unfold checkMemberExpr. rewrite He.
  unfold assert at 1; unfold bind at 1; cbv iota beta.
  rewrite (bind_ok _ _ _ _ _ H1).
  destruct (result st1) eqn:E1; try discriminate Ha.
  cbv [bind getResult thisAddStaticType getFirstPass addStaticType modify get getInstance
       ret isArrayType assert setResult].
  rewrite E1.
  destruct (firstPass st1) eqn:Efp; cbn [negb]; cbv beta iota; rewrite ?E1;
    rewrite String.eqb_refl; destruct readonly; eexists; split; try reflexivity;
    split; reflexivity.
Qed.

(** X14: the [length] of an array is read-only.  Reading [a.length], where
    [a] has an array type, gives an [integer] and logs nothing; an assignment
    to [a.length], with any operator and any right-hand side, logs "cannot
    change .length" at the property. *)
Theorem array_length_is_read_only id obj pid anno names st names1 st1 :
  isExpression obj = true ->
  visit obj names st = Ok (names1, st1) ->
  isArrayType (result st1) = true ->
  let member := MemberExpression id obj (Identifier pid lengthMethod anno) false in
  (exists st',
     visit member names st = Ok (names1, st') /\
     result st' = Integer /\ errorLog st' = errorLog st1) /\
  (forall aid op rhs names' st',
     visit (AssignmentExpression aid op member rhs) names st = Ok (names', st') ->
     In (Message "cannot change .length" pid) (errorLog st')).
Proof.
  intros He H1 Ha member. split.
  - destruct (checkMemberExpr_length id obj pid anno true names st names1 st1 He H1 Ha)
      as (st2 & Ec & Hr & Hl).
    exists st2. cbn [visit member]. unfold memberExpression.
    rewrite (bind_ok _ _ _ _ _ Ec). split; [reflexivity|]. split; [exact Hr|exact Hl].
  - intros aid op rhs names' st' E.
    destruct (checkMemberExpr_length id obj pid anno false names st names1 st1 He H1 Ha)
      as (st2 & Ec & _ & Hl).
    assert (Hin : In (Message "cannot change .length" pid) (errorLog st2)).
    { rewrite Hl. apply in_or_app. right. left. reflexivity. }
    cbn [visit member] in E.
    unfold assignmentExpression, ConstructorChecker_memberAssignmentExpression in E.
    apply bind_inv in E. destruct E as (names2 & s2 & Em & E).
    unfold memberAssignmentExpression in Em.
    cbn [assertLvalue] in Em.
    unfold ret at 1 in Em; unfold bind at 1 in Em.
    rewrite (bind_ok _ _ _ _ _ Ec) in Em. cbn [negb andb] in Em.
    run; logs; logged st'.
Qed.

End Members.

Section Calls.

Context `{External}.

(** X15: a call whose callee has a function type and whose number of
    arguments differs from the number of parameters logs "wrong number of
    arguments" once, visits no argument (no diagnostic, no coercion flag and no
    change of the name table comes from them), and has the return type of the
    callee. *)
Theorem callExpression_wrong_arity id callee args names st names1 st1 returnType paramTypes :
  isMemberExpression callee = false ->
  isSuper callee = false ->
  visit callee names st = Ok (names1, st1) ->
  result st1 = FunctionT returnType paramTypes ->
  length args <> length paramTypes ->
  exists st',
    visit (CallExpression id callee args) names st = Ok (names1, st') /\
    result st' = returnType /\
    errorLog st' = errorLog st1 ++ [Message "wrong number of arguments" id] /\
    coercionFlags st' = coercionFlags st1.
Proof.
  intros Hm Hs H1 Hr Hn. cbn [visit]. unfold callExpression.
  assert (Hlen : (length args =? length paramTypes)%nat = false)
    by (apply Nat.eqb_neq; exact Hn).
  destruct callee; try discriminate Hm; try discriminate Hs.
  all: unfold ret at 1; unfold bind at 1; cbv iota beta.
  all: rewrite (bind_ok _ _ _ _ _ H1).
  all: unfold getResult at 1; unfold bind at 1; rewrite Hr; cbv iota beta.
  all: unfold checkArguments; rewrite Hlen; cbn [negb].
  all: cbv [bind assert ret thisAddStaticType getFirstPass addStaticType modify setResult].
  all: destruct (firstPass st1) eqn:Efp; repeat (progress (simpl; rewrite ?Efp)).
  all: eexists; split; [reflexivity|]; split; [reflexivity|]; split; reflexivity.
Qed.

(** X16: a call of a name that is not declared (yet).  In pass 1 it is taken
    for a forward reference: nothing is logged.  In pass 2 it logs "unknown
    name" and "the callee is not a function".  In both passes the call has
    the type [any] and its arguments are not visited. *)
Theorem call_of_unknown_name id fid name anno args names st :
  String.eqb name "undefined" = false ->
  lookup name names = None ->
  exists st',
    visit (CallExpression id (Identifier fid name anno) args) names st = Ok (names, st') /\
    result st' = Any /\
    errorLog st' =
      (if firstPass st then errorLog st
       else errorLog st ++ [Message ("unknown name: " ^^ name) fid;
                            Message "the callee is not a function" fid]) /\
    coercionFlags st' = coercionFlags st.
Proof.
  intros Hu Hl. cbn [visit]. unfold callExpression.
  unfold ret at 1; unfold bind at 1; cbv iota beta.
  cbn [visit]. unfold identifier. rewrite Hu, Hl.
  cbv [bind assert ret thisAddStaticType getFirstPass getResult addStaticType modify
       setResult].
  destruct (firstPass st) eqn:Efp; repeat (progress (simpl; rewrite ?Efp)).
  all: eexists; split; [reflexivity|]; split; [reflexivity|]; split; try reflexivity.
  unfold logPush. rewrite <- app_assoc. reflexivity.
Qed.

(** X17: a cast [e as T] always has the type [T].  It is accepted when the
    type of [e] is a subtype of [T] or consistent with it, when both are
    numeric, and when [T] is an object type and a subtype of the type of [e]
    (a downcast). *)
Theorem tsAsExpression_accepts id expression typeAnnotation names st names1 st1 names2 st2 :
  visit expression names st = Ok (names1, st1) ->
  visit typeAnnotation names1 st1 = Ok (names2, st2) ->
  exists st',
    visit (TSAsExpression id expression typeAnnotation) names st = Ok (names2, st') /\
    result st' = result st2 /\
    (errorLog st' = errorLog st2 <->
     isSubtype (classes st2) (result st1) (result st2)
     || (isNumeric (result st1) && isNumeric (result st2))
     || isConsistent (classes st2) (result st1) (result st2)
     || (isObjectType (result st2) && isSubtype (classes st2) (result st2) (result st1))
     = true).
Proof.
  intros H1 H2. cbn [visit]. unfold tsAsExpression.
  rewrite (bind_ok _ _ _ _ _ H1).
  unfold getResult at 1; unfold bind at 1.
  rewrite (bind_ok _ _ _ _ _ H2).
  cbv [bind getResult subtype consistent ret invalidOperandsMessage toString assert
       thisAddStaticType getFirstPass addStaticType modify setResult].
  destruct (isSubtype (classes st2) (result st1) (result st2));
    destruct (isNumeric (result st1) && isNumeric (result st2));
    destruct (isConsistent (classes st2) (result st1) (result st2));
    destruct (isObjectType (result st2) && isSubtype (classes st2) (result st2) (result st1)).
  all: destruct (firstPass st2) eqn:Efp; repeat (progress (simpl; rewrite ?Efp)).
  all: eexists; split; [reflexivity|]; split; [reflexivity|].
  all: simpl; split; intros Hx;
    first [reflexivity | discriminate Hx | exfalso; exact (app_one_neq _ _ Hx)].
Qed.

End Calls.

Section Marking.

Context `{External}.

Lemma propertiesGet_set_same name props :
  String.eqb name "__proto__" = false ->
  propertiesGet name (propertiesSet name true props) = Some true.
Proof.
  intros Hn. unfold propertiesSet. rewrite Hn.
  induction props as [|[k v] props IH]; simpl.
  - rewrite String.eqb_refl. reflexivity.
  - destruct (String.eqb k name) eqn:Ek; simpl; rewrite Ek; [reflexivity|exact IH].
Qed.

(** X18: in a constructor, the assignment [this.p op e] marks the property
    [p] as initialised exactly when it stands at nesting depth 1 and the
    operator is [=]: then [p] is flagged when the visit returns, unless [p]
    is [__proto__], which the plain object [this.properties] cannot hold as
    a key; at any other depth, with a compound operator, and for
    [__proto__], the validator is left as the type check of the assignment
    ([c1], the method of [TypeChecker]) left it. *)
Theorem constructor_marks_property id op lid tid pid name anno rhs names st names' st' c :
  constructorChecker st = Some c ->
  visit (AssignmentExpression id op
           (MemberExpression lid (ThisExpression tid) (Identifier pid name anno) false) rhs)
    names st = Ok (names', st') ->
  exists st1 c1 c',
    memberAssignmentExpression visit id op lid (ThisExpression tid)
      (Identifier pid name anno) false rhs names st = Ok (names', st1) /\
    constructorChecker st1 = Some c1 /\
    constructorChecker st' = Some c' /\
    if (toplevel c =? 1) && String.eqb op "=" && negb (String.eqb name "__proto__")
    then propertiesGet name (properties c') = Some true
    else c' = c1.
Proof.
  intros Hc E. cbn [visit] in E.
  unfold assignmentExpression, ConstructorChecker_memberAssignmentExpression in E.
  apply bind_inv in E. destruct E as (names1 & st1 & Em & E).
  pose proof (memberAssignmentExpression_sameValidator (firstPass st) id op lid
                (ThisExpression tid) (Identifier pid name anno) false rhs names st eq_refl)
    as K.
  rewrite Em in K. destruct K as [K _]. unfold sameValidator in K. rewrite Hc in K.
  destruct (constructorChecker st1) as [c1|] eqn:Ec1; [|contradiction].
  destruct K as (Hd & _ & _).
  unfold get at 1 in E; unfold bind at 1 in E. rewrite Ec1 in E.
  rewrite Hd in E. cbn [negb andb] in E. rewrite andb_true_r in E.
  exists st1, c1.
  destruct ((toplevel c =? 1) && String.eqb op "=") eqn:Hmark; cbn [andb].
  - cbv [bind modifyConstructorChecker modify ret] in E. rewrite Ec1 in E.
    injection E as <- <-.
    eexists. split; [exact Em|]. split; [exact Ec1|]. split; [reflexivity|].
    cbn [properties option_map].
    destruct (String.eqb name "__proto__") eqn:Hproto; cbn [negb].
    + unfold propertiesSet. rewrite Hproto. destruct c1; reflexivity.
    + apply propertiesGet_set_same. exact Hproto.
  - injection E as <- <-.
    exists c1. split; [exact Em|]. split; [exact Ec1|]. split; [exact Ec1|reflexivity].
Qed.

End Marking.

Section NewArray.

Context `{External}.

Local Notation "'let*' x ':=' m 'in' k" := (bind m (fun x => k))
  (at level 10, x pattern, m at level 100, k at level 200).

(** X19: [new Array<T>(n)], without an initial value, is accepted only for
    the element types [integer], [float], [boolean] and [any]; for any other
    [T] it logs "wrong number of arguments" and the size is not visited.
    [new Array<T>(n, v)] checks [n] against [integer] and [v] against [T].
    Either way the expression has the type [T[]]. *)
Theorem newArrayExpression_arguments id cid anno elementType size names st names1 st1 :
  visit elementType names st = Ok (names1, st1) ->
  let array := Identifier cid "Array" anno in
  (hasDefaultElement (result st1) = false ->
   exists st',
     visit (NewExpression id array (Some [elementType]) [size]) names st
       = Ok (names1, st') /\
     result st' = ArrayT (result st1) /\
     errorLog st' = errorLog st1 ++ [Message "wrong number of arguments" id]) /\
  (forall init names2 st2 names3 st3,
     callExpressionArg visit size Integer names1 st1 = Ok (names2, st2) ->
     callExpressionArg visit init (result st1) names2 st2 = Ok (names3, st3) ->
     exists st',
       visit (NewExpression id array (Some [elementType]) [size; init]) names st
         = Ok (names3, st') /\
       result st' = ArrayT (result st1) /\
       errorLog st' = errorLog st3).
Proof.
  intros H1 array. subst array.
  assert (Ht : visitTypes visit [elementType] names st = Ok (([result st1], names1), st1)).
  { cbn [visitTypes]. rewrite (bind_ok _ _ _ _ _ H1). reflexivity. }
  assert (Hp : (let* (ts, names1) := visitTypes visit [elementType] names in
                ret (Some ts, names1)) st = Ok ((Some [result st1], names1), st1)).
  { rewrite (bind_ok _ _ _ _ _ Ht). reflexivity. }
  split.
  - intros Hd. cbn [visit]. unfold newExpression.
    change (String.eqb "Array" "Array") with true. cbv iota.
    unfold newArrayExpression. cbv iota.
    rewrite (bind_ok _ _ _ _ _ Hp).
    unfold hasDefaultElement in Hd.
    cbv [bind getResult ret assert]. cbn [length Nat.eqb andb orb]. rewrite Hd.
    cbv [thisAddStaticType bind getFirstPass addStaticType modify setResult ret].
    destruct (firstPass st1) eqn:Efp; repeat (progress (simpl; rewrite ?Efp)).
    all: eexists; split; [reflexivity|]; split; reflexivity.
  - intros init names2 st2 names3 st3 H2 H3. cbn [visit]. unfold newExpression.
    change (String.eqb "Array" "Array") with true. cbv iota.
    unfold newArrayExpression. cbv iota.
    rewrite (bind_ok _ _ _ _ _ Hp).
    cbn [length Nat.eqb andb orb].
    unfold assert at 1; unfold bind at 1; cbv iota beta.
    unfold ret at 1; unfold bind at 1.
    unfold assert at 1; unfold bind at 1; cbv iota beta.
    assert (Ha : (let* names2 := callExpressionArg visit size Integer names1 in
                  callExpressionArg visit init (result st1) names2) st1 = Ok (names3, st3)).
    { rewrite (bind_ok _ _ _ _ _ H2). exact H3. }
    rewrite (bind_ok _ _ _ _ _ Ha).
    cbv [thisAddStaticType bind getFirstPass addStaticType modify setResult ret].
    destruct (firstPass st3) eqn:Efp; repeat (progress (simpl; rewrite ?Efp)).
    all: eexists; split; [reflexivity|]; split; reflexivity.
Qed.

End NewArray.

Section Declarations.

Context `{External}.

Local Notation "'let*' x ':=' m 'in' k" := (bind m (fun x => k))
  (at level 10, x pattern, m at level 100, k at level 200).
Local Notation "m ';;' k" := (bind m (fun _ => k))
  (at level 100, k at level 200, right associativity).

Lemma record_fresh name t init names :
  names <> [] ->
  lookupInThis name names = None ->
  fst (record name t init names) = true /\
  lookup name (snd (record name t init names)) = Some (init (makerInfo t)).
Proof.
  intros Hn Hl. destruct names as [|s parent]; [contradiction|].
  cbn [lookupInThis] in Hl. unfold record. rewrite Hl. cbn [fst snd lookup elements setElements].
  rewrite lookup_insert_eq. split; reflexivity.
Qed.

(** X20: the type that pass 1 records for [let x], [let x: T], [let x = e]
    and [let x: T = e], where [x] is not yet declared in the scope: the
    annotation if there is one, otherwise the type of the initialiser,
    otherwise [any].  The name is recorded as a variable that is not constant
    (and with the declared type even when the initialiser does not fit
    it). *)
Theorem let_declaration_records id did lid name anno init names st names1 st1 names2 st2 :
  firstPass st = true ->
  match anno with
  | Some a => isTSTypeAnnotation a = true /\ visit a names st = Ok (names1, st1)
  | None => names1 = names /\ st1 = st
  end ->
  match init with
  | Some e => visit e names1 st1 = Ok (names2, st2)
  | None => names2 = names1 /\ st2 = st1
  end ->
  names2 <> [] ->
  lookupInThis name names2 = None ->
  exists names' st',
    visit (VariableDeclaration id "let" [VariableDeclarator did (Identifier lid name anno) init])
      names st = Ok (names', st') /\
    lookup name names' =
      Some (mkInfo (declaredType (option_map (fun _ => result st1) anno)
                      (option_map (fun _ => result st2) init))
              false false false (inExport st2)).
Proof.
  intros Hp Ha Hi Hn Hl.
  enough (Hck : exists names' st',
            checkVariableDeclarator visit did (Identifier lid name anno) init false names st
              = Ok (names', st') /\
            lookup name names' =
              Some (mkInfo (declaredType (option_map (fun _ => result st1) anno)
                              (option_map (fun _ => result st2) init))
                      false false false (inExport st2))).
  { destruct Hck as (names' & st' & Eck & Hk). exists names', st'. split; [|exact Hk].
    cbn [visit]. unfold variableDeclaration, isConstFunctionDeclaration.
    cbn [String.eqb Ascii.eqb Bool.eqb andb orb].
    erewrite bind_ok by reflexivity. cbv beta iota.
    erewrite bind_ok by reflexivity.
    cbn [variableDeclarators]. rewrite (bind_ok _ _ _ _ _ Eck). reflexivity. }
  unfold checkVariableDeclarator, assertVariable. cbn [isIdentifier identifierName].
  erewrite bind_ok by reflexivity.
  erewrite bind_ok by reflexivity. rewrite Hp. cbn [negb]. cbv iota beta zeta.
  assert (Hrec : forall t st3,
            inExport st3 = inExport st2 ->
            exists names' st',
              (let* st := get in
               let '(success, names3) :=
                 record name t
                   (fun i => mkInfo (type i) false (isFunction i) (isTypeName i) (inExport st))
                   names2 in
               assert success ("Identifier '" ^^ name ^^ "' has already been declared") did ;;
               ret names3) st3 = Ok (names', st') /\
              lookup name names' = Some (mkInfo t false false false (inExport st2))).
  { intros t st3 He. unfold get at 1; unfold bind at 1.
    destruct (record_fresh name t
                (fun i => mkInfo (type i) false (isFunction i) (isTypeName i) (inExport st3))
                names2 Hn Hl) as [Hs Hk].
    destruct (record name t _ names2) as [success names3]. cbn [fst snd] in Hs, Hk.
    subst success. eexists; eexists. split; [reflexivity|].
    rewrite Hk. cbn. rewrite He. reflexivity. }
  assert (Hp1 : firstPass st1 = true).
  { destruct anno as [a|]; [|destruct Ha as [_ ->]; exact Hp].
    rewrite (visit_keepsPass _ _ _ _ _ (proj2 Ha)). exact Hp. }
  assert (Hp2 : firstPass st2 = true).
  { destruct init as [e|]; [|destruct Hi as [_ ->]; exact Hp1].
    rewrite (visit_keepsPass _ _ _ _ _ Hi). exact Hp1. }
  assert (Hinit : forall vt : option StaticType,
            exists st3,
              (match init with
               | Some initNode =>
                   let* names2 := visit initNode names1 in
                   let* r := getResult in
                   assert (negb (r === Void)) "void may not be an initial value"
                     (nodeId initNode) ;;
                   match vt with
                   | None => ret (Some r, names2)
                   | Some vt =>
                       let* c := consistent r vt in
                       if c then addCoercion (nodeId initNode) r ;; ret (Some vt, names2)
                       else
                         let* sub := subtype r vt in
                         let* rname := toString r in
                         let* vtname := toString vt in
                         assert sub ("Type '" ^^ rname ^^ "' is not assignable to type '"
                                     ^^ vtname ^^ "'") did ;;
                         ret (Some vt, names2)
                   end
               | None => ret (vt, names1)
               end) st1
              = Ok ((match vt, init with
                     | Some t, _ => Some t
                     | None, Some _ => Some (result st2)
                     | None, None => None
                     end, names2), st3)
              /\ inExport st3 = inExport st2).
  { intros vt. destruct init as [e|].
    - rewrite (bind_ok _ _ _ _ _ Hi).
      cbv [bind getResult assert consistent addCoercion getFirstPass subtype toString ret].
      destruct (negb (result st2 === Void)); destruct vt as [t|]; cbn [negb].
      all: try destruct (isConsistent _ _ _); try destruct (isSubtype _ _ _).
      all: cbn; rewrite ?Hp2; eexists; split; reflexivity.
    - destruct Hi as [-> ->]. destruct vt; eexists; split; reflexivity. }
  destruct anno as [a|]; cbn [option_map declaredType].
  - destruct Ha as [Hts Ha]. unfold assertSyntax. rewrite Hts.
    assert (Ean : (assert true "syntax error" (nodeId a) ;;
                   let* names1 := visit a names in
                   let* r := getResult in ret (Some r, names1)) st
                  = Ok ((Some (result st1), names1), st1)).
    { erewrite bind_ok by reflexivity. rewrite (bind_ok _ _ _ _ _ Ha). reflexivity. }
    rewrite (bind_ok _ _ _ _ _ Ean). cbv iota beta.
    destruct (Hinit (Some (result st1))) as (st3 & E3 & He3).
    rewrite (bind_ok _ _ _ _ _ E3). cbv iota beta.
    destruct (Hrec (result st1) st3 He3) as (names' & st' & Er & Hk).
    exists names', st'. split; [|destruct init; exact Hk].
    rewrite <- Er. reflexivity.
  - destruct Ha as [-> ->].
    erewrite bind_ok by reflexivity. cbv iota beta.
    destruct (Hinit None) as (st3 & E3 & He3).
    rewrite (bind_ok _ _ _ _ _ E3). cbv iota beta.
    destruct init as [e|].
    + destruct (Hrec (result st2) st3 He3) as (names' & st' & Er & Hk).
      exists names', st'. split; [|exact Hk]. rewrite <- Er. reflexivity.
    + destruct (Hrec Any st3 He3) as (names' & st' & Er & Hk).
      exists names', st'. split; [|exact Hk]. rewrite <- Er. reflexivity.
Qed.

End Declarations.

(** [-1] *)
Lemma unaryExpression_types_witness :
  exists st',
    visit (UnaryExpression 0 "-" true (NumericLiteral 1 (Some "1"))) [] pass2World
      = Ok ([], st') /\
    result st' = Integer /\ errorLog st' = [].
Proof.
  destruct (unaryExpression_types (H := specExternal) 0 "-" (NumericLiteral 1 (Some "1"))
              [] pass2World [] _ eq_refl) as (st' & E & Hr & Hl).
  exists st'. split; [exact E|]. split; [exact Hr|]. apply (proj2 Hl). reflexivity.
Defined.

(** [1 == 2] *)
Lemma binaryExpression_equality_witness :
  equalityOperator "==" = true /\
  exists st',
    visit (BinaryExpression 0 "==" (NumericLiteral 1 (Some "1")) (NumericLiteral 2 (Some "2")))
      [] pass2World = Ok ([], st') /\
    result st' = BooleanT /\ errorLog st' = [].
Proof.
  split; [reflexivity|].
  destruct (binaryExpression_equality (H := specExternal) 0 "=="
              (NumericLiteral 1 (Some "1")) (NumericLiteral 2 (Some "2"))
              [] pass2World [] _ [] _ eq_refl eq_refl eq_refl) as (st' & E & Hr & Hl).
  exists st'. split; [exact E|]. split; [exact Hr|]. apply (proj2 Hl). reflexivity.
Defined.

(** [1 < 2.5] *)
Lemma binaryExpression_relational_witness :
  relationalOperator "<" = true /\
  exists st',
    visit (BinaryExpression 0 "<" (NumericLiteral 1 (Some "1")) (NumericLiteral 2 (Some "2.5")))
      [] pass2World = Ok ([], st') /\
    result st' = BooleanT /\ errorLog st' = [].
Proof.
  split; [reflexivity|].
  destruct (binaryExpression_relational (H := specExternal) 0 "<"
              (NumericLiteral 1 (Some "1")) (NumericLiteral 2 (Some "2.5"))
              [] pass2World [] _ [] _ eq_refl eq_refl eq_refl) as (st' & E & Hr & Hl).
  exists st'. split; [exact E|]. split; [exact Hr|]. apply (proj2 Hl). reflexivity.
Defined.

(** [1 | 2.5]: a bitwise operator takes no float. *)
Lemma binaryExpression_integer_witness :
  bitwiseOperator "|" = true /\
  exists st',
    visit (BinaryExpression 0 "|" (NumericLiteral 1 (Some "1")) (NumericLiteral 2 (Some "2.5")))
      [] pass2World = Ok ([], st') /\
    result st' = Integer /\ errorLog st' <> [].
Proof.
  split; [reflexivity|].
  destruct (binaryExpression_integer (H := specExternal) 0 "|"
              (NumericLiteral 1 (Some "1")) (NumericLiteral 2 (Some "2.5"))
              [] pass2World [] _ [] _ (or_intror eq_refl) eq_refl eq_refl)
    as (st' & E & Hr & Hl).
  exists st'. split; [exact E|]. split; [exact Hr|].
  intros Hx. pose proof (proj1 Hl Hx) as Hc. discriminate Hc.
Defined.

(** [x = 1] where [x] is a constant. *)
Lemma assignment_to_constant_is_reported_witness :
  lookup "x" constantNames = Some (mkInfo Integer true false false false) /\
  exists names' st',
    visit (AssignmentExpression 0 "=" (Identifier 1 "x" None) (NumericLiteral 2 (Some "1")))
      constantNames pass2World = Ok (names', st') /\
    In (Message "assignment to constant variable" 1) (errorLog st').
Proof.
  split; [reflexivity|].
  eexists; eexists. split; [vm_compute; reflexivity|].
  eapply (proj1 (assignment_to_constant_is_reported (H := specExternal) 1 "x" None
                  constantNames (mkInfo Integer true false false false) eq_refl
                  (Message "assignment to constant variable" 1)
                  (or_introl (conj eq_refl eq_refl)))
           0%nat "=" (NumericLiteral 2 (Some "1")) pass2World).
  vm_compute; reflexivity.
Defined.

(** [a.length] where [a] is an array of integers. *)
Lemma array_length_is_read_only_witness :
  isExpression (Identifier 2 "a" None) = true /\
  exists st',
    visit (MemberExpression 0 (Identifier 2 "a" None) (Identifier 3 "length" None) false)
      arrayNames pass2World = Ok (arrayNames, st') /\
    result st' = Integer /\ errorLog st' = [].
Proof.
  split; [reflexivity|].
  exact (proj1 (array_length_is_read_only (H := specExternal) 0 (Identifier 2 "a" None) 3
                  None arrayNames pass2World arrayNames _ eq_refl eq_refl eq_refl)).
Defined.

(** [f()] where [f] takes one argument. *)
Lemma callExpression_wrong_arity_witness :
  isMemberExpression (Identifier 1 "f" None) = false /\
  isSuper (Identifier 1 "f" None) = false /\
  exists st',
    visit (CallExpression 0 (Identifier 1 "f" None) []) functionNames pass2World
      = Ok (functionNames, st') /\
    result st' = Integer /\
    errorLog st' = [Message "wrong number of arguments" 0].
Proof.
  split; [reflexivity|]. split; [reflexivity|].
  destruct (callExpression_wrong_arity (H := specExternal) 0 (Identifier 1 "f" None) []
              functionNames pass2World functionNames _ Integer [Integer]
              eq_refl eq_refl eq_refl eq_refl ltac:(discriminate))
    as (st' & E & Hr & Hl & _).
  exists st'. split; [exact E|]. split; [exact Hr|exact Hl].
Defined.

(** [g()] where [g] is not declared, in pass 2. *)
Lemma call_of_unknown_name_witness :
  String.eqb "g" "undefined" = false /\
  lookup "g" [] = None /\
  exists st',
    visit (CallExpression 0 (Identifier 1 "g" None) []) [] pass2World = Ok ([], st') /\
    errorLog st' = [Message "unknown name: g" 1; Message "the callee is not a function" 1].
Proof.
  split; [reflexivity|]. split; [reflexivity|].
  destruct (call_of_unknown_name (H := specExternal) 0 1 "g" None [] [] pass2World
              eq_refl eq_refl) as (st' & E & _ & Hl & _).
  exists st'. split; [exact E|exact Hl].
Defined.

(** [1 as float] *)
Lemma tsAsExpression_accepts_witness :
  exists st',
    visit (TSAsExpression 0 (NumericLiteral 1 (Some "1")) (typeRef 2 "float")) []
      pass2World = Ok ([], st') /\
    result st' = Float /\ errorLog st' = [].
Proof.
  destruct (tsAsExpression_accepts (H := specExternal) 0 (NumericLiteral 1 (Some "1"))
              (typeRef 2 "float") [] pass2World [] _ [] _ eq_refl eq_refl)
    as (st' & E & Hr & Hl).
  exists st'. split; [exact E|]. split; [exact Hr|]. apply (proj2 Hl). reflexivity.
Defined.

(** [new Array<string>(3)] *)
Lemma newArrayExpression_arguments_witness :
  hasDefaultElement StringT = false /\
  exists st',
    visit (NewExpression 0 (Identifier 1 "Array" None) (Some [TSStringKeyword 2])
             [NumericLiteral 3 (Some "3")]) [] pass2World = Ok ([], st') /\
    result st' = ArrayT StringT /\
    errorLog st' = [Message "wrong number of arguments" 0].
Proof.
  split; [reflexivity|].
  exact (proj1 (newArrayExpression_arguments (H := specExternal) 0 1 None (TSStringKeyword 2)
                  (NumericLiteral 3 (Some "3")) [] pass2World [] _ eq_refl) eq_refl).
Defined.

(** [this.p = 1] at the top level of the constructor of [C]. *)
Lemma constructor_marks_property_witness :
  constructorChecker secondSuperWorld = Some afterFirstSuper /\
  exists names' st' c',
    visit assignThisP thisNames secondSuperWorld = Ok (names', st') /\
    constructorChecker st' = Some c' /\
    propertiesGet "p" (properties c') = Some true.
Proof.
  split; [reflexivity|].
  destruct (constructor_marks_property (H := specExternal) 0 "=" 1 2 3 "p" None
              (NumericLiteral 4 (Some "1")) thisNames secondSuperWorld thisNames _
              afterFirstSuper eq_refl ltac:(vm_compute; reflexivity))
    as (st1 & c1 & c' & _ & _ & Hc & Hp).
  eexists; eexists; exists c'. split; [vm_compute; reflexivity|].
  split; [exact Hc|exact Hp].
Defined.

(** [let x: integer = 1] at the top level, in pass 1. *)
Lemma let_declaration_records_witness :
  firstPass pass1World = true /\
  exists names' st',
    visit letX (makerGlobal []) pass1World = Ok (names', st') /\
    lookup "x" names' = Some (mkInfo Integer false false false false).
Proof.
  split; [reflexivity|].
  exact (let_declaration_records (H := specExternal) 0 1 2 "x"
           (Some (TSTypeAnnotation 3 (typeRef 4 "integer")))
           (Some (NumericLiteral 6 (Some "1")))
           (makerGlobal []) pass1World (makerGlobal []) _ (makerGlobal []) _
           eq_refl (conj eq_refl eq_refl) eq_refl ltac:(discriminate) eq_refl).
Defined.

(* ================================================================= *)
(** ** The bytecode buffer builder: headers *)

Section Headers.

Import BytecodeBufferBuilder.

Lemma littleEndian_bytesLE n v :
  0 <= v -> littleEndian (bytesLE n v) = v mod 2 ^ (8 * Z.of_nat n).
Proof.
  revert v. induction n as [|n IH]; intros v Hv.
  - simpl. rewrite Z.mod_1_r. reflexivity.
  - cbn [bytesLE littleEndian]. rewrite IH by (apply Z.div_pos; lia).
    replace (8 * Z.of_nat (S n)) with (8 + 8 * Z.of_nat n) by lia.
    rewrite Z.pow_add_r by lia. change (2 ^ 8) with 256.
    rewrite Z.rem_mul_r by lia. reflexivity.
Qed.

Lemma bytesLE_length n v : length (bytesLE n v) = n.
Proof. revert v. induction n as [|n IH]; intros v; simpl; [|rewrite IH]; reflexivity. Qed.

Lemma bytesLE_isByte n v : Forall isByte (bytesLE n v).
Proof.
  revert v. induction n as [|n IH]; intros v; simpl; constructor; [|apply IH].
  unfold isByte. apply Z.mod_pos_bound. lia.
Qed.

Lemma writeUIntLE_inside value offset byteLength buf :
  (0 <=? value) && (value <? 2 ^ (8 * Z.of_nat byteLength)) = true ->
  0 <= offset ->
  offset + Z.of_nat byteLength <= Z.of_nat (length buf) ->
  writeUIntLE value offset byteLength buf =
  Some (firstn (Z.to_nat offset) buf ++ bytesLE byteLength value
        ++ skipn (Z.to_nat offset + byteLength) buf).
Proof.
  intros Hv Ho Hl. unfold writeUIntLE. rewrite Hv.
  replace (0 <=? offset) with true by (symmetry; apply Z.leb_le; exact Ho).
  replace (offset + Z.of_nat byteLength <=? Z.of_nat (length buf)) with true
    by (symmetry; apply Z.leb_le; exact Hl).
  reflexivity.
Qed.

Lemma writeUIntLE_outside value offset byteLength buf :
  (0 <=? value) && (value <? 2 ^ (8 * Z.of_nat byteLength)) = false ->
  writeUIntLE value offset byteLength buf = None.
Proof. intros Hv. unfold writeUIntLE. rewrite Hv. reflexivity. Qed.

(** Whatever the new buffer holds, the header is the command byte, the
    address and the size; the three writes cover its nine bytes. *)
Lemma createLoadHeaderFrom_overwrites header loadCmd address size :
  length header = 9%nat ->
  createLoadHeaderFrom header loadCmd address size =
  if (0 <=? loadCmd) && (loadCmd <? 256) && inRange32 address && inRange32 size
  then Some (bytesLE 1 loadCmd ++ bytesLE 4 address ++ bytesLE 4 size)
  else None.
Proof.
  intros Hl. do 10 (destruct header as [|? header]; try discriminate Hl).
  unfold createLoadHeaderFrom, inRange32.
  change (2 ^ 32) with (2 ^ (8 * Z.of_nat 4)). change 256 with (2 ^ (8 * Z.of_nat 1)).
  destruct ((0 <=? loadCmd) && (loadCmd <? 2 ^ (8 * Z.of_nat 1))) eqn:Hc;
    [|rewrite (writeUIntLE_outside _ _ _ _ Hc); reflexivity].
  rewrite (writeUIntLE_inside _ _ _ _ Hc) by (cbn [length]; lia).
  change (Z.to_nat 0) with 0%nat.
  cbn [firstn skipn Nat.add app bytesLE andb].
  destruct ((0 <=? address) && (address <? 2 ^ (8 * Z.of_nat 4))) eqn:Ha;
    [|rewrite (writeUIntLE_outside _ _ _ _ Ha); reflexivity].
  rewrite (writeUIntLE_inside _ _ _ _ Ha) by (cbn [length]; lia).
  change (Z.to_nat 1) with 1%nat.
  cbn [firstn skipn Nat.add app bytesLE andb].
  destruct ((0 <=? size) && (size <? 2 ^ (8 * Z.of_nat 4))) eqn:Hs;
    [|rewrite (writeUIntLE_outside _ _ _ _ Hs); reflexivity].
  rewrite (writeUIntLE_inside _ _ _ _ Hs) by (cbn [length]; lia).
  change (Z.to_nat 5) with 5%nat.
  cbn [firstn skipn Nat.add app bytesLE andb]. reflexivity.
Qed.

Lemma createLoadHeader_value loadCmd address size :
  createLoadHeader loadCmd address size =
  if (0 <=? loadCmd) && (loadCmd <? 256) && inRange32 address && inRange32 size
  then Some (bytesLE 1 loadCmd ++ bytesLE 4 address ++ bytesLE 4 size)
  else None.
Proof. apply createLoadHeaderFrom_overwrites. reflexivity. Qed.

Lemma createLoadHeader_length loadCmd address size header :
  createLoadHeader loadCmd address size = Some header -> length header = 9%nat.
Proof.
  rewrite createLoadHeader_value. destruct (_ && _); [|discriminate].
  intros E. injection E as <-. reflexivity.
Qed.

Lemma createLoadHeader_load address size :
  0 <= address < 2 ^ 32 -> 0 <= size < 2 ^ 32 ->
  exists header, createLoadHeader (code LOAD) address size = Some header.
Proof.
  intros Ha Hs. rewrite createLoadHeader_value. unfold inRange32.
  replace (0 <=? address) with true by (symmetry; apply Z.leb_le; lia).
  replace (address <? 2 ^ 32) with true by (symmetry; apply Z.ltb_lt; lia).
  replace (0 <=? size) with true by (symmetry; apply Z.leb_le; lia).
  replace (size <? 2 ^ 32) with true by (symmetry; apply Z.ltb_lt; lia).
  eexists. reflexivity.
Qed.

(** X21: a load header has nine bytes: the command, then the address and the
    size as unsigned 32-bit numbers, the least significant byte first.  The
    header is made exactly when the command is a byte and the address and the
    size are unsigned 32-bit numbers; otherwise a [RangeError] is thrown. *)
Theorem createLoadHeader_layout loadCmd address size :
  match createLoadHeader loadCmd address size with
  | Some header =>
      length header = 9%nat /\ Forall isByte header /\
      littleEndian (firstn 1 header) = loadCmd /\
      littleEndian (firstn 4 (skipn 1 header)) = address /\
      littleEndian (skipn 5 header) = size
  | None =>
      ~ (0 <= loadCmd < 256 /\ 0 <= address < 2 ^ 32 /\ 0 <= size < 2 ^ 32)
  end.
Proof.
  rewrite createLoadHeader_value. unfold inRange32.
  destruct ((0 <=? loadCmd) && (loadCmd <? 256) && ((0 <=? address) && (address <? 2 ^ 32))
            && ((0 <=? size) && (size <? 2 ^ 32))) eqn:Hr.
  - rewrite !andb_true_iff, !Z.leb_le, !Z.ltb_lt in Hr.
    split; [reflexivity|].
    split; [repeat (apply Forall_app; split); apply bytesLE_isByte|].
    cbn [bytesLE app firstn skipn].
    pose proof (littleEndian_bytesLE 1 loadCmd ltac:(lia)) as L1.
    pose proof (littleEndian_bytesLE 4 address ltac:(lia)) as L2.
    pose proof (littleEndian_bytesLE 4 size ltac:(lia)) as L3.
    cbn [bytesLE] in L1, L2, L3.
    change (2 ^ (8 * Z.of_nat 1)) with 256 in L1.
    change (2 ^ (8 * Z.of_nat 4)) with (2 ^ 32) in L2, L3.
    rewrite L1, L2, L3. rewrite !Z.mod_small by lia. repeat split; reflexivity.
  - intros (Hc & Ha & Hs).
    rewrite !andb_false_iff, !Z.leb_gt, !Z.ltb_ge in Hr. lia.
Qed.

End Headers.

(* ================================================================= *)
(** ** The bytecode buffer builder: [load] *)

Section Load.

Import BytecodeBufferBuilder.

Lemma land_minus4 x : Z.land x (-4) = 4 * (x / 4).
Proof.
  change (-4) with (Z.lnot (Z.ones 2)). rewrite <- Z.ldiff_land.
  rewrite Z.ldiff_ones_r by lia.
  rewrite Z.shiftr_div_pow2, Z.shiftl_mul_pow2 by lia. change (2 ^ 2) with 4. lia.
Qed.

Lemma toInt32_small x : - 2 ^ 31 <= x < 2 ^ 31 -> toInt32 x = x.
Proof. intros Hx. unfold toInt32. rewrite Z.mod_small by lia. lia. Qed.

(** The size of a chunk that fills the last unit: the room behind the
    header, rounded down to a multiple of four. *)
Lemma loadSize_value remain :
  9 < remain < 2 ^ 31 ->
  Z.land (toInt32 (remain - LOAD_HEADER_SIZE)) (-4) = 4 * ((remain - 9) / 4).
Proof.
  intros Hr. unfold LOAD_HEADER_SIZE. rewrite toInt32_small by lia. apply land_minus4.
Qed.

Lemma loadSize_bounds remain :
  9 < remain -> remain - 12 <= 4 * ((remain - 9) / 4) <= remain - 9.
Proof. intros Hr. pose proof (Z.div_mod (remain - 9) 4 ltac:(lia)).
  pose proof (Z.mod_pos_bound (remain - 9) 4 ltac:(lia)). lia. Qed.

Lemma subarray_tail offset data :
  0 <= offset <= Z.of_nat (length data) ->
  subarray offset None data = skipn (Z.to_nat offset) data.
Proof.
  intros Ho. unfold subarray, clampIndex.
  replace (offset <? 0) with false by (symmetry; apply Z.ltb_ge; lia).
  rewrite Z.min_l by lia. apply firstn_all2. rewrite length_skipn. lia.
Qed.

Lemma subarray_slice offset size data :
  0 <= offset -> 0 <= size -> offset + size <= Z.of_nat (length data) ->
  subarray offset (Some (offset + size)) data
  = firstn (Z.to_nat size) (skipn (Z.to_nat offset) data).
Proof.
  intros Ho Hs Hl. unfold subarray, clampIndex.
  replace (offset <? 0) with false by (symmetry; apply Z.ltb_ge; lia).
  replace (offset + size <? 0) with false by (symmetry; apply Z.ltb_ge; lia).
  rewrite !Z.min_l by lia. f_equal. lia.
Qed.

(** One turn of the loop. *)
Lemma loadLoop_turn fuel data dataRemain offset loadAddress this :
  roomWithinUnit this ->
  loopState data dataRemain offset ->
  loadLoop (S fuel) data dataRemain offset loadAddress this =
  if 9 + dataRemain <=? lastUnitRemain this then
    match createLoadHeader (code LOAD) loadAddress dataRemain with
    | None => RangeError
    | Some header =>
        Done (mkBuilder (unitSize this) (units this)
                (lastUnit this ++ header ++ skipn (Z.to_nat offset) data)
                (lastUnitRemain this - (9 + dataRemain)))
    end
  else if 9 <? lastUnitRemain this then
    let loadSize := 4 * ((lastUnitRemain this - 9) / 4) in
    match createLoadHeader (code LOAD) loadAddress loadSize with
    | None => RangeError
    | Some header =>
        loadLoop fuel data (dataRemain - loadSize) (offset + loadSize)
          (loadAddress + loadSize)
          (mkBuilder (unitSize this)
             (units this
              ++ [lastUnit this ++ header
                  ++ firstn (Z.to_nat loadSize) (skipn (Z.to_nat offset) data)])
             [] (unitSize this))
    end
  else
    loadLoop fuel data dataRemain offset loadAddress
      (mkBuilder (unitSize this) (units this ++ [lastUnit this]) [] (unitSize this)).
Proof.
  intros [Hr Hu] (Ho & Hd & Hl). cbn [loadLoop]. unfold LOAD_HEADER_SIZE at 1 2 3.
  destruct (9 + dataRemain <=? lastUnitRemain this) eqn:Hfit.
  - rewrite subarray_tail by lia. reflexivity.
  - destruct (9 <? lastUnitRemain this) eqn:Hroom; [|reflexivity].
    apply Z.leb_gt in Hfit. apply Z.ltb_lt in Hroom.
    rewrite loadSize_value by lia. cbv zeta.
    pose proof (loadSize_bounds (lastUnitRemain this) Hroom) as Hb.
    rewrite subarray_slice by lia. reflexivity.
Qed.

Lemma roomWithinUnit_emptied this us :
  roomWithinUnit this -> roomWithinUnit (mkBuilder (unitSize this) us [] (unitSize this)).
Proof. intros [Hr Hu]. split; cbn; lia. Qed.

Lemma loadLoop_returns fuel data dataRemain offset loadAddress this :
  roomWithinUnit this ->
  13 <= unitSize this ->
  loopState data dataRemain offset ->
  0 <= loadAddress < 2 ^ 32 -> loadAddress + dataRemain <= 2 ^ 32 ->
  (dataRemain + (if lastUnitRemain this =? unitSize this then 0 else 1) < Z.of_nat fuel) ->
  exists b, loadLoop fuel data dataRemain offset loadAddress this = Done b.
Proof.
  revert dataRemain offset loadAddress this.
  induction fuel as [|fuel IH]; intros dataRemain offset loadAddress this Hw Hu Hs Ha Hend Hf.
  { destruct Hs as (_ & Hd & _). destruct (lastUnitRemain this =? unitSize this); lia. }
  pose proof Hw as [Hr Hu31]. pose proof Hs as (Ho & Hd & Hl).
  rewrite (loadLoop_turn _ _ _ _ _ _ Hw Hs).
  destruct (9 + dataRemain <=? lastUnitRemain this) eqn:Hfit.
  - destruct (createLoadHeader_load loadAddress dataRemain ltac:(lia) ltac:(lia))
      as [header ->].
    eexists. reflexivity.
  - apply Z.leb_gt in Hfit.
    destruct (9 <? lastUnitRemain this) eqn:Hroom.
    + apply Z.ltb_lt in Hroom. cbv zeta.
      pose proof (loadSize_bounds (lastUnitRemain this) Hroom) as Hb.
      destruct (createLoadHeader_load loadAddress (4 * ((lastUnitRemain this - 9) / 4))
                  ltac:(lia) ltac:(lia)) as [header ->].
      apply IH.
      * apply roomWithinUnit_emptied. exact Hw.
      * exact Hu.
      * unfold loopState. lia.
      * lia.
      * lia.
      * cbn [lastUnitRemain unitSize]. rewrite Z.eqb_refl.
        destruct (lastUnitRemain this =? unitSize this) eqn:Hfull; [|lia].
        apply Z.eqb_eq in Hfull.
        assert (4 <= 4 * ((lastUnitRemain this - 9) / 4)); [|lia].
        assert (1 <= (lastUnitRemain this - 9) / 4); [|lia].
        apply Z.div_le_lower_bound; lia.
    + apply Z.ltb_ge in Hroom. apply IH.
      * apply roomWithinUnit_emptied. exact Hw.
      * exact Hu.
      * exact Hs.
      * exact Ha.
      * exact Hend.
      * cbn [lastUnitRemain unitSize]. rewrite Z.eqb_refl.
        replace (lastUnitRemain this =? unitSize this) with false in Hf
          by (symmetry; apply Z.eqb_neq; lia).
        lia.
Qed.

(** X22: with a unit size of at least 13 bytes, [load] returns: the loop ends
    within [length data + 2] turns, for every builder whose room is within the
    unit size and every block of data that lies within the 32-bit address
    space, up to its last byte. *)
Theorem load_returns address data this :
  roomWithinUnit this ->
  13 <= unitSize this ->
  0 <= address < 2 ^ 32 -> address + Z.of_nat (length data) <= 2 ^ 32 ->
  exists b, load (S (S (length data))) address data this = Done b.
Proof.
  intros Hw Hu Ha Hend. unfold load. apply loadLoop_returns; try assumption.
  - unfold loopState. lia.
  - destruct (lastUnitRemain this =? unitSize this); lia.
Qed.

Lemma loadLoop_never_returns fuel data dataRemain offset loadAddress this :
  roomWithinUnit this ->
  unitSize this < 13 ->
  loopState data dataRemain offset ->
  unitSize this < 9 + dataRemain ->
  0 <= loadAddress < 2 ^ 32 ->
  loadLoop fuel data dataRemain offset loadAddress this = OutOfFuel.
Proof.
  revert dataRemain offset loadAddress this.
  induction fuel as [|fuel IH]; intros dataRemain offset loadAddress this Hw Hu Hs Hbig Ha;
    [reflexivity|].
  pose proof Hw as [Hr Hu31]. pose proof Hs as (Ho & Hd & Hl).
  rewrite (loadLoop_turn _ _ _ _ _ _ Hw Hs).
  replace (9 + dataRemain <=? lastUnitRemain this) with false
    by (symmetry; apply Z.leb_gt; lia).
  destruct (9 <? lastUnitRemain this) eqn:Hroom.
  - apply Z.ltb_lt in Hroom. cbv zeta.
    assert (Hz : 4 * ((lastUnitRemain this - 9) / 4) = 0).
    { rewrite Z.div_small by lia. reflexivity. }
    rewrite Hz.
    destruct (createLoadHeader_load loadAddress 0 ltac:(lia) ltac:(lia)) as [header ->].
    rewrite Z.sub_0_r, !Z.add_0_r. apply IH; try assumption.
    apply roomWithinUnit_emptied. exact Hw.
  - apply IH; try assumption. apply roomWithinUnit_emptied. exact Hw.
Qed.

(** X23: with a unit size below 13 bytes, [load] does not return when the
    data does not fit into one unit together with its header: every turn of
    the loop closes a unit and loads nothing. *)
Theorem load_never_returns fuel address data this :
  roomWithinUnit this ->
  unitSize this < 13 ->
  unitSize this < 9 + Z.of_nat (length data) ->
  0 <= address < 2 ^ 32 ->
  load fuel address data this = OutOfFuel.
Proof.
  intros Hw Hu Hbig Ha. unfold load. apply loadLoop_never_returns; try assumption.
  unfold loopState. lia.
Qed.

Lemma withinUnitSize_room this :
  withinUnitSize this -> unitSize this < 2 ^ 31 -> roomWithinUnit this.
Proof. intros (_ & Hsum & Hr) Hu. split; [split; [exact Hr|lia]|exact Hu]. Qed.

Lemma loadLoop_withinUnitSize fuel data dataRemain offset loadAddress this b :
  withinUnitSize this ->
  unitSize this < 2 ^ 31 ->
  loopState data dataRemain offset ->
  loadLoop fuel data dataRemain offset loadAddress this = Done b ->
  withinUnitSize b /\ unitSize b = unitSize this.
Proof.
  revert dataRemain offset loadAddress this.
  induction fuel as [|fuel IH]; intros dataRemain offset loadAddress this Hi Hu Hs E;
    [discriminate E|].
  pose proof (withinUnitSize_room this Hi Hu) as Hw.
  pose proof Hi as (Hunits & Hsum & Hr). pose proof Hs as (Ho & Hd & Hl).
  rewrite (loadLoop_turn _ _ _ _ _ _ Hw Hs) in E.
  destruct (9 + dataRemain <=? lastUnitRemain this) eqn:Hfit.
  - apply Z.leb_le in Hfit.
    destruct (createLoadHeader (code LOAD) loadAddress dataRemain) as [header|] eqn:Eh;
      [|discriminate E].
    apply createLoadHeader_length in Eh. injection E as <-.
    split; [|reflexivity]. split; [exact Hunits|].
    cbn [lastUnit lastUnitRemain unitSize].
    rewrite !length_app, length_skipn, Eh. lia.
  - apply Z.leb_gt in Hfit.
    destruct (9 <? lastUnitRemain this) eqn:Hroom.
    + apply Z.ltb_lt in Hroom. cbv zeta in E.
      pose proof (loadSize_bounds (lastUnitRemain this) Hroom) as Hb.
      destruct (createLoadHeader (code LOAD) loadAddress _) as [header|] eqn:Eh;
        [|discriminate E].
      apply createLoadHeader_length in Eh.
      apply IH in E.
      * exact E.
      * split; [|cbn; lia]. cbn [units unitSize].
        apply Forall_app. split; [exact Hunits|]. constructor; [|constructor].
        rewrite !length_app, length_firstn, length_skipn, Eh. lia.
      * exact Hu.
      * unfold loopState. lia.
    + apply IH in E.
      * exact E.
      * split; [|cbn; lia]. cbn [units unitSize].
        apply Forall_app. split; [exact Hunits|]. constructor; [|constructor]. lia.
      * exact Hu.
      * exact Hs.
Qed.

(** X24: [load] keeps the units within the unit size: on a builder that holds
    no unit longer than [unitSize] and whose [lastUnitRemain] is the room left
    in the last unit (a new builder, or one that only loaded), it leaves such
    a builder, and every unit that [generate] then returns has at most
    [unitSize] bytes. *)
Theorem load_keeps_unit_size fuel address data this b :
  withinUnitSize this ->
  unitSize this < 2 ^ 31 ->
  load fuel address data this = Done b ->
  withinUnitSize b /\
  Forall (fun u => Z.of_nat (length u) <= unitSize this) (fst (generate b)).
Proof.
  intros Hi Hu E. unfold load in E.
  apply loadLoop_withinUnitSize in E; [|exact Hi|exact Hu|unfold loopState; lia].
  destruct E as [Hb Hsame]. split; [exact Hb|].
  destruct Hb as (Hunits & Hsum & Hr). rewrite <- Hsame. cbn [generate fst].
  apply Forall_app. split; [exact Hunits|]. constructor; [lia|constructor].
Qed.

Lemma contents_closed this body :
  contents (mkBuilder (unitSize this) (units this ++ [lastUnit this ++ body]) []
              (unitSize this))
  = contents this ++ body.
Proof.
  unfold contents. cbn [units lastUnit].
  rewrite !concat_app. cbn [concat]. rewrite !app_nil_r. apply app_assoc.
Qed.

Lemma loadCommand_header loadAddress body header :
  createLoadHeader (code LOAD) loadAddress (Z.of_nat (length body)) = Some header ->
  loadCommand (loadAddress, body) = header ++ body.
Proof. intros E. unfold loadCommand. cbn [fst snd]. rewrite E. reflexivity. Qed.

Lemma loadLoop_covers fuel data dataRemain offset loadAddress this b :
  roomWithinUnit this ->
  loopState data dataRemain offset ->
  loadLoop fuel data dataRemain offset loadAddress this = Done b ->
  exists chunks,
    contents b = contents this ++ flat_map loadCommand chunks /\
    Forall hasHeader chunks /\
    concat (map snd chunks) = skipn (Z.to_nat offset) data /\
    contiguous loadAddress chunks.
Proof.
  revert dataRemain offset loadAddress this.
  induction fuel as [|fuel IH]; intros dataRemain offset loadAddress this Hw Hs E;
    [discriminate E|].
  pose proof Hw as [Hr Hu31]. pose proof Hs as (Ho & Hd & Hl).
  rewrite (loadLoop_turn _ _ _ _ _ _ Hw Hs) in E.
  destruct (9 + dataRemain <=? lastUnitRemain this) eqn:Hfit.
  - destruct (createLoadHeader (code LOAD) loadAddress dataRemain) as [header|] eqn:Eh;
      [|discriminate E].
    injection E as <-.
    exists [(loadAddress, skipn (Z.to_nat offset) data)].
    assert (Hlen : Z.of_nat (length (skipn (Z.to_nat offset) data)) = dataRemain)
      by (rewrite length_skipn; lia).
    split; [|split; [|split] ].
    + cbn [flat_map]. rewrite app_nil_r.
      rewrite (loadCommand_header _ _ header) by (rewrite Hlen; exact Eh).
      unfold contents. cbn [units lastUnit].
      rewrite !concat_app. cbn [concat]. rewrite !app_nil_r, <- !app_assoc. reflexivity.
    + constructor; [|constructor]. unfold hasHeader. cbn [fst snd].
      rewrite Hlen, Eh. eexists; reflexivity.
    + cbn. apply app_nil_r.
    + cbn. split; [reflexivity|exact I].
  - apply Z.leb_gt in Hfit.
    destruct (9 <? lastUnitRemain this) eqn:Hroom.
    + apply Z.ltb_lt in Hroom. cbv zeta in E.
      pose proof (loadSize_bounds (lastUnitRemain this) Hroom) as Hb.
      set (loadSize := 4 * ((lastUnitRemain this - 9) / 4)) in *.
      destruct (createLoadHeader (code LOAD) loadAddress loadSize) as [header|] eqn:Eh;
        [|discriminate E].
      set (body := firstn (Z.to_nat loadSize) (skipn (Z.to_nat offset) data)) in *.
      assert (Hlen : Z.of_nat (length body) = loadSize).
      { unfold body. rewrite length_firstn, length_skipn. lia. }
      apply IH in E;
        [|apply roomWithinUnit_emptied; exact Hw|unfold loopState; lia].
      destruct E as (chunks & Hc & Hh & Hdata & Hcont).
      exists ((loadAddress, body) :: chunks). split; [|split; [|split] ].
      * rewrite Hc.
        rewrite (contents_closed this (header ++ body)).
        cbn [flat_map].
        rewrite (loadCommand_header _ _ header) by (rewrite Hlen; exact Eh).
        rewrite <- !app_assoc. reflexivity.
      * constructor; [|exact Hh]. unfold hasHeader. cbn [fst snd].
        rewrite Hlen, Eh. eexists; reflexivity.
      * cbn [map snd concat]. rewrite Hdata. unfold body.
        replace (Z.to_nat (offset + loadSize))
          with (Z.to_nat loadSize + Z.to_nat offset)%nat by lia.
        rewrite <- skipn_skipn. apply firstn_skipn.
      * cbn [contiguous]. split; [reflexivity|]. rewrite Hlen. exact Hcont.
    + apply IH in E; [|apply roomWithinUnit_emptied; exact Hw|exact Hs].
      destruct E as (chunks & Hc & Hh & Hdata & Hcont).
      exists chunks. split; [|split; [|split]; assumption].
      rewrite Hc. f_equal.
      pose proof (contents_closed this []) as Hcl. rewrite !app_nil_r in Hcl. exact Hcl.
Qed.

(** X25: what [load] adds to the builder is a sequence of LOAD commands, each
    a header followed by its bytes (every chunk has a header), whose bytes
    are the data, in order and complete, and whose addresses follow one
    another from [address] on. *)
Theorem load_covers_data fuel address data this b :
  roomWithinUnit this ->
  load fuel address data this = Done b ->
  exists chunks,
    contents b = contents this ++ flat_map loadCommand chunks /\
    Forall hasHeader chunks /\
    concat (map snd chunks) = data /\
    contiguous address chunks.
Proof.
  intros Hw E. unfold load in E.
  apply loadLoop_covers in E; [|exact Hw|unfold loopState; lia].
  exact E.
Qed.

Lemma jumpHeader_value address :
  0 <= address < 2 ^ 32 ->
  jumpHeaderFrom (allocUnsafe 5) address = Some (code JUMP :: bytesLE 4 address).
Proof.
  intros Ha. unfold jumpHeaderFrom, allocUnsafe. cbn [repeat].
  rewrite writeUIntLE_inside; [|reflexivity|lia|cbn [length]; lia].
  change (Z.to_nat 0) with 0%nat. cbn [firstn skipn Nat.add app bytesLE].
  rewrite writeUIntLE_inside.
  - reflexivity.
  - change (2 ^ (8 * Z.of_nat 4)) with (2 ^ 32).
    apply andb_true_iff. split; [apply Z.leb_le|apply Z.ltb_lt]; lia.
  - lia.
  - cbn [length]. lia.
Qed.

Lemma jumps_fill n address this :
  0 <= address < 2 ^ 32 ->
  5 <= lastUnitRemain this ->
  exists b,
    jumps n address this = Done b /\
    units b = units this /\
    Z.of_nat (length (lastUnit b)) = Z.of_nat (length (lastUnit this)) + 5 * Z.of_nat n /\
    lastUnitRemain b = lastUnitRemain this.
Proof.
  intros Ha. revert this. induction n as [|n IH]; intros this Hr.
  - exists this. cbn [jumps]. repeat split; lia.
  - cbn [jumps]. unfold jump. rewrite (jumpHeader_value address Ha).
    replace (5 <=? lastUnitRemain this) with true by (symmetry; apply Z.leb_le; exact Hr).
    destruct (IH (mkBuilder (unitSize this) (units this)
                    (lastUnit this ++ code JUMP :: bytesLE 4 address)
                    (lastUnitRemain this)) Hr) as (b & E & Hu & Hl & Hrem).
    exists b. split; [exact E|]. split; [exact Hu|]. split; [|exact Hrem].
    rewrite Hl. cbn [lastUnit]. rewrite length_app. cbn [length bytesLE]. lia.
Qed.

(** X26: [jump] does not take its five bytes off [lastUnitRemain].  On a new
    builder with a unit size of five bytes or more, [n] jumps leave one unit
    of [5 * n] bytes, longer than the unit size as soon as
    [5 * n > unitSize], and [lastUnitRemain] is still the unit size. *)
Theorem jumps_exceed_unit_size n address size :
  0 <= address < 2 ^ 32 ->
  5 <= size ->
  exists b,
    jumps n address (constructor size) = Done b /\
    lastUnitRemain b = size /\
    exists unit,
      fst (generate b) = [unit] /\ Z.of_nat (length unit) = 5 * Z.of_nat n.
Proof.
  intros Ha Hs.
  destruct (jumps_fill n address (constructor size) Ha Hs) as (b & E & Hu & Hl & Hr).
  exists b. split; [exact E|]. split; [exact Hr|].
  exists (lastUnit b). split; [|exact Hl].
  cbn [generate fst]. rewrite Hu. reflexivity.
Qed.

End Load.

(** Ten bytes loaded into a new builder with units of 16 bytes, at the
    address at which they end on the last byte of the address space. *)
Lemma load_returns_witness :
  roomWithinUnit (BytecodeBufferBuilder.constructor 16) /\
  exists b,
    BytecodeBufferBuilder.load 12 4294967286 [1; 2; 3; 4; 5; 6; 7; 8; 9; 10]
      (BytecodeBufferBuilder.constructor 16) = BytecodeBufferBuilder.Done b.
Proof.
  assert (Hw : roomWithinUnit (BytecodeBufferBuilder.constructor 16))
    by (unfold roomWithinUnit; cbn; lia).
  split; [exact Hw|].
  apply (load_returns 4294967286 [1; 2; 3; 4; 5; 6; 7; 8; 9; 10]
           (BytecodeBufferBuilder.constructor 16) Hw); cbn; lia.
Defined.

(** Four bytes do not fit into a unit of 12 bytes: the loop goes on. *)
Lemma load_never_returns_witness :
  roomWithinUnit (BytecodeBufferBuilder.constructor 12) /\
  BytecodeBufferBuilder.load 1000 0 [1; 2; 3; 4] (BytecodeBufferBuilder.constructor 12)
  = BytecodeBufferBuilder.OutOfFuel.
Proof.
  assert (Hw : roomWithinUnit (BytecodeBufferBuilder.constructor 12))
    by (unfold roomWithinUnit; cbn; lia).
  split; [exact Hw|].
  apply (load_never_returns 1000 0 [1; 2; 3; 4] (BytecodeBufferBuilder.constructor 12) Hw);
    cbn; lia.
Defined.

Lemma withinUnitSize_constructor :
  withinUnitSize (BytecodeBufferBuilder.constructor 16).
Proof. split; [constructor|]. cbn. lia. Qed.

Lemma load_keeps_unit_size_witness :
  withinUnitSize (BytecodeBufferBuilder.constructor 16) /\
  exists b,
    BytecodeBufferBuilder.load 12 0 [1; 2; 3; 4; 5; 6; 7; 8; 9; 10]
      (BytecodeBufferBuilder.constructor 16) = BytecodeBufferBuilder.Done b /\
    Forall (fun u => Z.of_nat (length u) <= 16) (fst (BytecodeBufferBuilder.generate b)).
Proof.
  split; [exact withinUnitSize_constructor|].
  eexists. split; [vm_compute; reflexivity|].
  refine (proj2 (load_keeps_unit_size 12 0 [1; 2; 3; 4; 5; 6; 7; 8; 9; 10]
                   (BytecodeBufferBuilder.constructor 16) _
                   withinUnitSize_constructor _ _)).
  - cbn. lia.
  - vm_compute; reflexivity.
Defined.

Lemma load_covers_data_witness :
  roomWithinUnit (BytecodeBufferBuilder.constructor 16) /\
  exists b chunks,
    BytecodeBufferBuilder.load 12 0 [1; 2; 3; 4; 5; 6; 7; 8; 9; 10]
      (BytecodeBufferBuilder.constructor 16) = BytecodeBufferBuilder.Done b /\
    contents b = contents (BytecodeBufferBuilder.constructor 16)
                 ++ flat_map loadCommand chunks /\
    Forall hasHeader chunks /\
    concat (map snd chunks) = [1; 2; 3; 4; 5; 6; 7; 8; 9; 10] /\
    contiguous 0 chunks.
Proof.
  assert (Hw : roomWithinUnit (BytecodeBufferBuilder.constructor 16))
    by (unfold roomWithinUnit; cbn; lia).
  split; [exact Hw|].
  eexists.
  assert (E : BytecodeBufferBuilder.load 12 0 [1; 2; 3; 4; 5; 6; 7; 8; 9; 10]
                (BytecodeBufferBuilder.constructor 16) = BytecodeBufferBuilder.Done _)
    by (vm_compute; reflexivity).
  destruct (load_covers_data 12 0 [1; 2; 3; 4; 5; 6; 7; 8; 9; 10]
              (BytecodeBufferBuilder.constructor 16) _ Hw E) as (chunks & Hc & Hh & Hd & Ha).
  exists chunks. split; [exact E|]. split; [exact Hc|]. split; [exact Hh|].
  split; [exact Hd|exact Ha].
Defined.

(** Four jumps in a builder with units of 16 bytes: one unit of 20 bytes. *)
Lemma jumps_exceed_unit_size_witness :
  exists b unit,
    jumps 4 0 (BytecodeBufferBuilder.constructor 16) = BytecodeBufferBuilder.Done b /\
    fst (BytecodeBufferBuilder.generate b) = [unit] /\
    Z.of_nat (length unit) = 20 /\
    BytecodeBufferBuilder.lastUnitRemain b = 16.
Proof.
  destruct (jumps_exceed_unit_size 4 0 16 ltac:(lia) ltac:(lia))
    as (b & E & Hr & unit & Hg & Hl).
  exists b, unit. split; [exact E|]. split; [exact Hg|]. split; [exact Hl|exact Hr].
Defined.

